(** * The shared browser tab pool of [sawari-expert/middlewares.py]

    A shallow embedding of [SeleniumMiddleware]: the module-level globals
    ([_GLOBAL_DRIVER], [_GLOBAL_TAB_POOL], [_GLOBAL_MAX_TABS],
    [_GLOBAL_INSTANCE_LOCK]), the constructor [__init__], [process_request]
    and [spider_closed].

    Python objects that are shared by reference (the driver, the [Queue])
    live in a store indexed by allocation order; a middleware instance keeps
    references into that store, so an instance built before [spider_closed]
    still sees its driver and its queue afterwards, as in Python.

    The Selenium driver is an external collaborator.  It is modelled by the
    part of its contract the middleware relies on: a launched browser has one
    window, [window.open] adds one window with a new handle (handles are
    never handed out twice, within a session or across sessions),
    [window_handles] lists the windows in creation order, every command on a
    session that was quit raises.  Every call on the driver may in addition
    raise whenever the environment says so: the commands of
    [process_request] and the [quit] of [spider_closed], whose failure the
    source handles ([finally], [except Exception]), and the launch and the
    three driver calls of [__init__], whose failure it does not handle: the
    exception leaves the constructor with the browser launched and the
    globals not yet assigned. *)

From Stdlib Require Import ZArith Ascii String Permutation Lia.
From stdpp Require Import base tactics option list numbers strings gmap.

(** ** Data model *)

(** Window handles are opaque identifiers chosen by the browser. *)
Definition handle := nat.

Inductive browser_kind := Firefox | Chrome.

(** The driver commands the middleware issues. *)
Inductive cmd :=
| CurrentWindowHandle
| ExecuteScriptWindowOpen
| WindowHandles
| SwitchToWindow (h : handle)
| Get (url : string)
| PageSource
| CurrentUrl
| Quit.

Record driver := Driver {
  kind : browser_kind;
  window_handles : list handle;     (* windows opened in this session, oldest first *)
  current_window_handle : handle;
  session_alive : bool;             (* false once [quit] went through *)
  commands : list cmd               (* every command received, oldest first *)
}.

(** Process-wide state: the module globals and the object store. *)
Record world := World {
  _GLOBAL_DRIVER : option nat;
  _GLOBAL_TAB_POOL : option nat;
  _GLOBAL_MAX_TABS : option Z;
  _GLOBAL_INSTANCE_LOCK : bool;     (* true: held by some thread *)
  drivers : list driver;            (* every driver launched by this process *)
  queues : list (list handle);      (* every Queue created by this process *)
  next_handle : handle              (* the browser's supply of new handles *)
}.

Inductive lock_ref := the_GLOBAL_INSTANCE_LOCK.

(** The attributes of a [SeleniumMiddleware] instance.  [tab_pool] and
    [max_tabs] are copies of globals on the reuse path, hence optional
    ([None] is Python's [None]). *)
Record SeleniumMiddleware := Middleware {
  driver_of : nat;
  tab_pool : option nat;
  max_tabs : option Z;
  lock : lock_ref
}.

Inductive exn :=
| AttributeError                    (* [None.get()] *)
| WebDriverException (c : cmd)      (* raised by the driver on command [c] *)
| SessionNotCreatedException.       (* raised on the way to [Chrome(...)] / [Firefox(...)]:
                                       no driver path, or no browser started *)

Inductive outcome (A : Type) :=
| Returned (a : A)
| Raised (e : exn).
Arguments Returned {A} a.
Arguments Raised {A} e.

Record HtmlResponse := Response {
  url : string;
  body : string;
  meta_driver : nat;
  meta_tab_handle : handle
}.

(** Start of the Python process: the module has just been imported. *)
Definition initial_world : world :=
  World None None None false [] [] 0.

(** ** The driver (external collaborator) *)

Definition launch (browser : string) (fresh : handle) : driver :=
  {| kind := if String.eqb browser "chrome"%string then Chrome else Firefox;
     window_handles := [fresh];
     current_window_handle := fresh;
     session_alive := true;
     commands := [] |}.

Definition record_cmd (c : cmd) (d : driver) : driver :=
  {| kind := kind d;
     window_handles := window_handles d;
     current_window_handle := current_window_handle d;
     session_alive := session_alive d;
     commands := commands d ++ [c] |}.

(** [driver.execute_script("window.open('', '_blank');")] *)
Definition execute_script_window_open (fresh : handle) (d : driver) : driver :=
  {| kind := kind d;
     window_handles := window_handles d ++ [fresh];
     current_window_handle := current_window_handle d;
     session_alive := session_alive d;
     commands := commands d ++ [ExecuteScriptWindowOpen] |}.

(** Does command [c] go through on [d]?  Not on a session that was quit, not
    when the environment makes it fail, and a switch needs an open window. *)
Definition accepts (c : cmd) (raises : bool) (d : driver) : bool :=
  session_alive d && negb raises &&
  match c with
  | SwitchToWindow h => bool_decide (h ∈ window_handles d)
  | _ => true
  end.

(** A command of [process_request] or [spider_closed] reaching the driver. *)
Definition issue (c : cmd) (raises : bool) (d : driver) : driver * bool :=
  let ok := accepts c raises d in
  ({| kind := kind d;
      window_handles := window_handles d;
      current_window_handle :=
        match c with
        | SwitchToWindow h => if ok then h else current_window_handle d
        | _ => current_window_handle d
        end;
      session_alive :=
        match c with
        | Quit => if ok then false else session_alive d
        | _ => session_alive d
        end;
      commands := commands d ++ [c] |}, ok).

Definition set_drivers (ds : list driver) (w : world) : world :=
  World (_GLOBAL_DRIVER w) (_GLOBAL_TAB_POOL w) (_GLOBAL_MAX_TABS w)
        (_GLOBAL_INSTANCE_LOCK w) ds (queues w) (next_handle w).

Definition set_queues (qs : list (list handle)) (w : world) : world :=
  World (_GLOBAL_DRIVER w) (_GLOBAL_TAB_POOL w) (_GLOBAL_MAX_TABS w)
        (_GLOBAL_INSTANCE_LOCK w) (drivers w) qs (next_handle w).

Definition set_lock (b : bool) (w : world) : world :=
  World (_GLOBAL_DRIVER w) (_GLOBAL_TAB_POOL w) (_GLOBAL_MAX_TABS w)
        b (drivers w) (queues w) (next_handle w).

Definition clear_globals (w : world) : world :=
  World None None None
        (_GLOBAL_INSTANCE_LOCK w) (drivers w) (queues w) (next_handle w).

(** Send [c] to the driver object [d] of the store. *)
Definition send (d : nat) (c : cmd) (raises : bool) (w : world) : world * bool :=
  match drivers w !! d with
  | Some dr =>
      let '(dr', ok) := issue c raises dr in
      (set_drivers (<[d := dr']> (drivers w)) w, ok)
  | None => (w, false)
  end.

(** ** [queue.Queue]: FIFO, [put] at the back, [get] from the front *)

Definition Queue_put (q : nat) (h : handle) (w : world) : world :=
  set_queues (alter (λ l, l ++ [h]) q (queues w)) w.

(** [None]: the queue is empty and the caller blocks. *)
Definition Queue_get (q : nat) (w : world) : option (handle * world) :=
  match queues w !! q with
  | Some (h :: rest) => Some (h, set_queues (<[q := rest]> (queues w)) w)
  | _ => None
  end.

(** ** [SeleniumMiddleware.__init__] *)

(** What the browser does during one construction, were it asked now: does
    the launch (lines 111-142: driver path, service, [Chrome(...)] or
    [Firefox(...)]) raise, and which of the driver calls of lines 148-158.
    [execute_script_raises i] is the say on the script of iteration [i]. *)
Record launch_env := LaunchEnv {
  launch_raises : bool;
  current_window_handle_raises : bool;
  execute_script_raises : nat → bool;
  window_handles_raises : bool
}.

(** A browser that starts and answers every call of the constructor. *)
Definition launching : launch_env :=
  LaunchEnv false false (λ _, false) false.

(** Does the browser start and answer every driver call that a creating
    construction with [max_tabs] tabs makes? *)
Definition goes_through (max_tabs : Z) (e : launch_env) : bool :=
  negb (launch_raises e) &&
  negb (current_window_handle_raises e) &&
  forallb (λ i, negb (execute_script_raises e i)) (seq 0 (Z.to_nat (max_tabs - 1))) &&
  negb (window_handles_raises e).

(** [for i in range(max_tabs - 1): driver.execute_script(...)], with [k]
    iterations to go; [raises 0] is the say on the next script.  The flag is
    [false] when a script raised: the driver has received it, no window was
    opened, and the loop is left. *)
Fixpoint open_tabs (k : nat) (raises : nat → bool) (fresh : handle) (d : driver)
  : driver * handle * bool :=
  match k with
  | O => (d, fresh, true)
  | S k' =>
      if raises 0 then (record_cmd ExecuteScriptWindowOpen d, fresh, false)
      else open_tabs k' (λ i, raises (S i)) (S fresh)
                     (execute_script_window_open fresh d)
  end.

(** [for tab in tabs: pool.put(tab)] on the queue being built. *)
Definition put_all (tabs : list handle) (pool : list handle) : list handle :=
  fold_left (λ p tab, p ++ [tab]) tabs pool.

(** The state in which an exception leaves the constructor once
    [self.driver] and [self.tab_pool] exist: the driver [d] and the queue
    [pool] are in the store, nothing has quit the driver, and the globals
    have not been assigned. *)
Definition left_behind (d : driver) (pool : list handle) (fresh : handle) (w : world)
  : world :=
  World (_GLOBAL_DRIVER w) (_GLOBAL_TAB_POOL w) (_GLOBAL_MAX_TABS w)
        (_GLOBAL_INSTANCE_LOCK w) (drivers w ++ [d]) (queues w ++ [pool]) fresh.

(** The whole body runs under [_GLOBAL_LOCK], so it is one atomic step of the
    process.  There is no [try] around the creation branch: an exception of
    the launch or of a driver call propagates to the caller, and no instance
    is returned. *)
Definition __init__ (browser : string) (max_tabs : Z) (e : launch_env) (w : world)
  : world * outcome SeleniumMiddleware :=
  match _GLOBAL_DRIVER w with
  | Some d =>
      (w, Returned (Middleware d (_GLOBAL_TAB_POOL w) (_GLOBAL_MAX_TABS w)
                               the_GLOBAL_INSTANCE_LOCK))
  | None =>
      if launch_raises e then (w, Raised SessionNotCreatedException)
      else
        let d0 := launch browser (next_handle w) in
        let d1 := record_cmd CurrentWindowHandle d0 in
        if current_window_handle_raises e
        then (left_behind d1 [] (S (next_handle w)) w,
              Raised (WebDriverException CurrentWindowHandle))
        else
          let main_tab := current_window_handle d0 in
          let pool0 := [] ++ [main_tab] in
          let '(d2, fresh, opened) :=
            open_tabs (Z.to_nat (max_tabs - 1)) (execute_script_raises e)
                      (S (next_handle w)) d1 in
          if negb opened
          then (left_behind d2 pool0 fresh w,
                Raised (WebDriverException ExecuteScriptWindowOpen))
          else
            let d3 := record_cmd WindowHandles d2 in
            if window_handles_raises e
            then (left_behind d3 pool0 fresh w,
                  Raised (WebDriverException WindowHandles))
            else
              let all_tabs := window_handles d2 in
              let pool := put_all (tail all_tabs) pool0 in
              let d := length (drivers w) in
              let q := length (queues w) in
              (World (Some d) (Some q) (Some max_tabs) (_GLOBAL_INSTANCE_LOCK w)
                     (drivers w ++ [d3]) (queues w ++ [pool]) fresh,
               Returned (Middleware d (Some q) (Some max_tabs)
                                    the_GLOBAL_INSTANCE_LOCK))
  end.

(** ** [SeleniumMiddleware.spider_closed] *)

(** Runs under [_GLOBAL_LOCK]: one atomic step.  [quit_raises] is the
    environment's say on [_GLOBAL_DRIVER.quit()]; the [except Exception]
    clause swallows the failure, and the three assignments are skipped. *)
Definition spider_closed (quit_raises : bool) (w : world) : world * outcome unit :=
  match _GLOBAL_DRIVER w with
  | Some d =>
      let '(w1, ok) := send d Quit quit_raises w in
      if ok then (clear_globals w1, Returned tt) else (w1, Returned tt)
  | None => (w, Returned tt)
  end.

(** ** [SeleniumMiddleware.process_request] *)

(** What the browser does for one request, were it asked now: which of the
    four commands fail, and what a successful capture yields. *)
Record env := Env {
  switch_raises : bool;
  get_raises : bool;
  page_source_raises : bool;
  current_url_raises : bool;
  the_page_source : string;
  the_current_url : string
}.

(** Where a call of [process_request] stands.  Each constructor is the
    statement about to run; the steps between them are the atomic actions
    that other threads can interleave with. *)
Inductive pc :=
| at_get                                           (* tab_handle = self.tab_pool.get() *)
| at_lock (tab_handle : handle)                    (* with self.lock: *)
| at_switch (tab_handle : handle)                  (* self.driver.switch_to.window(tab_handle) *)
| at_navigate (tab_handle : handle)                (* self.driver.get(request.url) *)
| at_page_source (tab_handle : handle)             (* body = str.encode(self.driver.page_source) *)
| at_current_url (tab_handle : handle) (body : string)
                                                   (* current_url = self.driver.current_url *)
| at_unlock (tab_handle : handle) (pending : outcome (string * string))
                                                   (* leaving the with block *)
| at_response (tab_handle : handle) (body current_url : string)
                                                   (* response = HtmlResponse(...); meta *)
| at_finally (tab_handle : handle) (pending : outcome HtmlResponse)
                                                   (* finally: self.tab_pool.put(tab_handle) *)
| finished (result : outcome HtmlResponse).

Record thread := Thread {
  self : SeleniumMiddleware;
  request_url : string;
  at_ : pc
}.

Definition goto (p : pc) (t : thread) : thread :=
  Thread (self t) (request_url t) p.

(** A driver command inside the [with] block: on success go on with [next],
    on failure leave the block with the driver's exception. *)
Definition command (c : cmd) (raises : bool) (tab_handle : handle) (next : pc)
    (w : world) (t : thread) : world * thread :=
  let '(w', ok) := send (driver_of (self t)) c raises w in
  (w', goto (if ok then next
             else at_unlock tab_handle (Raised (WebDriverException c))) t).

(** One atomic step of a thread inside [process_request]; [None] when the
    thread cannot move (blocked on the queue or on the lock, or returned). *)
Definition thread_step (e : env) (w : world) (t : thread) : option (world * thread) :=
  match at_ t with
  | at_get =>
      match tab_pool (self t) with
      | Some q =>
          match Queue_get q w with
          | Some (tab_handle, w') => Some (w', goto (at_lock tab_handle) t)
          | None => None
          end
      | None => Some (w, goto (finished (Raised AttributeError)) t)
      end
  | at_lock tab_handle =>
      if _GLOBAL_INSTANCE_LOCK w then None
      else Some (set_lock true w, goto (at_switch tab_handle) t)
  | at_switch tab_handle =>
      Some (command (SwitchToWindow tab_handle) (switch_raises e) tab_handle
                    (at_navigate tab_handle) w t)
  | at_navigate tab_handle =>
      Some (command (Get (request_url t)) (get_raises e) tab_handle
                    (at_page_source tab_handle) w t)
  | at_page_source tab_handle =>
      Some (command PageSource (page_source_raises e) tab_handle
                    (at_current_url tab_handle (the_page_source e)) w t)
  | at_current_url tab_handle body =>
      Some (command CurrentUrl (current_url_raises e) tab_handle
                    (at_unlock tab_handle (Returned (body, the_current_url e))) w t)
  | at_unlock tab_handle pending =>
      Some (set_lock false w,
            goto match pending with
                 | Returned (body, current_url) => at_response tab_handle body current_url
                 | Raised x => at_finally tab_handle (Raised x)
                 end t)
  | at_response tab_handle body current_url =>
      Some (w, goto (at_finally tab_handle
                       (Returned (Response current_url body (driver_of (self t)) tab_handle))) t)
  | at_finally tab_handle pending =>
      match tab_pool (self t) with
      | Some q => Some (Queue_put q tab_handle w, goto (finished pending) t)
      | None => Some (w, goto (finished (Raised AttributeError)) t)
      end
  | finished _ => None
  end.

(** The tab a call has taken from the pool and not yet put back. *)
Definition held_tab (p : pc) : option handle :=
  match p with
  | at_get | finished _ => None
  | at_lock h | at_switch h | at_navigate h | at_page_source h
  | at_current_url h _ | at_unlock h _ | at_response h _ _ | at_finally h _ => Some h
  end.

(** A call running with no other thread in the process. *)
Fixpoint run_thread (fuel : nat) (e : env) (w : world) (t : thread)
  : option (world * outcome HtmlResponse) :=
  match at_ t with
  | finished r => Some (w, r)
  | _ =>
      match fuel with
      | O => None
      | S fuel' =>
          match thread_step e w t with
          | Some (w', t') => run_thread fuel' e w' t'
          | None => None
          end
      end
  end.

(** [None]: the call blocks for ever (empty pool, or lock never released). *)
Definition process_request (self : SeleniumMiddleware) (request_url : string)
    (e : env) (w : world) : option (world * outcome HtmlResponse) :=
  run_thread 9 e w (Thread self request_url at_get).

(** ** The process: middleware instances and threads *)

Record system := System {
  sys_world : world;
  instances : list SeleniumMiddleware;   (* in order of construction *)
  threads : list thread                  (* calls of process_request, in order of start *)
}.

Inductive label :=
| Construct (browser : string) (max_tabs : Z) (e : launch_env)
                                                (* SeleniumMiddleware(browser, max_tabs) *)
| Close (quit_raises : bool)                    (* spider_closed() of any instance *)
| Call (instance : nat) (request_url : string)  (* a thread enters process_request *)
| Step (tid : nat) (e : env).                   (* thread [tid] does its next step *)

Definition initial_system : system := System initial_world [] [].

Definition exec (l : label) (s : system) : option system :=
  match l with
  | Construct browser max_tabs e =>
      match __init__ browser max_tabs e (sys_world s) with
      | (w', Returned m) => Some (System w' (instances s ++ [m]) (threads s))
      | (w', Raised _) => Some (System w' (instances s) (threads s))
      end
  | Close quit_raises =>
      Some (System (fst (spider_closed quit_raises (sys_world s)))
                   (instances s) (threads s))
  | Call i request_url =>
      match instances s !! i with
      | Some m => Some (System (sys_world s) (instances s)
                               (threads s ++ [Thread m request_url at_get]))
      | None => None
      end
  | Step tid e =>
      match threads s !! tid with
      | Some t =>
          match thread_step e (sys_world s) t with
          | Some (w', t') => Some (System w' (instances s) (<[tid := t']> (threads s)))
          | None => None
          end
      | None => None
      end
  end.

(** [None]: the schedule asks for a step that is not enabled. *)
Fixpoint run (ls : list label) (s : system) : option system :=
  match ls with
  | [] => Some s
  | l :: ls' =>
      match exec l s with
      | Some s' => run ls' s'
      | None => None
      end
  end.

Definition reachable (s : system) : Prop :=
  ∃ ls, run ls initial_system = Some s.

Definition is_Close (l : label) : bool :=
  match l with Close _ => true | _ => false end.

Definition is_Construct (l : label) : bool :=
  match l with Construct _ _ _ => true | _ => false end.

(** Tabs of queue [q] checked out by the calls in flight. *)
Definition checked_out_by (q : nat) (t : thread) : list handle :=
  match tab_pool (self t), held_tab (at_ t) with
  | Some q', Some h => if bool_decide (q' = q) then [h] else []
  | _, _ => []
  end.

Definition checked_out (q : nat) (ts : list thread) : list handle :=
  flat_map (checked_out_by q) ts.

(** The tab registry: the window handles of every driver of the store. *)
Definition tabs (w : world) : list (list handle) :=
  window_handles <$> drivers w.

(** Steps a call still has to take before it returns. *)
Definition steps_left (p : pc) : nat :=
  match p with
  | at_get => 9
  | at_lock _ => 8
  | at_switch _ => 7
  | at_navigate _ => 6
  | at_page_source _ => 5
  | at_current_url _ _ => 4
  | at_unlock _ _ => 3
  | at_response _ _ _ => 2
  | at_finally _ _ => 1
  | finished _ => 0
  end.

(** A browser that answers every command of a request. *)
Definition answering (page final_url : string) : env :=
  Env false false false false page final_url.

(** Number of constructor calls in a schedule. *)
Definition constructions (ls : list label) : nat :=
  length (List.filter is_Construct ls).

Definition no_Close (ls : list label) : bool :=
  forallb (λ l, negb (is_Close l)) ls.

(** What a step of [process_request] never touches: the tab registry, the
    three globals, the handle supply. *)
Definition same_session (w w' : world) : Prop :=
  tabs w' = tabs w ∧
  _GLOBAL_DRIVER w' = _GLOBAL_DRIVER w ∧
  _GLOBAL_TAB_POOL w' = _GLOBAL_TAB_POOL w ∧
  _GLOBAL_MAX_TABS w' = _GLOBAL_MAX_TABS w ∧
  next_handle w' = next_handle w.

(** As long as nobody closes: no instance yet and no session recorded, or
    the recorded session is the one launched last, its pool is the queue
    created with it, and every instance is equal to the first.  Drivers
    launched earlier were left behind by constructions that raised. *)
Definition one_session (s : system) : Prop :=
  length (queues (sys_world s)) = length (drivers (sys_world s)) ∧
  match instances s with
  | [] => _GLOBAL_DRIVER (sys_world s) = None
  | m :: rest =>
      _GLOBAL_DRIVER (sys_world s) = Some (driver_of m) ∧
      _GLOBAL_TAB_POOL (sys_world s) = tab_pool m ∧
      _GLOBAL_MAX_TABS (sys_world s) = max_tabs m ∧
      length (drivers (sys_world s)) = S (driver_of m) ∧
      tab_pool m = Some (driver_of m) ∧
      Forall (λ m', m' = m) rest
  end.

(** Does the construction, if the step is one, meet a browser that
    answers? *)
Definition answered (l : label) : bool :=
  match l with
  | Construct _ max_tabs e => goes_through max_tabs e
  | _ => true
  end.

(** No driver outside the session of the instances: nothing launched yet, or
    one driver and one queue. *)
Definition nothing_left_behind (s : system) : Prop :=
  match instances s with
  | [] => drivers (sys_world s) = [] ∧ queues (sys_world s) = []
  | _ :: _ =>
      length (drivers (sys_world s)) = 1 ∧ length (queues (sys_world s)) = 1
  end.

(** Driver [d] is in the store as [dr], and neither the globals, nor an
    instance, nor a call in flight refer to it. *)
Definition out_of_reach (d : nat) (dr : driver) (s : system) : Prop :=
  drivers (sys_world s) !! d = Some dr ∧
  _GLOBAL_DRIVER (sys_world s) ≠ Some d ∧
  Forall (λ m, driver_of m ≠ d) (instances s) ∧
  Forall (λ t, driver_of (self t) ≠ d) (threads s).

(** A browser that starts and then fails every [window.open] script. *)
Definition failing_script : launch_env :=
  LaunchEnv false false (λ _, true) false.

(** A construction that raises while opening tabs, and the construction made
    next in the same process. *)
Definition construction_retried : list label :=
  [Construct "firefox" 2 failing_script; Construct "firefox" 2 launching].

(** An instance of a session of the store: its pool is the queue created
    together with its driver, and the driver has as many windows as the tab
    count asks for (one when the tab count is below one). *)
Definition wf_instance (w : world) (m : SeleniumMiddleware) : Prop :=
  ∃ n hs,
    tab_pool m = Some (driver_of m) ∧
    max_tabs m = Some n ∧
    tabs w !! driver_of m = Some hs ∧
    length hs = Z.to_nat (Z.max 1 n).

(** The response waiting in [finally] names the tab the call holds. *)
Definition coherent (t : thread) : Prop :=
  match at_ t with
  | at_finally h (Returned r) =>
      meta_tab_handle r = h ∧ meta_driver r = driver_of (self t)
  | _ => True
  end.

(** The sessions that the globals or an instance refer to.  The driver and
    the queue left behind by a construction that raised are referred to by
    nothing. *)
Definition in_use (s : system) (q : nat) : Prop :=
  _GLOBAL_DRIVER (sys_world s) = Some q ∨
  ∃ m, m ∈ instances s ∧ driver_of m = q.

(** The invariant of the process.  Queue number [q] and driver number [q]
    are created together; for a session in use, what is in the queue and
    what the calls in flight have taken from it is, up to order, the
    driver's window list. *)
Record pool_inv (s : system) : Prop := PoolInv {
  inv_len : length (queues (sys_world s)) = length (tabs (sys_world s));
  inv_nodup : NoDup (concat (tabs (sys_world s)));
  inv_fresh : Forall (λ h, h < next_handle (sys_world s)) (concat (tabs (sys_world s)));
  inv_perm : ∀ q pool hs,
    in_use s q →
    queues (sys_world s) !! q = Some pool →
    tabs (sys_world s) !! q = Some hs →
    pool ++ checked_out q (threads s) ≡ₚ hs;
  inv_instances : Forall (wf_instance (sys_world s)) (instances s);
  inv_threads :
    Forall (λ t, wf_instance (sys_world s) (self t) ∧ coherent t) (threads s);
  inv_globals : ∀ d,
    _GLOBAL_DRIVER (sys_world s) = Some d →
    wf_instance (sys_world s)
      (Middleware d (_GLOBAL_TAB_POOL (sys_world s)) (_GLOBAL_MAX_TABS (sys_world s))
                  the_GLOBAL_INSTANCE_LOCK);
  inv_callers : Forall (λ t, self t ∈ instances s) (threads s)
}.

(** A schedule used as an example: one session with three tabs, two
    requests; the first has taken its tab and the lock, the second its tab. *)
Definition two_requests_in_flight : list label :=
  [Construct "firefox" 3 launching; Call 0 "http://host/a"; Call 0 "http://host/b";
   Step 0 (answering "" ""); Step 1 (answering "" "");
   Step 0 (answering "" "")].

(** One session with two tabs and one request that has run up to its
    [finally] clause with a response in hand. *)
Definition request_up_to_finally : list label :=
  Construct "firefox" 2 launching :: Call 0 "http://host/a" ::
  replicate 8 (Step 0 (answering "<html/>" "http://host/a")).

(** The four driver commands of one request, in the order of the source. *)
Definition request_commands (tab_handle : handle) (request_url : string) : list cmd :=
  [SwitchToWindow tab_handle; Get request_url; PageSource; CurrentUrl].

(** The environment's say on each of them, in the same order. *)
Definition request_raises (e : env) : list bool :=
  [switch_raises e; get_raises e; page_source_raises e; current_url_raises e].

(** Requests served one after the other by the same instance, as the
    downloader does when it does not overlap calls of [process_request]. *)
Fixpoint serve (m : SeleniumMiddleware) (requests : list (string * env)) (w : world)
  : option (world * list (outcome HtmlResponse)) :=
  match requests with
  | [] => Some (w, [])
  | (request_url, e) :: requests' =>
      match process_request m request_url e w with
      | Some (w', out) =>
          match serve m requests' w' with
          | Some (w'', outs) => Some (w'', out :: outs)
          | None => None
          end
      | None => None
      end
  end.

(** Is the call inside the [with self.lock:] block? *)
Definition in_with_block (p : pc) : bool :=
  match p with
  | at_switch _ | at_navigate _ | at_page_source _ | at_current_url _ _
  | at_unlock _ _ => true
  | _ => false
  end.

(** Number of calls inside the [with] block. *)
Definition lock_holders (ts : list thread) : nat :=
  length (List.filter (λ t, in_with_block (at_ t)) ts).

(** The call neither carries nor has raised an [AttributeError]. *)
Definition no_AttributeError (p : pc) : Prop :=
  match p with
  | at_unlock _ (Raised AttributeError)
  | at_finally _ (Raised AttributeError)
  | finished (Raised AttributeError) => False
  | _ => True
  end.

(** ** [SeleniumMiddleware._get_driver_path]

    The function looks at the host through [shutil.which],
    [os.path.expanduser], [os.path.exists], and changes it through
    [os.makedirs], a driver manager's [install], [shutil.copy2] and
    [os.chmod].  The host is modelled by its regular files, its directories
    and the list of manager installs made so far; the PATH lookup and the
    home directory are given by the environment and are not affected by what
    the function writes.  [os.makedirs] records the directory it is asked
    for (its ancestors are not tracked); an install succeeds and leaves the
    binary at the manager's path. *)

Record file := File {
  file_content : string;
  file_mode : N
}.

Record host := Host {
  files : gmap string file;
  dirs : gset string;
  installs : list string            (* driver names installed by a manager, oldest first *)
}.

Record host_env := HostEnv {
  which : string → option string;                 (* shutil.which *)
  expanduser : string → string;                   (* os.path.expanduser *)
  ChromeDriverManager_install : string * file;    (* path of the binary it leaves, and the binary *)
  GeckoDriverManager_install : string * file
}.

Inductive os_error := FileExistsError | FileNotFoundError | SameFileError.

Inductive os_result (A : Type) :=
| Done (a : A)
| OSError (e : os_error).
Arguments Done {A} a.
Arguments OSError {A} e.

(** Does the string end with a slash? *)
Fixpoint ends_with_slash (s : string) : bool :=
  match s with
  | EmptyString => false
  | String c EmptyString => Ascii.eqb c "/"%char
  | String _ s' => ends_with_slash s'
  end.

(** [os.path.join(a, b)] of [posixpath]. *)
Definition path_join (a b : string) : string :=
  if String.prefix "/" b then b
  else if String.eqb a "" || ends_with_slash a then (a ++ b)%string
  else (a ++ "/" ++ b)%string.

(** [os.path.basename(p)]: what follows the last slash. *)
Fixpoint basename (p : string) : string :=
  match p with
  | EmptyString => EmptyString
  | String c p' =>
      if Ascii.eqb c "/"%char then basename p'
      else if existsb (Ascii.eqb "/"%char) (list_ascii_of_string p') then basename p'
      else p
  end.

(** [os.path.exists(p)] *)
Definition path_exists (p : string) (hst : host) : bool :=
  bool_decide (is_Some (files hst !! p)) || bool_decide (p ∈ dirs hst).

(** [os.makedirs(p, exist_ok=True)] *)
Definition makedirs (p : string) (hst : host) : os_result host :=
  if bool_decide (p ∈ dirs hst) then Done hst
  else if bool_decide (is_Some (files hst !! p)) then OSError FileExistsError
  else Done (Host (files hst) ({[p]} ∪ dirs hst) (installs hst)).

(** [XDriverManager().install()]: the binary is at the manager's path
    afterwards, and that path is returned. *)
Definition install (name : string) (binary : string * file) (hst : host)
  : host * string :=
  (Host (<[binary.1 := binary.2]> (files hst)) (dirs hst) (installs hst ++ [name]),
   binary.1).

(** [shutil.copy2(src, dst)]: content and mode are copied; into [dst] when
    it is a directory. *)
Definition copy2 (src dst : string) (hst : host) : os_result host :=
  match files hst !! src with
  | None => OSError FileNotFoundError
  | Some f =>
      let target :=
        if bool_decide (dst ∈ dirs hst) then path_join dst (basename src) else dst in
      if String.eqb src target then OSError SameFileError
      else Done (Host (<[target := f]> (files hst)) (dirs hst) (installs hst))
  end.

(** [os.chmod(p, mode)] *)
Definition chmod (p : string) (mode : N) (hst : host) : os_result host :=
  match files hst !! p with
  | Some f =>
      Done (Host (<[p := File (file_content f) mode]> (files hst))
                 (dirs hst) (installs hst))
  | None => if bool_decide (p ∈ dirs hst) then Done hst
            else OSError FileNotFoundError
  end.

(** The body of either branch of [_get_driver_path] from
    [cache_dir = ...] on; the two branches differ in the driver name and the
    manager only. *)
Definition from_cache_or_install (env : host_env) (name : string)
    (manager : string * file) (hst : host) : host * os_result string :=
  let cache_dir := expanduser env "~/.wdm_cache" in
  let cached_path := path_join cache_dir name in
  if path_exists cached_path hst then (hst, Done cached_path)
  else
    match makedirs cache_dir hst with
    | OSError x => (hst, OSError x)
    | Done h1 =>
        let '(h2, driver_path) := install name manager h1 in
        match copy2 driver_path cached_path h2 with
        | OSError x => (h2, OSError x)
        | Done h3 =>
            match chmod cached_path 493 h3 with
            | OSError x => (h3, OSError x)
            | Done h4 => (h4, Done cached_path)
            end
        end
    end.

(** [system_driver = shutil.which(name); if system_driver: return ...]: the
    empty string is as false as [None]. *)
Definition cached_driver_path (env : host_env) (name : string)
    (manager : string * file) (hst : host) : host * os_result string :=
  match which env name with
  | Some system_driver =>
      if negb (String.eqb system_driver "") then (hst, Done system_driver)
      else from_cache_or_install env name manager hst
  | None => from_cache_or_install env name manager hst
  end.

Definition _get_driver_path (env : host_env) (browser : string) (hst : host)
  : host * os_result string :=
  if String.eqb browser "chrome"
  then cached_driver_path env "chromedriver" (ChromeDriverManager_install env) hst
  else cached_driver_path env "geckodriver" (GeckoDriverManager_install env) hst.

(** ** [SeleniumMiddleware.from_crawler] and the [spider_closed] signal

    Of a Scrapy crawler the middleware uses two settings and the signal
    manager.  A setting is [None] when it is not set; [SELENIUM_MAX_TABS]
    holds an integer and [SELENIUM_BROWSER] a string when they are.  Of the
    signal manager the model keeps the receivers connected to
    [signals.spider_closed] by this middleware, in connection order. *)
Record crawler := Crawler {
  SELENIUM_MAX_TABS : option Z;
  SELENIUM_BROWSER : option string;
  spider_closed_receivers : list SeleniumMiddleware
}.

(** When the constructor raises, [connect] is not reached: the exception
    propagates and the crawler keeps its receivers. *)
Definition from_crawler (c : crawler) (e : launch_env) (w : world)
  : world * outcome (crawler * SeleniumMiddleware) :=
  let max_tabs := default 4%Z (SELENIUM_MAX_TABS c) in
  let browser := default "firefox"%string (SELENIUM_BROWSER c) in
  match __init__ browser max_tabs e w with
  | (w', Returned middleware) =>
      (w',
       Returned (Crawler (SELENIUM_MAX_TABS c) (SELENIUM_BROWSER c)
                         (spider_closed_receivers c ++ [middleware]),
                 middleware))
  | (w', Raised x) => (w', Raised x)
  end.

(** The crawler sends [signals.spider_closed]: each receiver, a bound
    [spider_closed] method, is called in turn.  [quit_raises i] is the
    environment's say on the [quit] of the [i]-th call. *)
Fixpoint send_spider_closed (receivers : list SeleniumMiddleware)
    (quit_raises : nat → bool) (w : world) : world :=
  match receivers with
  | [] => w
  | _ :: receivers' =>
      send_spider_closed receivers' (λ i, quit_raises (S i))
                         (fst (spider_closed (quit_raises 0) w))
  end.

(** * Properties *)

(** ** Construction of the session and its pool *)

Lemma goes_through_spec n e :
  goes_through n e = true ↔
  launch_raises e = false ∧
  current_window_handle_raises e = false ∧
  (∀ i, i < Z.to_nat (n - 1) → execute_script_raises e i = false) ∧
  window_handles_raises e = false.
Proof.
  unfold goes_through.
  rewrite !andb_true_iff, !negb_true_iff, forallb_forall.
  split.
  - intros [[[? ?] Hs] ?]. repeat split; try done.
    intros i Hi. apply negb_true_iff, Hs, in_seq. lia.
  - intros (? & ? & Hs & ?). repeat split; try done.
    intros i Hi. apply in_seq in Hi. apply negb_true_iff, Hs. lia.
Qed.

Lemma goes_through_launching n : goes_through n launching = true.
Proof. apply goes_through_spec. done. Qed.

Lemma put_all_app tabs pool : put_all tabs pool = pool ++ tabs.
Proof.
  unfold put_all. revert pool.
  induction tabs as [|x tabs IH]; intros pool; simpl.
  - by rewrite app_nil_r.
  - rewrite IH, <- app_assoc. done.
Qed.

(** The loop when no script raises. *)
Lemma open_tabs_spec k raises fresh d :
  (∀ i, i < k → raises i = false) →
  ∃ d', open_tabs k raises fresh d = (d', fresh + k, true) ∧
        window_handles d' = window_handles d ++ seq fresh k ∧
        kind d' = kind d ∧
        current_window_handle d' = current_window_handle d ∧
        session_alive d' = session_alive d.
Proof.
  revert raises fresh d. induction k as [|k IH]; intros raises fresh d Hr; simpl.
  - exists d. rewrite Nat.add_0_r, app_nil_r. done.
  - rewrite (Hr 0) by lia.
    destruct (IH (λ i, raises (S i)) (S fresh) (execute_script_window_open fresh d))
      as (d' & -> & Hh & Hk & Hc & Ha).
    { intros i Hi. apply Hr. lia. }
    exists d'. replace (fresh + S k) with (S fresh + k) by lia.
    simpl in *. rewrite Hh, <- app_assoc. done.
Qed.

(** The loop in general: it opens [j] windows, all [k] of them exactly when
    no script raised. *)
Lemma open_tabs_any k raises fresh d :
  ∃ d' j opened,
    open_tabs k raises fresh d = (d', fresh + j, opened) ∧
    j ≤ k ∧
    (opened = true → ∀ i, i < k → raises i = false) ∧
    window_handles d' = window_handles d ++ seq fresh j ∧
    kind d' = kind d ∧
    current_window_handle d' = current_window_handle d ∧
    session_alive d' = session_alive d.
Proof.
  revert raises fresh d. induction k as [|k IH]; intros raises fresh d; simpl.
  - exists d, 0, true. rewrite Nat.add_0_r, app_nil_r.
    repeat split; try done. intros _ i Hi. lia.
  - destruct (raises 0) eqn:H0.
    + exists (record_cmd ExecuteScriptWindowOpen d), 0, false.
      rewrite Nat.add_0_r, app_nil_r. simpl. repeat split; try done. lia.
    + destruct (IH (λ i, raises (S i)) (S fresh) (execute_script_window_open fresh d))
        as (d' & j & opened & -> & Hj & Hop & Hh & Hk & Hc & Ha).
      exists d', (S j), opened. replace (fresh + S j) with (S fresh + j) by lia.
      simpl in *. rewrite Hh, <- app_assoc. simpl.
      repeat split; try done; [lia|].
      intros Ho [|i] Hi; [done|]. apply (Hop Ho). lia.
Qed.

(** The creation branch of [__init__] when the browser answers, in closed
    form: the new driver has the windows [next_handle w], ..., and the new
    queue holds exactly them. *)
Lemma init_creates browser n e w :
  _GLOBAL_DRIVER w = None →
  goes_through n e = true →
  ∃ d, window_handles d = seq (next_handle w) (S (Z.to_nat (n - 1))) ∧
       session_alive d = true ∧
       kind d = (if String.eqb browser "chrome"%string then Chrome else Firefox) ∧
       __init__ browser n e w =
         (World (Some (length (drivers w))) (Some (length (queues w))) (Some n)
                (_GLOBAL_INSTANCE_LOCK w)
                (drivers w ++ [d]) (queues w ++ [window_handles d])
                (next_handle w + S (Z.to_nat (n - 1))),
          Returned (Middleware (length (drivers w)) (Some (length (queues w))) (Some n)
                               the_GLOBAL_INSTANCE_LOCK)).
Proof.
  intros HG He. apply goes_through_spec in He as (Hl & Hc & Hs & Hw).
  unfold __init__. rewrite HG, Hl, Hc.
  destruct (open_tabs_spec (Z.to_nat (n - 1)) (execute_script_raises e)
              (S (next_handle w))
              (record_cmd CurrentWindowHandle (launch browser (next_handle w))) Hs)
    as (d2 & -> & Hh & Hk & _ & Ha).
  simpl in Hh, Hk, Ha. rewrite Hw.
  exists (record_cmd WindowHandles d2). simpl.
  rewrite put_all_app, Hh. simpl.
  repeat split; try done. do 2 f_equal. lia.
Qed.

(** The reuse branch: nothing is asked of the browser. *)
Lemma init_reuses browser n e w d :
  _GLOBAL_DRIVER w = Some d →
  __init__ browser n e w =
    (w, Returned (Middleware d (_GLOBAL_TAB_POOL w) (_GLOBAL_MAX_TABS w)
                             the_GLOBAL_INSTANCE_LOCK)).
Proof. intros HG. unfold __init__. by rewrite HG. Qed.

(** The creation branch in general: the constructor returns, or it raises
    before anything was launched, or it raises with a launched driver and
    its queue left in the store. *)
Lemma init_cases browser n e w :
  _GLOBAL_DRIVER w = None →
  (goes_through n e = true ∧
   ∃ w' m, __init__ browser n e w = (w', Returned m)) ∨
  (∃ x, __init__ browser n e w = (w, Raised x)) ∨
  (∃ x d pool j,
     __init__ browser n e w
       = (left_behind d pool (next_handle w + S j) w, Raised x) ∧
     window_handles d = seq (next_handle w) (S j) ∧
     session_alive d = true).
Proof.
  intros HG. unfold __init__. rewrite HG.
  destruct (launch_raises e) eqn:Hl; [right; left; eauto|].
  destruct (current_window_handle_raises e) eqn:Hc.
  { right. right. eexists _, _, _, 0. rewrite Nat.add_1_r. done. }
  destruct (open_tabs_any (Z.to_nat (n - 1)) (execute_script_raises e)
              (S (next_handle w))
              (record_cmd CurrentWindowHandle (launch browser (next_handle w))))
    as (d2 & j & opened & -> & Hj & Hop & Hh & _ & _ & Ha).
  simpl in Hh, Ha.
  replace (S (next_handle w) + j) with (next_handle w + S j) by lia.
  destruct opened; simpl.
  - destruct (window_handles_raises e) eqn:Hw.
    + right. right. eexists _, _, _, j. done.
    + left. split; [|eauto]. apply goes_through_spec. auto.
  - right. right. eexists _, _, _, j. done.
Qed.

(** A construction that returned on the creation branch met a browser that
    answered. *)
Lemma init_returned browser n e w w' m :
  _GLOBAL_DRIVER w = None →
  __init__ browser n e w = (w', Returned m) →
  goes_through n e = true.
Proof.
  intros HG Hr.
  destruct (init_cases browser n e w HG)
    as [[Hg _] | [(x & Hx) | (x & d & pool & j & Hx & _)]]; [done|congruence..].
Qed.

Lemma open_tabs_only_scripts k : ∀ raises fresh d c,
  c ∈ commands (open_tabs k raises fresh d).1.1 →
  c ∈ commands d ∨ c = ExecuteScriptWindowOpen.
Proof.
  induction k as [|k IH]; intros raises fresh d c; simpl; [by left|].
  destruct (raises 0).
  - simpl. rewrite elem_of_app, list_elem_of_singleton. tauto.
  - intros Hc. apply IH in Hc as [Hc | Hc]; [|by right].
    simpl in Hc. apply elem_of_app in Hc as [Hc | Hc]; [by left|].
    apply list_elem_of_singleton in Hc. by right.
Qed.

(** The driver a raising construction leaves behind has received nothing
    but the constructor's own three kinds of call. *)
Lemma init_raised_commands browser n e w d pool fresh x :
  __init__ browser n e w = (left_behind d pool fresh w, Raised x) →
  ∀ c, c ∈ commands d →
       c = CurrentWindowHandle ∨ c = ExecuteScriptWindowOpen ∨ c = WindowHandles.
Proof.
  unfold __init__.
  destruct (_GLOBAL_DRIVER w); [done|].
  destruct (launch_raises e).
  { intros [= Hw]. unfold left_behind in Hw.
    apply (f_equal (λ w0, length (drivers w0))) in Hw. simpl in Hw.
    rewrite length_app in Hw. simpl in Hw. lia. }
  assert (Hd : ∀ d' pool' fresh' x',
            (left_behind d' pool' fresh' w, Raised x' : outcome SeleniumMiddleware)
              = (left_behind d pool fresh w, Raised x) → d' = d).
  { intros d' pool' fresh' x' [= Hds _]. by apply app_inj_tail in Hds as [_ ?]. }
  destruct (current_window_handle_raises e).
  { intros Heq c. apply Hd in Heq as <-. simpl.
    rewrite list_elem_of_singleton. tauto. }
  pose proof (open_tabs_only_scripts (Z.to_nat (n - 1)) (execute_script_raises e)
                (S (next_handle w))
                (record_cmd CurrentWindowHandle (launch browser (next_handle w))))
    as Hc.
  destruct (open_tabs _ _ _ _) as [[d2 fresh2] opened]. simpl in Hc.
  destruct opened; simpl.
  - destruct (window_handles_raises e); [|done].
    intros Heq c. apply Hd in Heq as <-. simpl.
    rewrite elem_of_app, list_elem_of_singleton. intros [Hin | ->]; [|tauto].
    apply Hc in Hin as [Hin | ->]; [|tauto].
    apply list_elem_of_singleton in Hin. tauto.
  - intros Heq c Hin. apply Hd in Heq as <-.
    apply Hc in Hin as [Hin | ->]; [|tauto].
    apply list_elem_of_singleton in Hin. tauto.
Qed.

(** The exit paths of a creating construction with three tabs, one by one:
    the outcome, the recorded driver afterwards, the commands received by
    each driver of the store, and the queues. *)
Example construction_exit_paths :
  let run e :=
    (λ x, (snd x, _GLOBAL_DRIVER (fst x), commands <$> drivers (fst x), queues (fst x)))
      (__init__ "firefox" 3 e initial_world) in
  run launching
    = (Returned (Middleware 0 (Some 0) (Some 3%Z) the_GLOBAL_INSTANCE_LOCK), Some 0,
       [[CurrentWindowHandle; ExecuteScriptWindowOpen; ExecuteScriptWindowOpen;
         WindowHandles]],
       [[0; 1; 2]]) ∧
  run (LaunchEnv true false (λ _, false) false)
    = (Raised SessionNotCreatedException, None, [], []) ∧
  run (LaunchEnv false true (λ _, false) false)
    = (Raised (WebDriverException CurrentWindowHandle), None,
       [[CurrentWindowHandle]], [[]]) ∧
  run (LaunchEnv false false (λ i, bool_decide (i = 1)) false)
    = (Raised (WebDriverException ExecuteScriptWindowOpen), None,
       [[CurrentWindowHandle; ExecuteScriptWindowOpen; ExecuteScriptWindowOpen]],
       [[0]]) ∧
  run (LaunchEnv false false (λ _, false) true)
    = (Raised (WebDriverException WindowHandles), None,
       [[CurrentWindowHandle; ExecuteScriptWindowOpen; ExecuteScriptWindowOpen;
         WindowHandles]],
       [[0]]).
Proof. vm_compute. done. Qed.

(** Whatever its outcome, a construction leaves the instance lock alone and
    at most appends to the store. *)
Lemma init_extends browser n e w :
  _GLOBAL_INSTANCE_LOCK (fst (__init__ browser n e w)) = _GLOBAL_INSTANCE_LOCK w ∧
  ∃ ds, drivers (fst (__init__ browser n e w)) = drivers w ++ ds.
Proof.
  destruct (_GLOBAL_DRIVER w) as [d|] eqn:HG.
  { rewrite (init_reuses browser n e w d HG). split; [done|].
    exists []. by rewrite app_nil_r. }
  destruct (init_cases browser n e w HG)
    as [[Hg _] | [(x & ->) | (x & d & pool & j & -> & _)]].
  - destruct (init_creates browser n e w HG Hg) as (d & _ & _ & _ & ->).
    split; [done|]. by exists [d].
  - split; [done|]. exists []. by rewrite app_nil_r.
  - split; [done|]. by exists [d].
Qed.

(** C6. When [__init__] creates the session with [max_tabs = n >= 1] and the
    browser answers: it records the initially open tab, opens [n - 1]
    further tabs, enumerates the driver's window handles, and the queue it
    stores as the tab pool then holds exactly [n] tab identifiers, all
    distinct (they are the driver's window handles). *)
Theorem pool_has_n_distinct_tabs browser n e w :
  _GLOBAL_DRIVER w = None →
  (1 ≤ n)%Z →
  goes_through n e = true →
  ∃ w' m q pool d,
    __init__ browser n e w = (w', Returned m) ∧
    tab_pool m = Some q ∧
    _GLOBAL_TAB_POOL w' = Some q ∧
    queues w' !! q = Some pool ∧
    drivers w' !! driver_of m = Some d ∧
    pool = window_handles d ∧
    Z.of_nat (length pool) = n ∧
    NoDup pool.
Proof.
  intros HG Hn He.
  destruct (init_creates browser n e w HG He) as (d & Hh & _ & _ & ->).
  eexists _, _, (length (queues w)), (window_handles d), d.
  split; [reflexivity|]. simpl.
  rewrite !list_lookup_middle by done.
  repeat split; try done.
  - rewrite Hh, length_seq. lia.
  - rewrite Hh. apply NoDup_seq.
Qed.

Lemma pool_has_n_distinct_tabs_witness :
  ∃ w' m q pool d,
    __init__ "firefox" 3 launching initial_world = (w', Returned m) ∧
    tab_pool m = Some q ∧
    _GLOBAL_TAB_POOL w' = Some q ∧
    queues w' !! q = Some pool ∧
    drivers w' !! driver_of m = Some d ∧
    pool = window_handles d ∧
    Z.of_nat (length pool) = 3%Z ∧
    NoDup pool.
Proof.
  apply (pool_has_n_distinct_tabs "firefox" 3 launching initial_world);
    [reflexivity | lia | reflexivity].
Defined.

(** Outside the range of C6: with [max_tabs <= 0] the loop body never runs
    and the pool still holds the main tab. *)
Example pool_of_zero_tabs :
  queues (fst (__init__ "firefox" 0 launching initial_world)) = [[0]].
Proof. reflexivity. Qed.

(** C5. A construction made while [_GLOBAL_DRIVER] is set ignores its
    [browser] and [max_tabs] arguments and asks nothing of the browser: it
    returns, leaves the whole process state (driver, tab pool, tab count,
    store) unchanged, and the instance it returns refers to the existing
    driver and pool and carries the recorded tab count. *)
Theorem reuse_ignores_arguments browser n e w d :
  _GLOBAL_DRIVER w = Some d →
  ∃ m,
    __init__ browser n e w = (w, Returned m) ∧
    driver_of m = d ∧
    tab_pool m = _GLOBAL_TAB_POOL w ∧
    max_tabs m = _GLOBAL_MAX_TABS w ∧
    ∀ browser' n' e', __init__ browser' n' e' w = __init__ browser n e w.
Proof.
  intros HG. rewrite (init_reuses browser n e w d HG).
  eexists. split; [reflexivity|]. simpl.
  repeat split; try done.
  intros browser' n' e'. apply (init_reuses browser' n' e' w d HG).
Qed.

Lemma reuse_ignores_arguments_witness :
  let w := fst (__init__ "firefox" 4 launching initial_world) in
  ∃ m,
    __init__ "chrome" 8 launching w = (w, Returned m) ∧
    driver_of m = 0 ∧
    tab_pool m = _GLOBAL_TAB_POOL w ∧
    max_tabs m = _GLOBAL_MAX_TABS w ∧
    ∀ browser' n' e', __init__ browser' n' e' w = __init__ "chrome" 8 launching w.
Proof.
  apply (reuse_ignores_arguments "chrome" 8 launching
           (fst (__init__ "firefox" 4 launching initial_world)) 0).
  reflexivity.
Defined.

(** The scenario of the specification: 4 tabs asked first, 8 asked second;
    the session still has 4 tabs. *)
Example second_tab_count_ignored :
  ∃ w1 m1 w2 m2,
    __init__ "firefox" 4 launching initial_world = (w1, Returned m1) ∧
    __init__ "firefox" 8 launching w1 = (w2, Returned m2) ∧
    m2 = m1 ∧ max_tabs m2 = Some 4%Z ∧ queues w2 = [[0; 1; 2; 3]] ∧
    length (drivers w2) = 1.
Proof. eexists _, _, _, _. vm_compute. done. Qed.

(** ** Driver commands leave the pools and the globals alone *)

Lemma send_found d c r w dr :
  drivers w !! d = Some dr →
  send d c r w = (set_drivers (<[d := fst (issue c r dr)]> (drivers w)) w,
                  accepts c r dr).
Proof. intros H. unfold send. rewrite H. done. Qed.

Lemma send_frame d c r w :
  let w' := fst (send d c r w) in
  queues w' = queues w ∧
  tabs w' = tabs w ∧
  _GLOBAL_DRIVER w' = _GLOBAL_DRIVER w ∧
  _GLOBAL_TAB_POOL w' = _GLOBAL_TAB_POOL w ∧
  _GLOBAL_MAX_TABS w' = _GLOBAL_MAX_TABS w ∧
  _GLOBAL_INSTANCE_LOCK w' = _GLOBAL_INSTANCE_LOCK w ∧
  next_handle w' = next_handle w.
Proof.
  unfold send. destruct (drivers w !! d) as [dr|] eqn:Hd; simpl; [|done].
  repeat split; try done.
  unfold tabs. simpl. rewrite list_fmap_insert. simpl.
  apply list_insert_id. rewrite list_lookup_fmap, Hd. done.
Qed.

(** ** Every exit path of [process_request] goes through [finally] *)

Lemma run_thread_unfold fuel e w t x :
  (∀ r, at_ t ≠ finished r) →
  thread_step e w t = Some x →
  run_thread (S fuel) e w t = run_thread fuel e x.1 x.2.
Proof.
  intros Hn Hs. cbn [run_thread]. rewrite Hs. destruct x as [w' t'].
  destruct (at_ t); try done. by destruct (Hn result).
Qed.

Lemma run_thread_finished fuel e w m u r :
  run_thread fuel e w (Thread m u (finished r)) = Some (w, r).
Proof. destruct fuel; done. Qed.

(** The first step of a call that finds a tab in its pool. *)
Lemma process_request_get m u e w q h rest :
  tab_pool m = Some q →
  queues w !! q = Some (h :: rest) →
  process_request m u e w =
    run_thread 8 e (set_queues (<[q := rest]> (queues w)) w)
               (Thread m u (at_lock h)).
Proof.
  intros Hq Hpool. unfold process_request.
  erewrite run_thread_unfold; cycle 1.
  - done.
  - cbn [thread_step at_ self]. rewrite Hq. unfold Queue_get. rewrite Hpool.
    reflexivity.
  - done.
Qed.

(** From any point where a tab is held, whatever the browser does, the call
    runs to its end and its last action appends the tab to its pool. *)
Lemma run_from_held fuel : ∀ p h m u e w q,
  held_tab p = Some h →
  tab_pool m = Some q →
  steps_left p ≤ fuel →
  (∀ h', p = at_lock h' → _GLOBAL_INSTANCE_LOCK w = false) →
  ∃ w' r, run_thread fuel e w (Thread m u p) = Some (w', r) ∧
          queues w' = alter (λ l, l ++ [h]) q (queues w).
Proof.
  induction fuel as [|fuel IH]; intros p h m u e w q Hh Hq Hf Hl.
  { destruct p; simpl in *; try lia; discriminate. }
  assert (Hcmd : ∀ c r next,
            held_tab next = Some h → steps_left next ≤ fuel → 3 ≤ fuel →
            (∀ h', next ≠ at_lock h') →
            ∃ w' res,
              (let '(w1, t1) := command c r h next w (Thread m u p) in
               run_thread fuel e w1 t1) = Some (w', res) ∧
              queues w' = alter (λ l, l ++ [h]) q (queues w)).
  { intros c r next Hn Hs H3 Hnl. unfold command.
    pose proof (send_frame (driver_of m) c r w) as (Hqs & _). simpl in *.
    destruct (send (driver_of m) c r w) as [w1 ok]. simpl in Hqs.
    rewrite <- Hqs. unfold goto. simpl.
    destruct ok; apply IH; simpl; try done.
    intros h' ->. by destruct (Hnl h'). }
  destruct p; simpl in Hh, Hf; try discriminate; simplify_eq;
    cbn [run_thread at_ thread_step self request_url].
  - rewrite (Hl h eq_refl). unfold goto. simpl.
    apply (IH (at_switch h) h m u e (set_lock true w) q); simpl; try done; lia.
  - apply Hcmd; simpl; try done; lia.
  - apply Hcmd; simpl; try done; lia.
  - apply Hcmd; simpl; try done; lia.
  - apply Hcmd; simpl; try done; lia.
  - unfold goto. simpl. destruct pending as [[b cu]|x].
    + apply (IH (at_response h b cu) h m u e (set_lock false w) q);
        simpl; try done; lia.
    + apply (IH (at_finally h (Raised x)) h m u e (set_lock false w) q);
        simpl; try done; lia.
  - unfold goto. simpl. apply IH; simpl; try done; lia.
  - rewrite Hq. unfold goto. simpl.
    exists (Queue_put q h w), pending. split; [|done].
    destruct fuel; done.
Qed.

(** A call run alone that finds a tab in its pool and the lock free runs to
    its end whatever the browser does, and the tab is then at the back of
    the queue; the other queues are untouched. *)
Lemma lone_call_returns_tab m u e w q h rest :
  tab_pool m = Some q →
  queues w !! q = Some (h :: rest) →
  _GLOBAL_INSTANCE_LOCK w = false →
  ∃ w' r, process_request m u e w = Some (w', r) ∧
          queues w' !! q = Some (rest ++ [h]) ∧
          queues w' = <[q := rest ++ [h]]> (queues w).
Proof.
  intros Hq Hpool Hlock. rewrite (process_request_get m u e w q h rest Hq Hpool).
  assert (Hrun := run_from_held 8 (at_lock h) h m u e
                    (set_queues (<[q := rest]> (queues w)) w) q
                    eq_refl Hq (le_n 8) (λ _ _, Hlock)).
  destruct Hrun as (w' & r & Hr & Hqs).
  exists w', r. split; [exact Hr|].
  cbn [queues set_queues] in Hqs.
  assert (Hlt : q < length (queues w)) by (eapply lookup_lt_Some; done).
  rewrite Hqs. split.
  - rewrite list_lookup_alter_eq, list_lookup_insert_eq by done. done.
  - apply list_eq. intros i. destruct (decide (i = q)) as [->|Hne].
    + rewrite list_lookup_alter_eq, !list_lookup_insert_eq by done. done.
    + rewrite list_lookup_alter_ne, !list_lookup_insert_ne by done. done.
Qed.

(** The exit paths, one by one, on a session with two tabs: the pool is
    [[1; 0]] after each of them. *)
Example exit_paths :
  ∃ w m, __init__ "firefox" 2 launching initial_world = (w, Returned m) ∧
  let run e := (λ x, (queues (fst x), snd x)) <$> process_request m "http://host/a" e w in
  run (Env false false false false "<html/>" "http://host/b")
    = Some ([[1; 0]], Returned (Response "http://host/b" "<html/>" 0 0)) ∧
  run (Env true false false false "" "")
    = Some ([[1; 0]], Raised (WebDriverException (SwitchToWindow 0))) ∧
  run (Env false true false false "" "")
    = Some ([[1; 0]], Raised (WebDriverException (Get "http://host/a"))) ∧
  run (Env false false true false "" "")
    = Some ([[1; 0]], Raised (WebDriverException PageSource)) ∧
  run (Env false false false true "" "")
    = Some ([[1; 0]], Raised (WebDriverException CurrentUrl)).
Proof. eexists _, _. split; [reflexivity|]. vm_compute. done. Qed.

(** The same fact one step at a time, hence under any interleaving with
    other threads: the step that completes a call holding tab [h], by return
    or by exception, is the [put] of [h] on the call's pool. *)
Lemma completion_puts_tab_back e w t w' t' q h r :
  thread_step e w t = Some (w', t') →
  tab_pool (self t) = Some q →
  held_tab (at_ t) = Some h →
  at_ t' = finished r →
  at_ t = at_finally h r ∧ w' = Queue_put q h w.
Proof.
  destruct t as [m u p]. unfold thread_step, command.
  cbn [at_ self request_url].
  destruct p as [|h0|h0|h0|h0|h0 b|h0 pend|h0 b cu|h0 pend|r0]; intros Hs Hq Hh Hr;
    repeat match type of Hs with
           | context [match ?x with _ => _ end] => destruct x eqn:?
           end; simplify_eq; simpl in *; simplify_eq; done.
Qed.

(** ** Teardown *)

Lemma spider_closed_returns quit_raises w :
  snd (spider_closed quit_raises w) = Returned tt.
Proof.
  unfold spider_closed. destruct (_GLOBAL_DRIVER w); [|done].
  destruct (send _ _ _ _) as [w1 []]; done.
Qed.

Lemma spider_closed_nothing_to_close quit_raises w :
  _GLOBAL_DRIVER w = None → spider_closed quit_raises w = (w, Returned tt).
Proof. intros H. unfold spider_closed. by rewrite H. Qed.

(** [spider_closed] on a live session whose [quit] goes through. *)
Lemma spider_closed_live w d dr :
  _GLOBAL_DRIVER w = Some d →
  drivers w !! d = Some dr →
  session_alive dr = true →
  spider_closed false w =
    (clear_globals (set_drivers (<[d := fst (issue Quit false dr)]> (drivers w)) w),
     Returned tt).
Proof.
  intros HG Hd Ha. unfold spider_closed. rewrite HG, (send_found _ _ _ _ _ Hd).
  unfold accepts. rewrite Ha. done.
Qed.

(** [spider_closed] when [quit] raises: the driver has seen the command, the
    globals stay. *)
Lemma spider_closed_quit_raises w d dr :
  _GLOBAL_DRIVER w = Some d →
  drivers w !! d = Some dr →
  spider_closed true w =
    (set_drivers (<[d := fst (issue Quit true dr)]> (drivers w)) w, Returned tt).
Proof.
  intros HG Hd. unfold spider_closed. rewrite HG, (send_found _ _ _ _ _ Hd).
  unfold accepts. rewrite andb_false_r. done.
Qed.

(** A call on an instance whose session was quit: the switch command is
    sent all the same, the driver raises, the tab goes back. *)
Lemma dispatch_on_quit_session m u e w q h rest dr :
  tab_pool m = Some q →
  queues w !! q = Some (h :: rest) →
  _GLOBAL_INSTANCE_LOCK w = false →
  drivers w !! driver_of m = Some dr →
  session_alive dr = false →
  ∃ w', process_request m u e w
          = Some (w', Raised (WebDriverException (SwitchToWindow h))) ∧
        drivers w' !! driver_of m = Some (record_cmd (SwitchToWindow h) dr) ∧
        queues w' !! q = Some (rest ++ [h]).
Proof.
  intros Hq Hpool Hlock Hd Ha.
  assert (Hlt : q < length (queues w)) by (eapply lookup_lt_Some; done).
  assert (Hltd : driver_of m < length (drivers w)) by (eapply lookup_lt_Some; done).
  rewrite (process_request_get m u e w q h rest Hq Hpool).
  erewrite run_thread_unfold; cycle 1.
  { done. }
  { cbn [thread_step at_ set_queues _GLOBAL_INSTANCE_LOCK]. rewrite Hlock.
    reflexivity. }
  erewrite run_thread_unfold; cycle 1.
  { done. }
  { cbn [thread_step at_ fst snd goto self request_url]. unfold command.
    erewrite send_found by exact Hd.
    unfold accepts. rewrite Ha. reflexivity. }
  erewrite run_thread_unfold; cycle 1.
  { done. }
  { reflexivity. }
  erewrite run_thread_unfold; cycle 1.
  { done. }
  { cbn [thread_step at_ fst snd goto self request_url]. rewrite Hq. reflexivity. }
  cbn [fst snd]. unfold goto. rewrite run_thread_finished.
  eexists. split; [reflexivity|]. cbn. split.
  - rewrite list_lookup_insert_eq by done. unfold record_cmd, accepts.
    rewrite Ha. done.
  - rewrite list_lookup_alter_eq, list_lookup_insert_eq by done. done.
Qed.

(** C9, as the code has it.  A [spider_closed] call made while a live
    session is recorded returns without raising.  If the driver's [quit]
    goes through, the driver session is terminated and the three globals
    (driver, tab pool, tab count) are back to [None].  If [quit] raises, the
    [except Exception] clause swallows the error and the three globals are
    left as they were. *)
Theorem release_clears_state_unless_quit_raises quit_raises w d dr :
  _GLOBAL_DRIVER w = Some d →
  drivers w !! d = Some dr →
  session_alive dr = true →
  ∃ w', spider_closed quit_raises w = (w', Returned tt) ∧
        (quit_raises = false →
           _GLOBAL_DRIVER w' = None ∧ _GLOBAL_TAB_POOL w' = None ∧
           _GLOBAL_MAX_TABS w' = None ∧
           session_alive <$> drivers w' !! d = Some false) ∧
        (quit_raises = true →
           _GLOBAL_DRIVER w' = Some d ∧
           _GLOBAL_TAB_POOL w' = _GLOBAL_TAB_POOL w ∧
           _GLOBAL_MAX_TABS w' = _GLOBAL_MAX_TABS w ∧
           session_alive <$> drivers w' !! d = Some true).
Proof.
  intros HG Hd Ha.
  assert (Hlt : d < length (drivers w)) by (eapply lookup_lt_Some; done).
  destruct quit_raises.
  - rewrite (spider_closed_quit_raises w d dr HG Hd). eexists. split; [done|].
    split; [done|]. intros _. cbn.
    rewrite list_lookup_insert_eq by done. cbn.
    unfold accepts. rewrite Ha. done.
  - rewrite (spider_closed_live w d dr HG Hd Ha). eexists. split; [done|].
    split; [|done]. intros _. cbn.
    rewrite list_lookup_insert_eq by done. cbn.
    unfold accepts. rewrite Ha. done.
Qed.

Lemma release_clears_state_unless_quit_raises_witness :
  let w := fst (__init__ "firefox" 4 launching initial_world) in
  ∃ w', spider_closed false w = (w', Returned tt) ∧
        (false = false →
           _GLOBAL_DRIVER w' = None ∧ _GLOBAL_TAB_POOL w' = None ∧
           _GLOBAL_MAX_TABS w' = None ∧
           session_alive <$> drivers w' !! 0 = Some false) ∧
        (false = true →
           _GLOBAL_DRIVER w' = Some 0 ∧
           _GLOBAL_TAB_POOL w' = _GLOBAL_TAB_POOL w ∧
           _GLOBAL_MAX_TABS w' = _GLOBAL_MAX_TABS w ∧
           session_alive <$> drivers w' !! 0 = Some true).
Proof.
  apply (release_clears_state_unless_quit_raises false
           (fst (__init__ "firefox" 4 launching initial_world)) 0
           (Driver Firefox [0; 1; 2; 3] 0 true
              [CurrentWindowHandle; ExecuteScriptWindowOpen;
               ExecuteScriptWindowOpen; ExecuteScriptWindowOpen; WindowHandles]));
    reflexivity.
Defined.

(** C9 fails as stated: a session with 4 tabs is live, [quit] raises inside
    [spider_closed]; the call returns and the globals are still set. *)
Lemma release_with_failing_quit_keeps_state :
  let w := fst (__init__ "firefox" 4 launching initial_world) in
  let w' := fst (spider_closed true w) in
  _GLOBAL_DRIVER w = Some 0 ∧
  session_alive <$> drivers w !! 0 = Some true ∧
  snd (spider_closed true w) = Returned tt ∧
  _GLOBAL_DRIVER w' = Some 0 ∧
  _GLOBAL_TAB_POOL w' = Some 0 ∧
  _GLOBAL_MAX_TABS w' = Some 4%Z ∧
  session_alive <$> drivers w' !! 0 = Some true.
Proof. vm_compute. done. Qed.

(** C8, as the code has it.  A session can be created again after it was
    destroyed: once [spider_closed] has torn the session down (its [quit]
    went through), the globals are [None], and the next construction in the
    same process, the browser answering, launches a new driver and builds a
    new pool, which become the recorded session; the old driver stays
    quit. *)
Theorem construction_after_release_creates_session browser n e w d dr :
  _GLOBAL_DRIVER w = Some d →
  drivers w !! d = Some dr →
  session_alive dr = true →
  goes_through n e = true →
  let w1 := fst (spider_closed false w) in
  ∃ w2 m,
    __init__ browser n e w1 = (w2, Returned m) ∧
    _GLOBAL_DRIVER w1 = None ∧
    _GLOBAL_TAB_POOL w1 = None ∧
    _GLOBAL_MAX_TABS w1 = None ∧
    length (drivers w2) = S (length (drivers w)) ∧
    length (queues w2) = S (length (queues w)) ∧
    driver_of m = length (drivers w) ∧
    driver_of m ≠ d ∧
    tab_pool m = Some (length (queues w)) ∧
    _GLOBAL_DRIVER w2 = Some (driver_of m) ∧
    _GLOBAL_TAB_POOL w2 = tab_pool m ∧
    _GLOBAL_MAX_TABS w2 = Some n ∧
    session_alive <$> drivers w2 !! driver_of m = Some true ∧
    session_alive <$> drivers w2 !! d = Some false.
Proof.
  intros HG Hd Ha He.
  assert (Hlt : d < length (drivers w)) by (eapply lookup_lt_Some; done).
  rewrite (spider_closed_live w d dr HG Hd Ha). cbv zeta. cbn [fst].
  set (w1 := clear_globals _).
  assert (HG1 : _GLOBAL_DRIVER w1 = None) by done.
  assert (HP1 : _GLOBAL_TAB_POOL w1 = None) by done.
  assert (HM1 : _GLOBAL_MAX_TABS w1 = None) by done.
  assert (Hds : length (drivers w1) = length (drivers w))
    by (subst w1; cbn; by rewrite length_insert).
  assert (Hqs : queues w1 = queues w) by done.
  assert (Hd1 : session_alive <$> drivers w1 !! d = Some false).
  { subst w1. cbn. rewrite list_lookup_insert_eq by done. cbn.
    unfold accepts. by rewrite Ha. }
  clearbody w1.
  destruct (init_creates browser n e w1 HG1 He) as (d' & _ & Ha' & _ & ->).
  eexists _, _. split; [reflexivity|].
  cbn. rewrite !length_app, Hds, Hqs. cbn.
  repeat split; try done; try lia.
  - rewrite <- Hds, list_lookup_middle by done. cbn. by rewrite Ha'.
  - rewrite lookup_app_l by lia. done.
Qed.

Lemma construction_after_release_creates_session_witness :
  let w := fst (__init__ "firefox" 2 launching initial_world) in
  let w1 := fst (spider_closed false w) in
  ∃ w2 m,
    __init__ "chrome" 3 launching w1 = (w2, Returned m) ∧
    _GLOBAL_DRIVER w1 = None ∧
    _GLOBAL_TAB_POOL w1 = None ∧
    _GLOBAL_MAX_TABS w1 = None ∧
    length (drivers w2) = S (length (drivers w)) ∧
    length (queues w2) = S (length (queues w)) ∧
    driver_of m = length (drivers w) ∧
    driver_of m ≠ 0 ∧
    tab_pool m = Some (length (queues w)) ∧
    _GLOBAL_DRIVER w2 = Some (driver_of m) ∧
    _GLOBAL_TAB_POOL w2 = tab_pool m ∧
    _GLOBAL_MAX_TABS w2 = Some 3%Z ∧
    session_alive <$> drivers w2 !! driver_of m = Some true ∧
    session_alive <$> drivers w2 !! 0 = Some false.
Proof.
  apply (construction_after_release_creates_session "chrome" 3 launching
           (fst (__init__ "firefox" 2 launching initial_world)) 0
           (Driver Firefox [0; 1] 0 true
              [CurrentWindowHandle; ExecuteScriptWindowOpen; WindowHandles]));
    reflexivity.
Defined.

(** C8 fails as stated: construct, close, construct again in one process.
    The second construction launches a second driver and returns an instance
    on a different driver and a different pool. *)
Lemma session_recreated_after_release :
  ∃ w1 m1 w3 m2,
    __init__ "firefox" 2 launching initial_world = (w1, Returned m1) ∧
    let w2 := fst (spider_closed false w1) in
    __init__ "firefox" 2 launching w2 = (w3, Returned m2) ∧
    length (drivers w1) = 1 ∧
    _GLOBAL_DRIVER w2 = None ∧
    length (drivers w3) = 2 ∧
    driver_of m1 = 0 ∧ driver_of m2 = 1 ∧
    tab_pool m1 = Some 0 ∧ tab_pool m2 = Some 1 ∧
    session_alive <$> drivers w3 = [false; true].
Proof. eexists _, _, _, _. split; [reflexivity|]. vm_compute. done. Qed.

(** C7, as the code has it.  On a live session: two [spider_closed] calls
    in a row do not raise, whatever [quit] does; when the [quit] of the
    first goes through, a second [spider_closed]
    right after it changes nothing.  A [process_request]
    made afterwards on an instance of the closed session does not fail fast:
    it takes a tab from the instance's pool, sends the switch command to the
    driver that was quit, the driver's exception propagates, and the tab is
    put back. *)
Theorem release_twice_then_dispatch w d dr m q h rest quit_raises u e :
  _GLOBAL_DRIVER w = Some d →
  drivers w !! d = Some dr →
  session_alive dr = true →
  driver_of m = d →
  tab_pool m = Some q →
  queues w !! q = Some (h :: rest) →
  _GLOBAL_INSTANCE_LOCK w = false →
  let w1 := fst (spider_closed false w) in
  (∀ qr1 qr2,
     snd (spider_closed qr1 w) = Returned tt ∧
     snd (spider_closed qr2 (fst (spider_closed qr1 w))) = Returned tt) ∧
  snd (spider_closed false w) = Returned tt ∧
  spider_closed quit_raises w1 = (w1, Returned tt) ∧
  ∃ w2, process_request m u e w1
          = Some (w2, Raised (WebDriverException (SwitchToWindow h))) ∧
        commands <$> drivers w2 !! d
          = Some (commands dr ++ [Quit; SwitchToWindow h]) ∧
        queues w2 !! q = Some (rest ++ [h]).
Proof.
  intros HG Hd Ha Hm Hq Hpool Hlock.
  assert (Hlt : d < length (drivers w)) by (eapply lookup_lt_Some; done).
  cbv zeta. split.
  { intros qr1 qr2. split; apply spider_closed_returns. }
  rewrite (spider_closed_live w d dr HG Hd Ha). cbn [fst snd].
  set (w1 := clear_globals _).
  split; [done|]. split.
  { by apply spider_closed_nothing_to_close. }
  destruct (dispatch_on_quit_session m u e w1 q h rest (fst (issue Quit false dr)))
    as (w2 & Hrun & Hdr & Hqueue); try done.
  { rewrite Hm. subst w1. cbn. by rewrite list_lookup_insert_eq. }
  { cbn. unfold accepts. by rewrite Ha. }
  exists w2. split; [done|]. split; [|done].
  rewrite <- Hm, Hdr. cbn. by rewrite <- app_assoc.
Qed.

Lemma release_twice_then_dispatch_witness :
  let w := fst (__init__ "firefox" 2 launching initial_world) in
  let m := Middleware 0 (Some 0) (Some 2%Z) the_GLOBAL_INSTANCE_LOCK in
  let w1 := fst (spider_closed false w) in
  (∀ qr1 qr2,
     snd (spider_closed qr1 w) = Returned tt ∧
     snd (spider_closed qr2 (fst (spider_closed qr1 w))) = Returned tt) ∧
  snd (spider_closed false w) = Returned tt ∧
  spider_closed false w1 = (w1, Returned tt) ∧
  ∃ w2, process_request m "http://host/a" (answering "<html/>" "http://host/a") w1
          = Some (w2, Raised (WebDriverException (SwitchToWindow 0))) ∧
        commands <$> drivers w2 !! 0
          = Some ([CurrentWindowHandle; ExecuteScriptWindowOpen; WindowHandles]
                  ++ [Quit; SwitchToWindow 0]) ∧
        queues w2 !! 0 = Some ([1] ++ [0]).
Proof.
  apply (release_twice_then_dispatch
           (fst (__init__ "firefox" 2 launching initial_world)) 0
           (Driver Firefox [0; 1] 0 true
              [CurrentWindowHandle; ExecuteScriptWindowOpen; WindowHandles])
           (Middleware 0 (Some 0) (Some 2%Z) the_GLOBAL_INSTANCE_LOCK) 0 0 [1] false
           "http://host/a" (answering "<html/>" "http://host/a"));
    reflexivity.
Defined.

(** C7 fails as stated: after two [spider_closed] calls, a
    [process_request] on the instance built before them does not fail fast
    with a session-closed error.  It takes tab 0 from the pool, sends
    [SwitchToWindow 0] to the driver after its [Quit], and what it raises is
    the driver's exception. *)
Lemma dispatch_after_release_uses_quit_driver :
  ∃ w1 m,
  __init__ "firefox" 2 launching initial_world = (w1, Returned m) ∧
  let w2 := fst (spider_closed false w1) in
  let w3 := fst (spider_closed false w2) in
  _GLOBAL_DRIVER w3 = None ∧
  (λ x, (commands <$> drivers (fst x), queues (fst x), snd x))
    <$> process_request m "http://host/a" (answering "<html/>" "http://host/a") w3
  = Some ([[CurrentWindowHandle; ExecuteScriptWindowOpen; WindowHandles;
            Quit; SwitchToWindow 0]],
          [[1; 0]],
          Raised (WebDriverException (SwitchToWindow 0))).
Proof. eexists _, _. split; [reflexivity|]. vm_compute. done. Qed.

(** ** Schedules *)

Lemma run_invariant (ok : label → bool) (P : system → Prop) :
  (∀ l s s', ok l = true → P s → exec l s = Some s' → P s') →
  ∀ ls s s', forallb ok ls = true → P s → run ls s = Some s' → P s'.
Proof.
  intros Hstep ls. induction ls as [|l ls IH]; intros s s' Hok HP Hrun; simpl in *.
  - by simplify_eq.
  - apply andb_prop in Hok as [Hl Hls].
    destruct (exec l s) as [s1|] eqn:He; [|done].
    eapply IH; [done | | done]. eapply Hstep; done.
Qed.

Lemma reachable_invariant (P : system → Prop) :
  P initial_system →
  (∀ l s s', P s → exec l s = Some s' → P s') →
  ∀ s, reachable s → P s.
Proof.
  intros H0 Hstep s [ls Hrun].
  apply (run_invariant (λ _, true) P) with ls initial_system; [| |done..].
  - intros l s1 s2 _. apply Hstep.
  - by apply forallb_forall.
Qed.

(** ** What one step of [process_request] does to the process *)

Lemma thread_step_spec e w t w' t' :
  thread_step e w t = Some (w', t') →
  self t' = self t ∧
  same_session w w' ∧
  length (queues w') = length (queues w) ∧
  ((queues w' = queues w ∧
    (held_tab (at_ t') = held_tab (at_ t) ∨ tab_pool (self t) = None)) ∨
   (∃ q h rest,
       tab_pool (self t) = Some q ∧
       held_tab (at_ t) = None ∧ held_tab (at_ t') = Some h ∧
       queues w !! q = Some (h :: rest) ∧
       queues w' = <[q := rest]> (queues w)) ∨
   (∃ q h,
       tab_pool (self t) = Some q ∧
       held_tab (at_ t) = Some h ∧ held_tab (at_ t') = None ∧
       queues w' = alter (λ l, l ++ [h]) q (queues w))).
Proof.
  assert (Hcmd : ∀ c r h next m u p w1 t1,
            held_tab next = Some h →
            command c r h next w (Thread m u p) = (w1, t1) →
            self t1 = m ∧ same_session w w1 ∧
            length (queues w1) = length (queues w) ∧ queues w1 = queues w ∧
            held_tab (at_ t1) = Some h).
  { intros c r h next m u p w1 t1 Hn. unfold command. simpl.
    pose proof (send_frame (driver_of m) c r w) as Hf.
    destruct (send (driver_of m) c r w) as [w2 ok]. simpl in Hf.
    intros [= <- <-]. unfold same_session. simpl.
    destruct Hf as (-> & ? & ? & ? & ? & ? & ?).
    destruct ok; done. }
  destruct t as [m u p]. unfold thread_step. cbn [at_ self request_url].
  destruct p as [|h|h|h|h|h b|h pend|h b cu|h pend|r]; intros Hs.
  - destruct (tab_pool m) as [q|] eqn:Hq.
    + unfold Queue_get in Hs.
      destruct (queues w !! q) as [[|h rest]|] eqn:Hpool; simplify_eq. simpl.
      split; [done|]. split; [done|]. split; [by rewrite length_insert|].
      right. left. exists q, h, rest. done.
    + simplify_eq. simpl. repeat split; try done. left. split; [done|by right].
  - destruct (_GLOBAL_INSTANCE_LOCK w); simplify_eq. simpl.
    repeat split; try done. left. split; [done|by left].
  - injection Hs as Hs. apply Hcmd in Hs as (? & ? & ? & ? & ?); [|done].
    do 3 (split; [done|]). left. split; [done|by left].
  - injection Hs as Hs. apply Hcmd in Hs as (? & ? & ? & ? & ?); [|done].
    do 3 (split; [done|]). left. split; [done|by left].
  - injection Hs as Hs. apply Hcmd in Hs as (? & ? & ? & ? & ?); [|done].
    do 3 (split; [done|]). left. split; [done|by left].
  - injection Hs as Hs. apply Hcmd in Hs as (? & ? & ? & ? & ?); [|done].
    do 3 (split; [done|]). left. split; [done|by left].
  - simplify_eq. simpl. repeat split; try done. left.
    split; [done|]. left. by destruct pend as [[??]|?].
  - simplify_eq. simpl. repeat split; try done. left. split; [done|by left].
  - destruct (tab_pool m) as [q|] eqn:Hq; simplify_eq; simpl.
    + split; [done|]. split; [done|]. split; [by rewrite length_alter|].
      right. right. exists q, h. done.
    + repeat split; try done. left. split; [done|by right].
  - done.
Qed.

(** ** The recorded session as long as nobody closes *)

Lemma same_session_drivers w w' :
  same_session w w' → length (drivers w') = length (drivers w).
Proof.
  intros (Ht & _). unfold tabs in Ht.
  by rewrite <- (length_fmap window_handles (drivers w')), Ht, length_fmap.
Qed.

Lemma one_session_step l s s' :
  negb (is_Close l) = true → one_session s → exec l s = Some s' → one_session s'.
Proof.
  intros Hl Hone He. unfold one_session in *. destruct Hone as [Hlen Hone].
  destruct l as [b n e|qr|i u|tid e]; simpl in *; [|done|..].
  - destruct (instances s) as [|m0 rest] eqn:Hi.
    + destruct (init_cases b n e (sys_world s) Hone)
        as [[Hg _] | [(x & Hx) | (x & d & pool & j & Hx & _)]].
      * destruct (init_creates b n e _ Hone Hg) as (d & _ & _ & _ & Hinit).
        rewrite Hinit in He. simplify_eq. simpl.
        rewrite !length_app, Hlen. simpl.
        repeat split; try done; lia.
      * rewrite Hx in He. by simplify_eq.
      * rewrite Hx in He. simplify_eq. simpl.
        rewrite !length_app, Hlen. done.
    + destruct Hone as (HG & HP & HM & Hds & Hq & Hall).
      rewrite (init_reuses b n e _ _ HG) in He. simplify_eq. simpl.
      repeat split; try done.
      apply Forall_app. split; [done|]. constructor; [|done].
      rewrite HP, HM. by destruct m0 as [? ? ? []].
  - destruct (instances s !! i); simplify_eq. done.
  - destruct (threads s !! tid) as [t|]; [|done].
    destruct (thread_step e (sys_world s) t) as [[w' t']|] eqn:Hs; simplify_eq.
    apply thread_step_spec in Hs as (_ & Hsame & Hql & _). simpl.
    pose proof (same_session_drivers _ _ Hsame) as Hd.
    destruct Hsame as (_ & HG & HP & HM & _). rewrite HG, HP, HM, Hd, Hql.
    done.
Qed.

Lemma one_session_run ls s :
  no_Close ls = true → run ls initial_system = Some s → one_session s.
Proof.
  intros Hnc Hrun.
  apply (run_invariant (λ l, negb (is_Close l)) one_session)
    with ls initial_system; [|done| |done].
  - apply one_session_step.
  - done.
Qed.

(** A step of a schedule without [spider_closed] in which every
    construction meets a browser that answers. *)
Lemma answered_step l s s' :
  negb (is_Close l) = true → answered l = true →
  one_session s → nothing_left_behind s → exec l s = Some s' →
  nothing_left_behind s' ∧
  length (instances s') = length (instances s) + (if is_Construct l then 1 else 0).
Proof.
  intros Hl Ha Hone Hn He. unfold one_session, nothing_left_behind in *.
  destruct Hone as [Hlen Hone].
  destruct l as [b n e|qr|i u|tid e]; simpl in *; [|done|..].
  - destruct (instances s) as [|m0 rest] eqn:Hi.
    + destruct (init_creates b n e _ Hone Ha) as (d & _ & _ & _ & Hinit).
      rewrite Hinit in He. simplify_eq. simpl.
      destruct Hn as [-> ->]. done.
    + destruct Hone as (HG & _).
      rewrite (init_reuses b n e _ _ HG) in He. simplify_eq. simpl.
      rewrite length_app. simpl. split; [done|lia].
  - destruct (instances s !! i); simplify_eq. simpl. split; [done|lia].
  - destruct (threads s !! tid) as [t|]; [|done].
    destruct (thread_step e (sys_world s) t) as [[w' t']|] eqn:Hs; simplify_eq.
    apply thread_step_spec in Hs as (_ & Hsame & Hql & _). simpl.
    pose proof (same_session_drivers _ _ Hsame) as Hd.
    split; [|lia]. destruct (instances s).
    + destruct Hn as [Hds Hqs]. rewrite Hds in Hd. rewrite Hqs in Hql.
      split; by apply nil_length_inv.
    + by rewrite Hd, Hql.
Qed.

Lemma answered_run ls : ∀ s s',
  no_Close ls = true → forallb answered ls = true →
  one_session s → nothing_left_behind s → run ls s = Some s' →
  nothing_left_behind s' ∧
  length (instances s') = length (instances s) + constructions ls.
Proof.
  induction ls as [|l ls IH]; intros s s' Hnc Ha Hone Hn Hrun; simpl in *.
  - simplify_eq. unfold constructions. simpl. split; [done|lia].
  - apply andb_prop in Hnc as [Hl Hnc]. apply andb_prop in Ha as [Hal Ha].
    destruct (exec l s) as [s1|] eqn:He; [|done].
    destruct (answered_step l s s1 Hl Hal Hone Hn He) as [Hn1 Hlen1].
    pose proof (one_session_step l s s1 Hl Hone He) as Hone1.
    destruct (IH s1 s' Hnc Ha Hone1 Hn1 Hrun) as [Hn' Hlen'].
    split; [done|]. rewrite Hlen', Hlen1. unfold constructions. simpl.
    destruct (is_Construct l); simpl; lia.
Qed.

Lemma run_instances ls : ∀ s s',
  run ls s = Some s' →
  length (instances s') ≤ length (instances s) + constructions ls.
Proof.
  induction ls as [|l ls IH]; intros s s' Hrun; simpl in *.
  - simplify_eq. lia.
  - destruct (exec l s) as [s1|] eqn:He; [|done].
    pose proof (IH _ _ Hrun) as Hle. unfold constructions in *. simpl.
    destruct l as [b n e|qr|i u|tid e]; simpl in *.
    + destruct (__init__ b n e (sys_world s)) as [w' [m|x]]; simplify_eq;
        simpl in *; rewrite ?length_app in Hle; simpl in *; lia.
    + simplify_eq. done.
    + destruct (instances s !! i); simplify_eq. done.
    + destruct (threads s !! tid) as [t|]; [|done].
      destruct (thread_step e (sys_world s) t) as [[w' t']|]; simplify_eq. done.
Qed.

(** C1 fails on the code.  A construction whose tab-opening script raises
    (line 154) has by then launched its browser (line 142); the exception
    leaves the constructor with the globals unassigned, and nothing quits
    that browser.  The next construction finds [_GLOBAL_DRIVER] to be [None]
    and launches a second browser.  Two constructor calls in one process,
    no [spider_closed]: two drivers were launched, both are running, the
    second alone is recorded, and the one instance returned is on the
    second. *)
Theorem second_browser_after_failed_construction :
  no_Close construction_retried = true ∧
  __init__ "firefox" 2 failing_script initial_world
    = (World None None None false
             [Driver Firefox [0] 0 true [CurrentWindowHandle; ExecuteScriptWindowOpen]]
             [[0]] 1,
       Raised (WebDriverException ExecuteScriptWindowOpen)) ∧
  ∃ s, run construction_retried initial_system = Some s ∧
       instances s = [Middleware 1 (Some 1) (Some 2%Z) the_GLOBAL_INSTANCE_LOCK] ∧
       _GLOBAL_DRIVER (sys_world s) = Some 1 ∧
       length (drivers (sys_world s)) = 2 ∧
       session_alive <$> drivers (sys_world s) = [true; true] ∧
       commands <$> drivers (sys_world s)
         = [[CurrentWindowHandle; ExecuteScriptWindowOpen];
            [CurrentWindowHandle; ExecuteScriptWindowOpen; WindowHandles]].
Proof.
  split; [reflexivity|]. split; [reflexivity|].
  eexists. split; [vm_compute; reflexivity|]. done.
Qed.

(** X18. What holds of C1 on every schedule without [spider_closed],
    constructions that raise included: every instance a constructor returned
    is equal to the first (same driver, same pool, same lock, same tab
    count), the recorded driver is theirs, and it is the driver launched
    last: the [driver_of] drivers launched before it were left behind by
    constructions that raised.  When every construction of the schedule
    meets a browser that answers, every constructor call returns an
    instance, and exactly one driver was launched and one queue created. *)
Theorem instances_share_the_driver_launched_last ls s :
  no_Close ls = true →
  run ls initial_system = Some s →
  length (instances s) ≤ constructions ls ∧
  (∀ i m m0,
     instances s !! 0 = Some m0 →
     instances s !! i = Some m →
     m = m0 ∧
     lock m = lock m0 ∧
     tab_pool m0 = Some (driver_of m0) ∧
     _GLOBAL_DRIVER (sys_world s) = Some (driver_of m0) ∧
     length (drivers (sys_world s)) = S (driver_of m0)) ∧
  (forallb answered ls = true →
     length (instances s) = constructions ls ∧
     (0 < constructions ls →
        length (drivers (sys_world s)) = 1 ∧ length (queues (sys_world s)) = 1)).
Proof.
  intros Hnc Hrun.
  pose proof (one_session_run ls s Hnc Hrun) as Hone.
  split; [apply (run_instances ls _ _ Hrun)|]. split.
  - unfold one_session in Hone. destruct Hone as [_ Hone].
    intros i m m0 H0 Hm.
    destruct (instances s) as [|m1 rest] eqn:Hi; [done|].
    destruct Hone as (HG & _ & _ & Hds & Hq & Hall).
    injection H0 as <-.
    assert (m = m1) as ->.
    { destruct i as [|i]; simpl in Hm; [by simplify_eq|].
      rewrite Forall_lookup in Hall. by rewrite (Hall i m Hm). }
    done.
  - intros Ha.
    destruct (answered_run ls initial_system s Hnc Ha) as [Hn Hlen]; try done.
    simpl in Hlen. split; [done|]. intros Hpos.
    unfold nothing_left_behind in Hn.
    destruct (instances s); [simpl in Hlen; lia|done].
Qed.

Lemma instances_share_the_driver_launched_last_witness :
  ∃ s, run (construction_retried ++ [Call 0 "http://host/a";
                                      Construct "chrome" 8 launching;
                                      Step 0 (answering "" "")])
           initial_system = Some s ∧
       length (instances s) ≤ 3 ∧
       (∀ i m m0,
          instances s !! 0 = Some m0 →
          instances s !! i = Some m →
          m = m0 ∧
          lock m = lock m0 ∧
          tab_pool m0 = Some (driver_of m0) ∧
          _GLOBAL_DRIVER (sys_world s) = Some (driver_of m0) ∧
          length (drivers (sys_world s)) = S (driver_of m0)) ∧
       (false = true →
          length (instances s) = 3 ∧
          (0 < 3 →
             length (drivers (sys_world s)) = 1 ∧ length (queues (sys_world s)) = 1)).
Proof.
  eexists. split; [vm_compute; reflexivity|].
  apply (instances_share_the_driver_launched_last
           (construction_retried ++ [Call 0 "http://host/a";
                                     Construct "chrome" 8 launching;
                                     Step 0 (answering "" "")]));
    [reflexivity | vm_compute; reflexivity].
Defined.

(** ** Lists of lists *)

Lemma elem_of_concat_lookup {A} (l : list (list A)) i x h :
  l !! i = Some x → h ∈ x → h ∈ concat l.
Proof.
  revert i. induction l as [|y l IH]; intros i Hi Hh; [done|].
  simpl. apply elem_of_app. destruct i as [|i]; simpl in Hi.
  - left. by simplify_eq.
  - right. by eapply IH.
Qed.

Lemma NoDup_concat_lookup {A} (l : list (list A)) i x :
  NoDup (concat l) → l !! i = Some x → NoDup x.
Proof.
  revert i. induction l as [|y l IH]; intros i Hnd Hi; [done|].
  simpl in Hnd. apply NoDup_app in Hnd as (Hy & _ & Hl).
  destruct i as [|i]; simpl in Hi.
  - by simplify_eq.
  - by eapply IH.
Qed.

Lemma NoDup_concat_disjoint {A} (l : list (list A)) i j x y h :
  NoDup (concat l) → i ≠ j →
  l !! i = Some x → l !! j = Some y → h ∈ x → h ∈ y → False.
Proof.
  revert i j. induction l as [|z l IH]; intros i j Hnd Hne Hi Hj Hx Hy; [done|].
  simpl in Hnd. apply NoDup_app in Hnd as (_ & Hdisj & Hl).
  destruct i as [|i], j as [|j]; simpl in Hi, Hj; simplify_eq.
  - eapply Hdisj; [done|]. by eapply elem_of_concat_lookup.
  - eapply Hdisj; [done|]. by eapply elem_of_concat_lookup.
  - eapply (IH i j); [done| |done..]. congruence.
Qed.

(** ** Tabs checked out *)

Lemma checked_out_concat q ts :
  checked_out q ts = concat (checked_out_by q <$> ts).
Proof. unfold checked_out. apply flat_map_concat_map. Qed.

Lemma checked_out_app q ts1 ts2 :
  checked_out q (ts1 ++ ts2) = checked_out q ts1 ++ checked_out q ts2.
Proof. unfold checked_out. apply flat_map_app. Qed.

Lemma checked_out_nil q ts :
  Forall (λ t, tab_pool (self t) ≠ Some q) ts → checked_out q ts = [].
Proof.
  induction 1 as [|t ts Ht _ IH]; [done|].
  unfold checked_out in *. simpl. rewrite IH, app_nil_r.
  unfold checked_out_by. destruct (tab_pool (self t)) as [q'|]; [|done].
  destruct (held_tab (at_ t)); [|done].
  case_bool_decide; [|done]. congruence.
Qed.

(** Replacing thread [i] replaces its contribution and nothing else. *)
Lemma checked_out_insert q ts i t :
  ts !! i = Some t →
  ∃ others,
    checked_out q ts ≡ₚ checked_out_by q t ++ others ∧
    ∀ t', checked_out q (<[i := t']> ts) ≡ₚ checked_out_by q t' ++ others.
Proof.
  revert i. induction ts as [|a ts IH]; intros i Hi; [done|].
  destruct i as [|i]; simpl in Hi.
  - simplify_eq. exists (checked_out q ts). done.
  - destruct (IH i Hi) as (others & H1 & H2).
    exists (checked_out_by q a ++ others). unfold checked_out in *. simpl. split.
    + rewrite H1. apply Permutation_app_swap_app.
    + intros t'. rewrite (H2 t'). apply Permutation_app_swap_app.
Qed.

Lemma checked_out_by_held q t h :
  tab_pool (self t) = Some q → held_tab (at_ t) = Some h →
  checked_out_by q t = [h].
Proof.
  intros Hq Hh. unfold checked_out_by. rewrite Hq, Hh.
  by rewrite bool_decide_eq_true_2.
Qed.

Lemma checked_out_by_free q t :
  held_tab (at_ t) = None → checked_out_by q t = [].
Proof.
  intros Hh. unfold checked_out_by. rewrite Hh. by destruct (tab_pool (self t)).
Qed.

Lemma checked_out_by_other q q' t :
  tab_pool (self t) = Some q' → q' ≠ q → checked_out_by q t = [].
Proof.
  intros Hq Hne. unfold checked_out_by. rewrite Hq.
  destruct (held_tab (at_ t)); [|done]. by rewrite bool_decide_eq_false_2.
Qed.

Lemma checked_out_by_no_pool q t :
  tab_pool (self t) = None → checked_out_by q t = [].
Proof. intros Hq. unfold checked_out_by. by rewrite Hq. Qed.

(** ** Well-formed instances *)

Lemma wf_instance_tabs w w' m :
  (∀ i hs, tabs w !! i = Some hs → tabs w' !! i = Some hs) →
  wf_instance w m → wf_instance w' m.
Proof.
  intros Hext (n & hs & Hp & Hn & Hhs & Hlen). exists n, hs. eauto.
Qed.

Lemma wf_instance_pool w m :
  wf_instance w m → tab_pool m = Some (driver_of m) ∧ driver_of m < length (tabs w).
Proof.
  intros (n & hs & Hp & _ & Hhs & _). split; [done|]. by eapply lookup_lt_Some.
Qed.

Lemma thread_step_coherent e w t w' t' :
  thread_step e w t = Some (w', t') → coherent t → coherent t'.
Proof.
  destruct t as [m u p]. unfold thread_step, coherent, command.
  cbn [at_ self request_url].
  destruct p as [|h|h|h|h|h b|h pend|h b cu|h pend|r]; intros Hs Hc;
    repeat match type of Hs with
           | context [match ?x with _ => _ end] => destruct x
           end; simplify_eq; done.
Qed.

(** ** The invariant holds in every reachable state *)

Lemma pool_inv_initial : pool_inv initial_system.
Proof.
  split; simpl; try done; by constructor.
Qed.

(** Appending a freshly launched driver and its queue to the store keeps
    the registry in order and the instances of older sessions as they
    were. *)
Lemma launched_registry s w' d pool k :
  pool_inv s →
  drivers w' = drivers (sys_world s) ++ [d] →
  queues w' = queues (sys_world s) ++ [pool] →
  next_handle w' = next_handle (sys_world s) + k →
  window_handles d = seq (next_handle (sys_world s)) k →
  tabs w' = tabs (sys_world s) ++ [window_handles d] ∧
  length (queues w') = length (tabs w') ∧
  NoDup (concat (tabs w')) ∧
  Forall (λ h, h < next_handle w') (concat (tabs w')) ∧
  (∀ m, wf_instance (sys_world s) m → wf_instance w' m).
Proof.
  intros [Hlen Hnd Hfr _ _ _ _ _] Hds Hqs Hn Hh.
  assert (Htabs : tabs w' = tabs (sys_world s) ++ [window_handles d]).
  { unfold tabs. by rewrite Hds, fmap_app. }
  split; [done|]. rewrite Htabs, Hqs, Hn. split; [|split; [|split]].
  - rewrite !length_app, Hlen. done.
  - rewrite concat_app. simpl. rewrite app_nil_r.
    apply NoDup_app. split; [done|]. split.
    + intros h Hin. rewrite Forall_forall in Hfr. apply Hfr in Hin.
      rewrite Hh, elem_of_seq. lia.
    + rewrite Hh. apply NoDup_seq.
  - rewrite concat_app. simpl. rewrite app_nil_r.
    apply Forall_app. split.
    + eapply Forall_impl; [exact Hfr|]. simpl. intros h Hlt. lia.
    + rewrite Hh. apply Forall_forall. intros h. rewrite elem_of_seq. lia.
  - intros m. apply wf_instance_tabs. intros i hs Hi. rewrite Htabs.
    by apply lookup_app_l_Some.
Qed.

(** A session in use is a session of the store. *)
Lemma in_use_lt s q :
  pool_inv s → in_use s q → q < length (tabs (sys_world s)).
Proof.
  intros [_ _ _ _ Hinst _ Hglob _] [HG | (m & Hm & <-)].
  - by destruct (wf_instance_pool _ _ (Hglob q HG)) as [_ ?].
  - rewrite Forall_forall in Hinst.
    by destruct (wf_instance_pool _ _ (Hinst m Hm)) as [_ ?].
Qed.

Lemma pool_inv_reuse b n e s d :
  pool_inv s →
  _GLOBAL_DRIVER (sys_world s) = Some d →
  ∃ m, __init__ b n e (sys_world s) = (sys_world s, Returned m) ∧
       pool_inv (System (sys_world s) (instances s ++ [m]) (threads s)).
Proof.
  intros [Hlen Hnd Hfr Hperm Hinst Hthr Hglob Hcall] HG.
  rewrite (init_reuses b n e _ d HG). eexists. split; [reflexivity|].
  split; simpl; try done.
  - intros q pool hs [Hq | (m & Hm & <-)]; [apply Hperm; by left|].
    apply elem_of_app in Hm as [Hm | Hm].
    + apply Hperm. right. eauto.
    + apply list_elem_of_singleton in Hm as ->. simpl. apply Hperm. by left.
  - apply Forall_app. split; [done|].
    constructor; [|done]. by apply Hglob.
  - eapply Forall_impl; [exact Hcall|]. simpl. intros t Ht.
    apply elem_of_app. by left.
Qed.

Lemma pool_inv_create b n e s :
  pool_inv s →
  _GLOBAL_DRIVER (sys_world s) = None →
  goes_through n e = true →
  ∃ w' m, __init__ b n e (sys_world s) = (w', Returned m) ∧
          pool_inv (System w' (instances s ++ [m]) (threads s)).
Proof.
  intros Hinv HG He.
  destruct (init_creates b n e (sys_world s) HG He) as (d & Hh & _ & _ & ->).
  eexists _, _. split; [reflexivity|].
  set (w' := World _ _ _ _ _ _ _).
  destruct (launched_registry s w' d (window_handles d) (S (Z.to_nat (n - 1))) Hinv)
    as (Htabs & Hlen' & Hnd' & Hfr' & Hold); try done.
  destruct Hinv as [Hlen Hnd Hfr Hperm Hinst Hthr Hglob Hcall].
  assert (Hdl : length (drivers (sys_world s)) = length (tabs (sys_world s)))
    by (unfold tabs; by rewrite length_fmap).
  assert (Hnew : wf_instance w'
                   (Middleware (length (drivers (sys_world s))) (Some (length (queues (sys_world s))))
                               (Some n) the_GLOBAL_INSTANCE_LOCK)).
  { exists n, (window_handles d). simpl. rewrite Htabs, Hlen, Hdl.
    rewrite list_lookup_middle by done.
    repeat split; try done. rewrite Hh, length_seq. lia. }
  split; simpl; try done.
  - intros q pool hs Hin Hq Ht. rewrite Htabs in Ht. subst w'. simpl in Hq.
    apply lookup_app_Some in Hq as [Hq | [Hge Hq]].
    + apply lookup_app_Some in Ht as [Ht | [Hge' _]].
      * apply Hperm; [|done..].
        destruct Hin as [[= Hin] | (m & Hm & <-)].
        { apply lookup_lt_Some in Ht. lia. }
        apply elem_of_app in Hm as [Hm | Hm]; [right; eauto|].
        apply list_elem_of_singleton in Hm as ->. simpl in *.
        apply lookup_lt_Some in Ht. lia.
      * apply lookup_lt_Some in Hq. lia.
    + apply lookup_app_Some in Ht as [Ht | [_ Ht]].
      * apply lookup_lt_Some in Ht. lia.
      * assert (q = length (queues (sys_world s))) as ->.
        { apply lookup_lt_Some in Hq. simpl in Hq. lia. }
        rewrite Nat.sub_diag in Hq. rewrite Hlen, Nat.sub_diag in Ht.
        simpl in Hq, Ht. simplify_eq.
        rewrite checked_out_nil, app_nil_r; [done|].
        eapply Forall_impl; [exact Hthr|]. simpl. intros t [Hwf _].
        apply wf_instance_pool in Hwf as [-> Hlt']. intros [= Heq]. lia.
  - apply Forall_app. split.
    + eapply Forall_impl; [exact Hinst|]. done.
    + constructor; [|done]. done.
  - eapply Forall_impl; [exact Hthr|]. simpl. intros t [? ?]. split; [|done].
    by apply Hold.
  - intros d0 [= <-]. done.
  - eapply Forall_impl; [exact Hcall|]. simpl. intros t Ht.
    apply elem_of_app. by left.
Qed.

(** A construction that raised after the launch: its driver and queue are
    in the store, and nothing refers to them. *)
Lemma pool_inv_left_behind s d pool j :
  pool_inv s →
  window_handles d = seq (next_handle (sys_world s)) (S j) →
  pool_inv (System (left_behind d pool (next_handle (sys_world s) + S j) (sys_world s))
                   (instances s) (threads s)).
Proof.
  intros Hinv Hh.
  set (w' := left_behind _ _ _ _).
  destruct (launched_registry s w' d pool (S j) Hinv)
    as (Htabs & Hlen' & Hnd' & Hfr' & Hold); try done.
  pose proof (λ q, in_use_lt s q Hinv) as Hlt.
  destruct Hinv as [Hlen Hnd Hfr Hperm Hinst Hthr Hglob Hcall].
  split; simpl; try done.
  - intros q pool' hs Hin Hq Ht.
    assert (Hin0 : in_use s q) by exact Hin.
    specialize (Hlt q Hin0).
    rewrite Htabs in Ht. subst w'. simpl in Hq.
    rewrite lookup_app_l in Hq by lia. rewrite lookup_app_l in Ht by done.
    by apply Hperm.
  - eapply Forall_impl; [exact Hinst|]. done.
  - eapply Forall_impl; [exact Hthr|]. simpl. intros t [? ?]. split; [|done].
    by apply Hold.
  - intros d0 Hd0. apply Hold. by apply Hglob.
Qed.

Lemma spider_closed_frame quit_raises w :
  let w' := fst (spider_closed quit_raises w) in
  tabs w' = tabs w ∧ queues w' = queues w ∧ next_handle w' = next_handle w ∧
  (_GLOBAL_DRIVER w' = None ∨
   (_GLOBAL_DRIVER w' = _GLOBAL_DRIVER w ∧
    _GLOBAL_TAB_POOL w' = _GLOBAL_TAB_POOL w ∧
    _GLOBAL_MAX_TABS w' = _GLOBAL_MAX_TABS w)).
Proof.
  unfold spider_closed. destruct (_GLOBAL_DRIVER w) as [d|] eqn:HG; simpl.
  - pose proof (send_frame d Quit quit_raises w) as (Hq & Ht & HG' & HP & HM & _ & Hn).
    destruct (send d Quit quit_raises w) as [w1 ok]. simpl in *.
    destruct ok; simpl.
    + do 3 (split; [done|]). by left.
    + do 3 (split; [done|]). right. by rewrite HG', HG.
  - repeat split; try done. by left.
Qed.

Lemma pool_inv_close quit_raises s :
  pool_inv s →
  pool_inv (System (fst (spider_closed quit_raises (sys_world s)))
                   (instances s) (threads s)).
Proof.
  intros [Hlen Hnd Hfr Hperm Hinst Hthr Hglob Hcall].
  destruct (spider_closed_frame quit_raises (sys_world s)) as (Ht & Hq & Hn & HG).
  assert (Hwf : ∀ m, wf_instance (sys_world s) m →
                     wf_instance (fst (spider_closed quit_raises (sys_world s))) m).
  { intros m. apply wf_instance_tabs. intros i hs. by rewrite Ht. }
  split; simpl; rewrite ?Ht, ?Hq, ?Hn; try done.
  - intros q pool hs Hin. apply Hperm.
    destruct Hin as [Hin | Hin]; [|by right].
    left. simpl in Hin. destruct HG as [HG | (HG & _)]; congruence.
  - eapply Forall_impl; [exact Hinst|]. done.
  - eapply Forall_impl; [exact Hthr|]. simpl. intros t [? ?]. auto.
  - intros d Hd. destruct HG as [HG | (HG & HP & HM)]; [congruence|].
    rewrite HP, HM. apply Hwf, Hglob. congruence.
Qed.

Lemma pool_inv_call s m u :
  m ∈ instances s →
  pool_inv s →
  pool_inv (System (sys_world s) (instances s) (threads s ++ [Thread m u at_get])).
Proof.
  intros Hm [Hlen Hnd Hfr Hperm Hinst Hthr Hglob Hcall].
  split; simpl; try done.
  - intros q pool hs Hin Hq Ht. rewrite checked_out_app.
    replace (checked_out q [Thread m u at_get]) with (@nil handle).
    + rewrite app_nil_r. by apply Hperm.
    + unfold checked_out. simpl. by rewrite checked_out_by_free.
  - apply Forall_app. split; [done|]. constructor; [|done]. simpl.
    split; [|done]. rewrite Forall_forall in Hinst. by apply Hinst.
  - apply Forall_app. split; [done|]. by constructor.
Qed.

Lemma pool_inv_thread_step s tid e t w' t' :
  threads s !! tid = Some t →
  thread_step e (sys_world s) t = Some (w', t') →
  pool_inv s →
  pool_inv (System w' (instances s) (<[tid := t']> (threads s))).
Proof.
  intros Ht Hs [Hlen Hnd Hfr Hperm Hinst Hthr Hglob Hcall].
  assert (Hwft : wf_instance (sys_world s) (self t) ∧ coherent t).
  { rewrite Forall_lookup in Hthr. by eapply Hthr. }
  pose proof (thread_step_coherent _ _ _ _ _ Hs (proj2 Hwft)) as Hcoh.
  apply thread_step_spec in Hs
    as (Hself & (Htabs & HG & HP & HM & Hn) & Hql & Hcases).
  assert (Hwf : ∀ m, wf_instance (sys_world s) m → wf_instance w' m).
  { intros m. apply wf_instance_tabs. intros i hs. by rewrite Htabs. }
  split; simpl; rewrite ?Htabs, ?Hn, ?Hql; try done.
  - intros q pool' hs Hin Hq' Ht'.
    assert (Hin0 : in_use s q).
    { destruct Hin as [Hin | Hin]; [|by right]. left. simpl in Hin. congruence. }
    specialize (Hperm q).
    destruct (checked_out_insert q _ _ _ Ht) as (others & H1 & H2).
    rewrite (H2 t').
    destruct Hcases as [(Hqs & Hheld) |
                        [(q0 & h & rest & Hp0 & Hh & Hh' & Hpool & Hqs) |
                         (q0 & h & Hp0 & Hh & Hh' & Hqs)]];
      rewrite Hqs in Hq'.
    + specialize (Hperm pool' hs Hin0 Hq' Ht'). rewrite H1 in Hperm.
      replace (checked_out_by q t') with (checked_out_by q t); [done|].
      destruct Hheld as [Hheld | Hnone].
      * unfold checked_out_by. by rewrite Hself, Hheld.
      * rewrite !checked_out_by_no_pool; [done| |done]. by rewrite Hself.
    + destruct (decide (q = q0)) as [->|Hne].
      * rewrite list_lookup_insert_eq in Hq' by (by eapply lookup_lt_Some).
        simplify_eq.
        specialize (Hperm (h :: pool') hs Hin0 Hpool Ht'). rewrite H1 in Hperm.
        rewrite (checked_out_by_free q0 t Hh) in Hperm.
        rewrite (checked_out_by_held q0 t' h); [|by rewrite Hself|done].
        rewrite <- Hperm. simpl. symmetry. apply Permutation_middle.
      * rewrite list_lookup_insert_ne in Hq' by done.
        specialize (Hperm pool' hs Hin0 Hq' Ht'). rewrite H1 in Hperm.
        rewrite (checked_out_by_other q q0 t) in Hperm by done.
        rewrite (checked_out_by_other q q0 t'); [done| |done]. by rewrite Hself.
    + destruct (decide (q = q0)) as [->|Hne].
      * rewrite list_lookup_alter_eq in Hq'.
        apply fmap_Some in Hq' as (pool & Hpool & ->).
        specialize (Hperm pool hs Hin0 Hpool Ht'). rewrite H1 in Hperm.
        rewrite (checked_out_by_held q0 t h) in Hperm by done.
        rewrite (checked_out_by_free q0 t' Hh').
        rewrite <- Hperm, <- app_assoc. done.
      * rewrite list_lookup_alter_ne in Hq' by done.
        specialize (Hperm pool' hs Hin0 Hq' Ht'). rewrite H1 in Hperm.
        rewrite (checked_out_by_other q q0 t) in Hperm by done.
        rewrite (checked_out_by_other q q0 t'); [done| |done]. by rewrite Hself.
  - eapply Forall_impl; [exact Hinst|]. done.
  - apply Forall_insert.
    + eapply Forall_impl; [exact Hthr|]. simpl. intros t0 [? ?]. auto.
    + rewrite Hself. split; [|done]. apply Hwf, Hwft.
  - intros d Hd. rewrite HP, HM. apply Hwf, Hglob. congruence.
  - apply Forall_insert; [done|]. rewrite Hself.
    rewrite Forall_lookup in Hcall. by eapply Hcall.
Qed.

Lemma pool_inv_step l s s' : pool_inv s → exec l s = Some s' → pool_inv s'.
Proof.
  intros Hinv He. destruct l as [b n e|qr|i u|tid e]; simpl in He.
  - destruct (_GLOBAL_DRIVER (sys_world s)) as [d|] eqn:HG.
    { destruct (pool_inv_reuse b n e s d Hinv HG) as (m & Hinit & Hinv').
      rewrite Hinit in He. by simplify_eq. }
    destruct (init_cases b n e (sys_world s) HG)
      as [[Hg _] | [(x & Hx) | (x & d & pool & j & Hx & Hh & _)]].
    + destruct (pool_inv_create b n e s Hinv HG Hg) as (w' & m & Hinit & Hinv').
      rewrite Hinit in He. by simplify_eq.
    + rewrite Hx in He. simplify_eq. by destruct s.
    + rewrite Hx in He. simplify_eq. by apply pool_inv_left_behind.
  - simplify_eq. by apply pool_inv_close.
  - destruct (instances s !! i) as [m|] eqn:Hi; simplify_eq.
    apply pool_inv_call; [|done]. by eapply list_elem_of_lookup_2.
  - destruct (threads s !! tid) as [t|] eqn:Ht; [|done].
    destruct (thread_step e (sys_world s) t) as [[w' t']|] eqn:Hs; simplify_eq.
    by eapply pool_inv_thread_step.
Qed.

Lemma pool_inv_reachable s : reachable s → pool_inv s.
Proof.
  apply reachable_invariant.
  - apply pool_inv_initial.
  - apply pool_inv_step.
Qed.

Lemma run_reachable ls s : run ls initial_system = Some s → reachable s.
Proof. intros H. by exists ls. Qed.

(** The pool and the registry behind an instance of a reachable state. *)
Lemma pool_of_instance s m :
  pool_inv s →
  m ∈ instances s →
  ∃ pool hs n,
    tab_pool m = Some (driver_of m) ∧
    max_tabs m = Some n ∧
    queues (sys_world s) !! driver_of m = Some pool ∧
    tabs (sys_world s) !! driver_of m = Some hs ∧
    length hs = Z.to_nat (Z.max 1 n) ∧
    NoDup hs ∧
    pool ++ checked_out (driver_of m) (threads s) ≡ₚ hs.
Proof.
  intros [Hlen Hnd Hfr Hperm Hinst Hthr Hglob Hcall] Hm.
  assert (Hwf : wf_instance (sys_world s) m).
  { rewrite Forall_forall in Hinst. by apply Hinst. }
  destruct Hwf as (n & hs & Hp & Hn & Hhs & Hl).
  destruct (lookup_lt_is_Some_2 (queues (sys_world s)) (driver_of m)) as [pool Hpool].
  { rewrite Hlen. by eapply lookup_lt_Some. }
  exists pool, hs, n. repeat split; try done.
  - by eapply NoDup_concat_lookup.
  - apply Hperm; [|done..]. right. eauto.
Qed.

(** A call in flight runs on an instance that was constructed. *)
Lemma caller_instance s i t :
  pool_inv s → threads s !! i = Some t → self t ∈ instances s.
Proof.
  intros Hinv Ht. pose proof (inv_callers s Hinv) as Hall.
  rewrite Forall_lookup in Hall. by eapply Hall.
Qed.

(** C2. In every state the process can reach (any interleaving of
    constructions, requests and their atomic steps, and closes), for every
    instance with pool [q] and tab count [n >= 1]: the number of tab
    identifiers in the queue plus the number checked out by calls in flight
    is [n]; queue and checked-out tabs together are, up to order, the
    driver's window handles, without repetition.  So every tab identifier of
    the session is in the pool or checked out, never both, and a checked-out
    identifier is held by one call only. *)
Theorem pool_conservation ls s k m q n :
  run ls initial_system = Some s →
  instances s !! k = Some m →
  tab_pool m = Some q →
  max_tabs m = Some n →
  (1 ≤ n)%Z →
  ∃ pool hs,
    queues (sys_world s) !! q = Some pool ∧
    tabs (sys_world s) !! driver_of m = Some hs ∧
    Z.of_nat (length pool + length (checked_out q (threads s))) = n ∧
    pool ++ checked_out q (threads s) ≡ₚ hs ∧
    NoDup (pool ++ checked_out q (threads s)) ∧
    (∀ h, h ∈ hs →
       (h ∈ pool ∧ h ∉ checked_out q (threads s)) ∨
       (h ∈ checked_out q (threads s) ∧ h ∉ pool)) ∧
    (∀ h i j t1 t2,
       threads s !! i = Some t1 → threads s !! j = Some t2 →
       h ∈ checked_out_by q t1 → h ∈ checked_out_by q t2 → i = j).
Proof.
  intros Hrun Hm Hq Hn Hpos.
  pose proof (pool_inv_reachable s (run_reachable ls s Hrun)) as Hinv.
  assert (Hwf : wf_instance (sys_world s) m).
  { pose proof (inv_instances s Hinv) as Hall.
    rewrite Forall_lookup in Hall. by eapply Hall. }
  destruct (pool_of_instance s m Hinv (list_elem_of_lookup_2 _ _ _ Hm))
    as (pool & hs & n' & Hq' & Hn' & Hpool & Hhs & Hlen & Hnd & Hperm).
  assert (q = driver_of m) as -> by congruence.
  assert (n' = n) as -> by congruence.
  assert (Hnd' : NoDup (pool ++ checked_out (driver_of m) (threads s)))
    by (by rewrite Hperm).
  exists pool, hs. repeat split; try done.
  - rewrite <- length_app, Hperm, Hlen. lia.
  - intros h Hh. rewrite <- Hperm in Hh.
    apply NoDup_app in Hnd' as (_ & Hdisj & _).
    apply elem_of_app in Hh as [Hh | Hh].
    + left. split; [done|]. by apply Hdisj.
    + right. split; [done|]. intros Hin. by eapply Hdisj.
  - intros h i j t1 t2 H1 H2 Hh1 Hh2.
    destruct (decide (i = j)) as [|Hne]; [done|]. exfalso.
    apply NoDup_app in Hnd' as (_ & _ & Hco). rewrite checked_out_concat in Hco.
    eapply (NoDup_concat_disjoint _ i j); [exact Hco|done| | |..].
    + rewrite list_lookup_fmap, H1. reflexivity.
    + rewrite list_lookup_fmap, H2. reflexivity.
    + done.
    + done.
Qed.

Lemma pool_conservation_witness :
  ∃ s, run two_requests_in_flight initial_system = Some s ∧
  ∃ pool hs,
    queues (sys_world s) !! 0 = Some pool ∧
    tabs (sys_world s)
      !! driver_of (Middleware 0 (Some 0) (Some 3%Z) the_GLOBAL_INSTANCE_LOCK)
      = Some hs ∧
    Z.of_nat (length pool + length (checked_out 0 (threads s))) = 3%Z ∧
    pool ++ checked_out 0 (threads s) ≡ₚ hs ∧
    NoDup (pool ++ checked_out 0 (threads s)) ∧
    (∀ h, h ∈ hs →
       (h ∈ pool ∧ h ∉ checked_out 0 (threads s)) ∨
       (h ∈ checked_out 0 (threads s) ∧ h ∉ pool)) ∧
    (∀ h i j t1 t2,
       threads s !! i = Some t1 → threads s !! j = Some t2 →
       h ∈ checked_out_by 0 t1 → h ∈ checked_out_by 0 t2 → i = j).
Proof.
  eexists. split; [vm_compute; reflexivity|].
  apply (pool_conservation two_requests_in_flight _ 0
           (Middleware 0 (Some 0) (Some 3%Z) the_GLOBAL_INSTANCE_LOCK) 0 3);
    [vm_compute; reflexivity | reflexivity | reflexivity | reflexivity | lia].
Defined.

(** In the state of the witness: tab 2 is in the pool, tabs 0 and 1 are
    checked out. *)
Example pool_conservation_state :
  (λ s, (queues (sys_world s), checked_out 0 (threads s)))
    <$> run two_requests_in_flight initial_system
  = Some ([[2]], [0; 1]).
Proof. vm_compute. done. Qed.

(** A call that holds a tab holds one of the tabs of its own session. *)
Lemma held_tab_registered s i t h :
  pool_inv s →
  threads s !! i = Some t →
  held_tab (at_ t) = Some h →
  ∃ q hs,
    tab_pool (self t) = Some q ∧
    tabs (sys_world s) !! q = Some hs ∧
    h ∈ hs ∧
    checked_out_by q t = [h] ∧
    NoDup (checked_out q (threads s)).
Proof.
  intros Hinv Ht Hh.
  assert (Hwf : wf_instance (sys_world s) (self t)).
  { pose proof (inv_threads s Hinv) as Hall.
    rewrite Forall_lookup in Hall. by apply (Hall i t Ht). }
  destruct (pool_of_instance s (self t) Hinv (caller_instance s i t Hinv Ht))
    as (pool & hs & n & Hq & _ & _ & Hhs & _ & Hnd & Hperm).
  exists (driver_of (self t)), hs.
  assert (Hby : checked_out_by (driver_of (self t)) t = [h])
    by (by apply checked_out_by_held).
  assert (Hin : h ∈ checked_out (driver_of (self t)) (threads s)).
  { rewrite checked_out_concat.
    eapply (elem_of_concat_lookup _ i).
    - rewrite list_lookup_fmap, Ht. reflexivity.
    - rewrite Hby. by constructor. }
  repeat split; try done.
  - rewrite <- Hperm. apply elem_of_app. by right.
  - rewrite <- Hperm in Hnd. by apply NoDup_app in Hnd as (_ & _ & ?).
Qed.

(** C4. In every state the process can reach, two different calls of
    [process_request] that are both between taking a tab from the pool and
    putting it back hold different tab identifiers. *)
Theorem exclusive_tab_ownership ls s i j t1 t2 h1 h2 :
  run ls initial_system = Some s →
  i ≠ j →
  threads s !! i = Some t1 →
  threads s !! j = Some t2 →
  held_tab (at_ t1) = Some h1 →
  held_tab (at_ t2) = Some h2 →
  h1 ≠ h2.
Proof.
  intros Hrun Hne H1 H2 Hh1 Hh2 <-.
  pose proof (pool_inv_reachable s (run_reachable ls s Hrun)) as Hinv.
  destruct (held_tab_registered s i t1 h1 Hinv H1 Hh1)
    as (q1 & hs1 & Hq1 & Hhs1 & Hin1 & Hby1 & Hnd1).
  destruct (held_tab_registered s j t2 h1 Hinv H2 Hh2)
    as (q2 & hs2 & Hq2 & Hhs2 & Hin2 & Hby2 & Hnd2).
  destruct (decide (q1 = q2)) as [->|Hq].
  - (* same pool: the tab would be checked out twice *)
    rewrite checked_out_concat in Hnd1.
    eapply (NoDup_concat_disjoint _ i j _ _ h1); [exact Hnd1|done| | |..].
    + rewrite list_lookup_fmap, H1. reflexivity.
    + rewrite list_lookup_fmap, H2. reflexivity.
    + rewrite Hby1. by constructor.
    + rewrite Hby2. by constructor.
  - (* two sessions: their window handles are disjoint *)
    by eapply (NoDup_concat_disjoint _ q1 q2 _ _ h1 (inv_nodup s Hinv)).
Qed.

Lemma exclusive_tab_ownership_witness :
  ∃ s t1 t2,
    run two_requests_in_flight initial_system = Some s ∧
    threads s !! 0 = Some t1 ∧ threads s !! 1 = Some t2 ∧
    held_tab (at_ t1) = Some 0 ∧ held_tab (at_ t2) = Some 1 ∧
    (0 : handle) ≠ 1.
Proof.
  eexists _, (Thread (Middleware 0 (Some 0) (Some 3%Z) the_GLOBAL_INSTANCE_LOCK)
                     "http://host/a" (at_switch 0)),
             (Thread (Middleware 0 (Some 0) (Some 3%Z) the_GLOBAL_INSTANCE_LOCK)
                     "http://host/b" (at_lock 1)).
  split; [vm_compute; reflexivity|].
  do 4 (split; [reflexivity|]).
  eapply (exclusive_tab_ownership two_requests_in_flight _ 0 1 _ _ 0 1);
    [vm_compute; reflexivity | lia | reflexivity | reflexivity
    | reflexivity | reflexivity].
Defined.

(** The step that completes a call with a response is the [put] of
    [finally]. *)
Lemma thread_step_returned e w t w' t' r :
  thread_step e w t = Some (w', t') →
  at_ t' = finished (Returned r) →
  ∃ q h,
    tab_pool (self t) = Some q ∧
    at_ t = at_finally h (Returned r) ∧
    queues w' = alter (λ l, l ++ [h]) q (queues w) ∧
    self t' = self t.
Proof.
  destruct t as [m u p]. unfold thread_step, command.
  cbn [at_ self request_url].
  destruct p as [|h|h|h|h|h b|h pend|h b cu|h pend|r0]; intros Hs Hr;
    repeat match type of Hs with
           | context [match ?x with _ => _ end] => destruct x eqn:?
           end; simplify_eq; simpl in *; try done.
  simplify_eq. by exists n, h.
Qed.

(** C10. Whenever a step of a reachable process completes a call of
    [process_request] with a response, then in the state right after that
    step the tab named by the response's [tab_handle] is already in the
    call's pool (at the back of the queue), the response's driver is the
    instance's driver, no call in flight holds that tab, and a [get] on the
    pool by another request would succeed at once. *)
Theorem response_tab_already_in_pool ls s tid e s' t' r :
  run ls initial_system = Some s →
  exec (Step tid e) s = Some s' →
  threads s' !! tid = Some t' →
  at_ t' = finished (Returned r) →
  ∃ q pool,
    tab_pool (self t') = Some q ∧
    meta_driver r = driver_of (self t') ∧
    queues (sys_world s') !! q = Some (pool ++ [meta_tab_handle r]) ∧
    is_Some (Queue_get q (sys_world s')) ∧
    meta_tab_handle r ∉ checked_out q (threads s').
Proof.
  intros Hrun He Ht' Hr.
  pose proof (pool_inv_reachable s (run_reachable ls s Hrun)) as Hinv.
  pose proof (pool_inv_step _ _ _ Hinv He) as Hinv'.
  simpl in He.
  destruct (threads s !! tid) as [t|] eqn:Ht; [|done].
  destruct (thread_step e (sys_world s) t) as [[w' t0]|] eqn:Hs; simplify_eq.
  simpl in *.
  rewrite list_lookup_insert_eq in Ht' by (by eapply lookup_lt_Some).
  simplify_eq.
  destruct (thread_step_returned _ _ _ _ _ _ Hs Hr) as (q & h & Hq & Hat & Hqs & Hself).
  assert (Hwft : wf_instance (sys_world s) (self t) ∧ coherent t).
  { pose proof (inv_threads s Hinv) as Hall.
    rewrite Forall_lookup in Hall. by eapply Hall. }
  destruct Hwft as [Hwf Hcoh]. unfold coherent in Hcoh. rewrite Hat in Hcoh.
  destruct Hcoh as [<- Hdrv].
  destruct (pool_of_instance s (self t) Hinv (caller_instance s tid t Hinv Ht))
    as (pool & hs & n & Hq' & _ & Hpool & Hhs & _ & _ & _).
  assert (q = driver_of (self t)) as -> by congruence.
  assert (Hpool' : queues w' !! driver_of (self t)
                   = Some (pool ++ [meta_tab_handle r])).
  { by rewrite Hqs, list_lookup_alter_eq, Hpool. }
  exists (driver_of (self t)), pool. rewrite Hself.
  repeat split; try done.
  - unfold Queue_get. rewrite Hpool'. by destruct pool.
  - destruct (pool_of_instance _ (self t) Hinv' (caller_instance s tid t Hinv Ht))
      as (pool1 & hs1 & n1 & _ & _ & Hpool1 & _ & _ & Hnd & Hperm).
    simpl in *. rewrite Hpool' in Hpool1. simplify_eq.
    rewrite <- Hperm in Hnd. apply NoDup_app in Hnd as (_ & Hdisj & _).
    apply Hdisj. apply elem_of_app. right. by constructor.
Qed.

Lemma response_tab_already_in_pool_witness :
  ∃ s s' t' r,
    run request_up_to_finally initial_system = Some s ∧
    exec (Step 0 (answering "" "")) s = Some s' ∧
    threads s' !! 0 = Some t' ∧
    at_ t' = finished (Returned r) ∧
    ∃ q pool,
      tab_pool (self t') = Some q ∧
      meta_driver r = driver_of (self t') ∧
      queues (sys_world s') !! q = Some (pool ++ [meta_tab_handle r]) ∧
      is_Some (Queue_get q (sys_world s')) ∧
      meta_tab_handle r ∉ checked_out q (threads s').
Proof.
  eexists _, _, _, _.
  split; [vm_compute; reflexivity|].
  split; [vm_compute; reflexivity|].
  split; [reflexivity|].
  split; [reflexivity|].
  eapply (response_tab_already_in_pool request_up_to_finally _ 0 (answering "" ""));
    [vm_compute; reflexivity | vm_compute; reflexivity | reflexivity | reflexivity].
Defined.

(** The state right after the return in that run: the response names tab 0,
    and tab 0 is back in the queue behind tab 1. *)
Example response_then_pool :
  (λ s, (queues (sys_world s), at_ <$> threads s))
    <$> run (request_up_to_finally ++ [Step 0 (answering "" "")]) initial_system
  = Some ([[1; 0]],
          [finished (Returned (Response "http://host/a" "<html/>" 0 0))]).
Proof. vm_compute. done. Qed.

(** With a single tab the point is plain: the first request has returned a
    response naming tab 0, and the second request then takes tab 0. *)
Example response_tab_taken_by_next_request :
  (λ s, at_ <$> threads s)
    <$> run (Construct "firefox" 1 launching :: Call 0 "http://host/a" :: Call 0 "http://host/b" ::
             replicate 9 (Step 0 (answering "<html/>" "http://host/a")) ++
             [Step 1 (answering "" "")]) initial_system
  = Some [finished (Returned (Response "http://host/a" "<html/>" 0 0));
          at_lock 0].
Proof. vm_compute. done. Qed.

(** * Further properties of the middleware *)

(** ** [process_request] run alone: what it returns and what it changes *)

Lemma accepts_after_issue c r c' r' dr :
  c' ≠ Quit → accepts c r (fst (issue c' r' dr)) = accepts c r dr.
Proof. intros Hq. unfold accepts, issue. simpl. by destruct c'. Qed.

(** One driver command of the [with] block, on a world whose driver list is
    known. *)
Lemma command_step c r h next w m u p dr :
  drivers w !! driver_of m = Some dr →
  command c r h next w (Thread m u p) =
    (set_drivers (<[driver_of m := fst (issue c r dr)]> (drivers w)) w,
     Thread m u (if accepts c r dr then next
                 else at_unlock h (Raised (WebDriverException c)))).
Proof. intros Hd. unfold command. cbn [self]. by rewrite (send_found _ _ _ _ _ Hd). Qed.

(** Leaving the [with] block and running [finally], from any pending
    result. *)
Lemma run_unlock_finally fuel e w m u h q pending :
  tab_pool m = Some q →
  run_thread (S (S (S fuel))) e w (Thread m u (at_unlock h pending)) =
    Some (Queue_put q h (set_lock false w),
          match pending with
          | Returned (b, cu) => Returned (Response cu b (driver_of m) h)
          | Raised x => Raised x
          end).
Proof.
  intros Hq.
  erewrite run_thread_unfold; cycle 1; [done|reflexivity|].
  unfold goto. cbn [fst snd self request_url].
  destruct pending as [[b cu]|x].
  - erewrite run_thread_unfold; cycle 1; [done|reflexivity|].
    unfold goto. cbn [fst snd self request_url].
    erewrite run_thread_unfold; cycle 1;
      [done|cbn [thread_step at_ self]; rewrite Hq; reflexivity|].
    unfold goto. cbn [fst snd self request_url]. apply run_thread_finished.
  - erewrite run_thread_unfold; cycle 1;
      [done|cbn [thread_step at_ self]; rewrite Hq; reflexivity|].
    unfold goto. cbn [fst snd self request_url]. apply run_thread_finished.
Qed.

Lemma world_set_drivers_twice ds ds' w :
  set_drivers ds (set_drivers ds' w) = set_drivers ds w.
Proof. done. Qed.

(** The [with] block and what follows, from the switch on: the commands go
    out in order up to the first one the driver refuses; that one decides the
    exception; if none is refused the response is built from the capture. *)
Lemma run_with_block e w m u h q dr :
  tab_pool m = Some q →
  drivers w !! driver_of m = Some dr →
  ∃ k out,
    run_thread 7 e w (Thread m u (at_switch h)) =
      Some (Queue_put q h (set_lock false
              (set_drivers
                 (<[driver_of m :=
                      Driver (kind dr) (window_handles dr)
                        (if accepts (SwitchToWindow h) (switch_raises e) dr
                         then h else current_window_handle dr)
                        (session_alive dr)
                        (commands dr ++ take k (request_commands h u))]>
                    (drivers w)) w)), out) ∧
    match list_find (λ cr, accepts cr.1 cr.2 dr = false)
                    (zip (request_commands h u) (request_raises e)) with
    | Some (i, (c, _)) => k = S i ∧ out = Raised (WebDriverException c)
    | None =>
        k = 4 ∧
        out = Returned (Response (the_current_url e) (the_page_source e)
                                 (driver_of m) h)
    end.
Proof.
  intros Hq Hd.
  assert (Hlt : driver_of m < length (drivers w)) by (by eapply lookup_lt_Some).
  assert (Hlook : ∀ x ds, length ds = length (drivers w) →
            drivers (set_drivers (<[driver_of m := x]> ds) w) !! driver_of m = Some x).
  { intros x ds Hl. cbn. apply list_lookup_insert_eq. lia. }
  unfold request_commands, request_raises.
  (* switch *)
  erewrite run_thread_unfold; cycle 1;
    [done|cbn [thread_step at_]; by rewrite (command_step _ _ _ _ _ _ _ _ _ Hd)|].
  cbn [fst snd].
  destruct (accepts (SwitchToWindow h) (switch_raises e) dr) eqn:A1; cycle 1.
  { rewrite (run_unlock_finally 3 _ _ _ _ _ _ _ Hq).
    exists 1, (Raised (WebDriverException (SwitchToWindow h))).
    split.
    - unfold issue. rewrite A1. done.
    - cbn. rewrite A1. rewrite decide_True by done. done. }
  (* navigate *)
  erewrite run_thread_unfold; cycle 1;
    [done|cbn [thread_step at_ request_url];
          by erewrite command_step by (by apply Hlook)|].
  cbn [fst snd]. rewrite accepts_after_issue by done.
  destruct (accepts (Get u) (get_raises e) dr) eqn:A2; cycle 1.
  { rewrite (run_unlock_finally 2 _ _ _ _ _ _ _ Hq).
    exists 2, (Raised (WebDriverException (Get u))).
    split.
    - cbn [drivers set_drivers]. rewrite world_set_drivers_twice, list_insert_insert_eq.
      unfold issue. rewrite A1. cbn. by rewrite <- app_assoc.
    - cbn. rewrite A1, A2. rewrite decide_False, decide_True by done. done. }
  (* page_source *)
  erewrite run_thread_unfold; cycle 1;
    [done|cbn [thread_step at_ request_url];
          by erewrite command_step
            by (apply Hlook; cbn; by rewrite length_insert)|].
  cbn [fst snd]. rewrite !accepts_after_issue by done.
  destruct (accepts PageSource (page_source_raises e) dr) eqn:A3; cycle 1.
  { rewrite (run_unlock_finally 1 _ _ _ _ _ _ _ Hq).
    exists 3, (Raised (WebDriverException PageSource)).
    split.
    - cbn [drivers set_drivers].
      rewrite !world_set_drivers_twice, !list_insert_insert_eq.
      unfold issue. rewrite A1. cbn. by rewrite <- !app_assoc.
    - cbn. rewrite A1, A2, A3.
      rewrite !decide_False, decide_True by done. done. }
  (* current_url *)
  erewrite run_thread_unfold; cycle 1;
    [done|cbn [thread_step at_ request_url];
          by erewrite command_step
            by (apply Hlook; cbn; by rewrite !length_insert)|].
  cbn [fst snd]. rewrite !accepts_after_issue by done.
  destruct (accepts CurrentUrl (current_url_raises e) dr) eqn:A4;
    rewrite (run_unlock_finally 0 _ _ _ _ _ _ _ Hq).
  - exists 4, (Returned (Response (the_current_url e) (the_page_source e)
                                  (driver_of m) h)).
    split.
    + cbn [drivers set_drivers].
      rewrite !world_set_drivers_twice, !list_insert_insert_eq.
      unfold issue. rewrite A1. cbn. by rewrite <- !app_assoc.
    + cbn. rewrite A1, A2, A3, A4. rewrite !decide_False by done. done.
  - exists 4, (Raised (WebDriverException CurrentUrl)).
    split.
    + cbn [drivers set_drivers].
      rewrite !world_set_drivers_twice, !list_insert_insert_eq.
      unfold issue. rewrite A1. cbn. by rewrite <- !app_assoc.
    + cbn. rewrite A1, A2, A3, A4.
      rewrite !decide_False, decide_True by done. done.
Qed.

Lemma put_after_get (qs : list (list handle)) q h rest :
  qs !! q = Some (h :: rest) →
  alter (λ l, l ++ [h]) q (<[q := rest]> qs) = <[q := rest ++ [h]]> qs.
Proof.
  intros Hq. assert (q < length qs) by (by eapply lookup_lt_Some).
  apply list_eq. intros i. destruct (decide (i = q)) as [->|Hne].
  - rewrite list_lookup_alter_eq, !list_lookup_insert_eq by done. done.
  - rewrite list_lookup_alter_ne, !list_lookup_insert_ne by done. done.
Qed.

(** The whole call, run alone on an instance whose driver is in the store:
    the resulting world is the old one with the lock free, the tab moved to
    the back of its queue, and the commands sent added to the driver. *)
Lemma process_request_spec m u e w q h rest dr :
  tab_pool m = Some q →
  queues w !! q = Some (h :: rest) →
  _GLOBAL_INSTANCE_LOCK w = false →
  drivers w !! driver_of m = Some dr →
  ∃ k out,
    process_request m u e w =
      Some (World (_GLOBAL_DRIVER w) (_GLOBAL_TAB_POOL w) (_GLOBAL_MAX_TABS w) false
              (<[driver_of m :=
                   Driver (kind dr) (window_handles dr)
                     (if accepts (SwitchToWindow h) (switch_raises e) dr
                      then h else current_window_handle dr)
                     (session_alive dr)
                     (commands dr ++ take k (request_commands h u))]>
                 (drivers w))
              (<[q := rest ++ [h]]> (queues w))
              (next_handle w), out) ∧
    match list_find (λ cr, accepts cr.1 cr.2 dr = false)
                    (zip (request_commands h u) (request_raises e)) with
    | Some (i, (c, _)) => k = S i ∧ out = Raised (WebDriverException c)
    | None =>
        k = 4 ∧
        out = Returned (Response (the_current_url e) (the_page_source e)
                                 (driver_of m) h)
    end.
Proof.
  intros Hq Hpool Hlock Hd.
  rewrite (process_request_get m u e w q h rest Hq Hpool).
  erewrite run_thread_unfold; cycle 1.
  { done. }
  { cbn [thread_step at_ set_queues _GLOBAL_INSTANCE_LOCK]. rewrite Hlock.
    reflexivity. }
  unfold goto. cbn [fst snd self request_url].
  destruct (run_with_block e (set_lock true (set_queues (<[q := rest]> (queues w)) w))
              m u h q dr Hq Hd) as (k & out & Hrun & Hfind).
  exists k, out. split; [|done]. rewrite Hrun. unfold Queue_put. cbn.
  by rewrite (put_after_get _ _ _ _ Hpool).
Qed.

(** A live driver that has the tab among its windows accepts all four
    commands of a request when the browser lets none of them raise. *)
Lemma answering_browser_accepts u e h dr :
  session_alive dr = true →
  h ∈ window_handles dr →
  request_raises e = [false; false; false; false] →
  accepts (SwitchToWindow h) (switch_raises e) dr = true ∧
  list_find (λ cr, accepts cr.1 cr.2 dr = false)
            (zip (request_commands h u) (request_raises e)) = None.
Proof.
  intros Ha Hh He. unfold request_raises in *. injection He as He1 He2 He3 He4.
  assert (A1 : accepts (SwitchToWindow h) (switch_raises e) dr = true).
  { unfold accepts. rewrite Ha, He1. simpl. by apply bool_decide_eq_true_2. }
  split; [done|]. unfold request_commands. cbn.
  rewrite A1. unfold accepts. rewrite Ha, He2, He3, He4. cbn. done.
Qed.

(** X1. A call run alone on a live session, with its tab among the driver's
    windows and a browser that answers all four commands, returns a response
    with the captured URL and page, the instance's driver and the tab taken
    from the front of the pool; the driver has received exactly the four
    commands in order and its current window is the response's tab; the tab
    is at the back of the queue and the lock is free. *)
Theorem process_request_returns_response m u e w q h rest dr :
  tab_pool m = Some q →
  queues w !! q = Some (h :: rest) →
  _GLOBAL_INSTANCE_LOCK w = false →
  drivers w !! driver_of m = Some dr →
  session_alive dr = true →
  h ∈ window_handles dr →
  request_raises e = [false; false; false; false] →
  process_request m u e w =
    Some (World (_GLOBAL_DRIVER w) (_GLOBAL_TAB_POOL w) (_GLOBAL_MAX_TABS w) false
            (<[driver_of m :=
                 Driver (kind dr) (window_handles dr) h true
                        (commands dr ++ [SwitchToWindow h; Get u; PageSource; CurrentUrl])]>
               (drivers w))
            (<[q := rest ++ [h]]> (queues w))
            (next_handle w),
          Returned (Response (the_current_url e) (the_page_source e) (driver_of m) h)).
Proof.
  intros Hq Hpool Hlock Hd Ha Hh He.
  destruct (process_request_spec m u e w q h rest dr Hq Hpool Hlock Hd)
    as (k & out & -> & Hfind).
  destruct (answering_browser_accepts u e h dr Ha Hh He) as [A1 Hnone].
  rewrite Hnone in Hfind. destruct Hfind as [-> ->]. rewrite A1, Ha. done.
Qed.

Lemma process_request_returns_response_witness :
  let w := fst (__init__ "firefox" 2 launching initial_world) in
  let m := Middleware 0 (Some 0) (Some 2%Z) the_GLOBAL_INSTANCE_LOCK in
  let dr := Driver Firefox [0; 1] 0 true
              [CurrentWindowHandle; ExecuteScriptWindowOpen; WindowHandles] in
  let e := answering "<html/>" "http://host/b" in
  process_request m "http://host/a" e w =
    Some (World (_GLOBAL_DRIVER w) (_GLOBAL_TAB_POOL w) (_GLOBAL_MAX_TABS w) false
            (<[driver_of m :=
                 Driver (kind dr) (window_handles dr) 0 true
                        (commands dr ++ [SwitchToWindow 0; Get "http://host/a";
                                         PageSource; CurrentUrl])]>
               (drivers w))
            (<[0 := [1] ++ [0]]> (queues w))
            (next_handle w),
          Returned (Response (the_current_url e) (the_page_source e) (driver_of m) 0)).
Proof.
  apply (process_request_returns_response
           (Middleware 0 (Some 0) (Some 2%Z) the_GLOBAL_INSTANCE_LOCK) "http://host/a"
           (answering "<html/>" "http://host/b")
           (fst (__init__ "firefox" 2 launching initial_world)) 0 0 [1]
           (Driver Firefox [0; 1] 0 true
              [CurrentWindowHandle; ExecuteScriptWindowOpen; WindowHandles]));
    try reflexivity.
  apply list_elem_of_here.
Defined.

(** X2. A call run alone raises exactly when the driver refuses one of the
    four commands: the exception is the driver's for the first refused
    command [c] (number [i] in the order switch, get, page_source,
    current_url), the commands after it are never sent, the current window
    moves to the tab only if the switch went through, and the tab is back in
    the pool with the lock free. *)
Theorem process_request_raises_at_first_refusal m u e w q h rest dr i c r :
  tab_pool m = Some q →
  queues w !! q = Some (h :: rest) →
  _GLOBAL_INSTANCE_LOCK w = false →
  drivers w !! driver_of m = Some dr →
  list_find (λ cr, accepts cr.1 cr.2 dr = false)
            (zip (request_commands h u) (request_raises e)) = Some (i, (c, r)) →
  process_request m u e w =
    Some (World (_GLOBAL_DRIVER w) (_GLOBAL_TAB_POOL w) (_GLOBAL_MAX_TABS w) false
            (<[driver_of m :=
                 Driver (kind dr) (window_handles dr)
                        (match i with O => current_window_handle dr | S _ => h end)
                        (session_alive dr)
                        (commands dr ++ take (S i) (request_commands h u))]>
               (drivers w))
            (<[q := rest ++ [h]]> (queues w))
            (next_handle w),
          Raised (WebDriverException c)).
Proof.
  intros Hq Hpool Hlock Hd Hfind.
  destruct (process_request_spec m u e w q h rest dr Hq Hpool Hlock Hd)
    as (k & out & -> & Hspec).
  rewrite Hfind in Hspec. destruct Hspec as [-> ->].
  apply list_find_Some in Hfind as (Hi & Hrefused & Hbefore).
  replace (if accepts (SwitchToWindow h) (switch_raises e) dr
           then h else current_window_handle dr)
    with (match i with O => current_window_handle dr | S _ => h end); [done|].
  destruct i as [|i].
  - cbn in Hi. simplify_eq. cbn in Hrefused. by rewrite Hrefused.
  - specialize (Hbefore 0 (SwitchToWindow h, switch_raises e) eq_refl).
    cbn in Hbefore.
    destruct (accepts (SwitchToWindow h) (switch_raises e) dr); [done|].
    exfalso. apply Hbefore; [lia|done].
Qed.

Lemma process_request_raises_at_first_refusal_witness :
  let w := fst (__init__ "firefox" 2 launching initial_world) in
  let m := Middleware 0 (Some 0) (Some 2%Z) the_GLOBAL_INSTANCE_LOCK in
  let dr := Driver Firefox [0; 1] 0 true
              [CurrentWindowHandle; ExecuteScriptWindowOpen; WindowHandles] in
  let e := Env false false true false "" "" in
  process_request m "http://host/a" e w =
    Some (World (_GLOBAL_DRIVER w) (_GLOBAL_TAB_POOL w) (_GLOBAL_MAX_TABS w) false
            (<[driver_of m :=
                 Driver (kind dr) (window_handles dr) 0 (session_alive dr)
                        (commands dr ++ take 3 (request_commands 0 "http://host/a"))]>
               (drivers w))
            (<[0 := [1] ++ [0]]> (queues w))
            (next_handle w),
          Raised (WebDriverException PageSource)).
Proof.
  apply (process_request_raises_at_first_refusal
           (Middleware 0 (Some 0) (Some 2%Z) the_GLOBAL_INSTANCE_LOCK) "http://host/a"
           (Env false false true false "" "")
           (fst (__init__ "firefox" 2 launching initial_world)) 0 0 [1]
           (Driver Firefox [0; 1] 0 true
              [CurrentWindowHandle; ExecuteScriptWindowOpen; WindowHandles])
           2 PageSource true);
    reflexivity.
Defined.

(** X3. Whatever the browser does, a call run alone never touches the three
    globals or the handle supply, leaves every other driver and every other
    queue as it was, never opens, closes or quits anything on its own driver
    (same windows, same liveness), sends between one and four commands, the
    first being the switch, and leaves the instance lock free. *)
Theorem process_request_frame m u e w q h rest dr :
  tab_pool m = Some q →
  queues w !! q = Some (h :: rest) →
  _GLOBAL_INSTANCE_LOCK w = false →
  drivers w !! driver_of m = Some dr →
  ∃ w' out dr' k,
    process_request m u e w = Some (w', out) ∧
    _GLOBAL_INSTANCE_LOCK w' = false ∧
    _GLOBAL_DRIVER w' = _GLOBAL_DRIVER w ∧
    _GLOBAL_TAB_POOL w' = _GLOBAL_TAB_POOL w ∧
    _GLOBAL_MAX_TABS w' = _GLOBAL_MAX_TABS w ∧
    next_handle w' = next_handle w ∧
    queues w' = <[q := rest ++ [h]]> (queues w) ∧
    drivers w' = <[driver_of m := dr']> (drivers w) ∧
    kind dr' = kind dr ∧
    window_handles dr' = window_handles dr ∧
    session_alive dr' = session_alive dr ∧
    1 ≤ k ≤ 4 ∧
    commands dr' = commands dr ++ take k (request_commands h u).
Proof.
  intros Hq Hpool Hlock Hd.
  destruct (process_request_spec m u e w q h rest dr Hq Hpool Hlock Hd)
    as (k & out & -> & Hspec).
  eexists _, out, _, k. split; [reflexivity|]. cbn.
  repeat split; try done.
  - destruct (list_find _ _) as [[i [c r]]|]; [|lia]. destruct Hspec as [-> _]. lia.
  - destruct (list_find _ _) as [[i [c r]]|] eqn:Hfind; [|lia].
    destruct Hspec as [-> _]. apply list_find_Some in Hfind as (Hi & _).
    apply lookup_lt_Some in Hi. cbn in Hi. lia.
Qed.

Lemma process_request_frame_witness :
  let w := fst (__init__ "firefox" 2 launching initial_world) in
  let m := Middleware 0 (Some 0) (Some 2%Z) the_GLOBAL_INSTANCE_LOCK in
  let dr := Driver Firefox [0; 1] 0 true
              [CurrentWindowHandle; ExecuteScriptWindowOpen; WindowHandles] in
  let e := Env true false false false "" "" in
  ∃ w' out dr' k,
    process_request m "http://host/a" e w = Some (w', out) ∧
    _GLOBAL_INSTANCE_LOCK w' = false ∧
    _GLOBAL_DRIVER w' = _GLOBAL_DRIVER w ∧
    _GLOBAL_TAB_POOL w' = _GLOBAL_TAB_POOL w ∧
    _GLOBAL_MAX_TABS w' = _GLOBAL_MAX_TABS w ∧
    next_handle w' = next_handle w ∧
    queues w' = <[0 := [1] ++ [0]]> (queues w) ∧
    drivers w' = <[driver_of m := dr']> (drivers w) ∧
    kind dr' = kind dr ∧
    window_handles dr' = window_handles dr ∧
    session_alive dr' = session_alive dr ∧
    1 ≤ k ≤ 4 ∧
    commands dr' = commands dr ++ take k (request_commands 0 "http://host/a").
Proof.
  apply (process_request_frame
           (Middleware 0 (Some 0) (Some 2%Z) the_GLOBAL_INSTANCE_LOCK) "http://host/a"
           (Env true false false false "" "")
           (fst (__init__ "firefox" 2 launching initial_world)) 0 0 [1]
           (Driver Firefox [0; 1] 0 true
              [CurrentWindowHandle; ExecuteScriptWindowOpen; WindowHandles]));
    reflexivity.
Defined.

(** X4. The driver in a response's metadata is the shared driver, not a
    handle on the response's tab: when two requests are served one after the
    other on a live session with two different tabs at the front of the pool,
    both responses carry the same driver; right after the first call that
    driver's current window is the first response's tab, and after the second
    call it is the second response's tab, a different one.  Nothing in
    [process_request] switches back. *)
Theorem later_request_moves_current_window m u1 e1 u2 e2 w q h1 h2 rest dr :
  tab_pool m = Some q →
  queues w !! q = Some (h1 :: h2 :: rest) →
  _GLOBAL_INSTANCE_LOCK w = false →
  drivers w !! driver_of m = Some dr →
  session_alive dr = true →
  h1 ∈ window_handles dr →
  h2 ∈ window_handles dr →
  h1 ≠ h2 →
  request_raises e1 = [false; false; false; false] →
  request_raises e2 = [false; false; false; false] →
  ∃ w1 r1 w2 r2,
    process_request m u1 e1 w = Some (w1, Returned r1) ∧
    process_request m u2 e2 w1 = Some (w2, Returned r2) ∧
    meta_driver r1 = driver_of m ∧
    meta_driver r2 = driver_of m ∧
    current_window_handle <$> drivers w1 !! driver_of m = Some (meta_tab_handle r1) ∧
    current_window_handle <$> drivers w2 !! driver_of m = Some (meta_tab_handle r2) ∧
    meta_tab_handle r2 ≠ meta_tab_handle r1.
Proof.
  intros Hq Hpool Hlock Hd Ha Hh1 Hh2 Hne He1 He2.
  assert (Hlt : driver_of m < length (drivers w)) by (by eapply lookup_lt_Some).
  assert (Hltq : q < length (queues w)) by (by eapply lookup_lt_Some).
  destruct (process_request_spec m u1 e1 w q h1 (h2 :: rest) dr Hq Hpool Hlock Hd)
    as (k1 & out1 & H1 & Hf1).
  destruct (answering_browser_accepts u1 e1 h1 dr Ha Hh1 He1) as [A1 N1].
  rewrite N1 in Hf1. destruct Hf1 as [-> ->]. rewrite A1 in H1.
  set (dr1 := Driver (kind dr) (window_handles dr) h1 (session_alive dr)
                (commands dr ++ take 4 (request_commands h1 u1))) in *.
  set (w1 := World _ _ _ false (<[driver_of m := dr1]> (drivers w)) _ _) in *.
  assert (Hd1 : drivers w1 !! driver_of m = Some dr1)
    by (subst w1; cbn; by apply list_lookup_insert_eq).
  assert (Hpool1 : queues w1 !! q = Some (h2 :: (rest ++ [h1])))
    by (subst w1; cbn; by apply list_lookup_insert_eq).
  destruct (process_request_spec m u2 e2 w1 q h2 (rest ++ [h1]) dr1
              Hq Hpool1 eq_refl Hd1) as (k2 & out2 & H2 & Hf2).
  destruct (answering_browser_accepts u2 e2 h2 dr1 Ha Hh2 He2) as [A2 N2].
  rewrite N2 in Hf2. destruct Hf2 as [-> ->]. rewrite A2 in H2.
  assert (Hlt1 : driver_of m < length (drivers w1)) by (by eapply lookup_lt_Some).
  clearbody w1.
  eexists w1, _, _, _. split; [exact H1|]. split; [exact H2|].
  cbn. rewrite Hd1. cbn.
  rewrite list_lookup_insert_eq by done. cbn.
  repeat split; try done; congruence.
Qed.

Lemma later_request_moves_current_window_witness :
  let w := fst (__init__ "firefox" 2 launching initial_world) in
  let m := Middleware 0 (Some 0) (Some 2%Z) the_GLOBAL_INSTANCE_LOCK in
  ∃ w1 r1 w2 r2,
    process_request m "http://host/a" (answering "a" "http://host/a") w
      = Some (w1, Returned r1) ∧
    process_request m "http://host/b" (answering "b" "http://host/b") w1
      = Some (w2, Returned r2) ∧
    meta_driver r1 = driver_of m ∧
    meta_driver r2 = driver_of m ∧
    current_window_handle <$> drivers w1 !! driver_of m = Some (meta_tab_handle r1) ∧
    current_window_handle <$> drivers w2 !! driver_of m = Some (meta_tab_handle r2) ∧
    meta_tab_handle r2 ≠ meta_tab_handle r1.
Proof.
  apply (later_request_moves_current_window
           (Middleware 0 (Some 0) (Some 2%Z) the_GLOBAL_INSTANCE_LOCK)
           "http://host/a" (answering "a" "http://host/a")
           "http://host/b" (answering "b" "http://host/b")
           (fst (__init__ "firefox" 2 launching initial_world)) 0 0 1 []
           (Driver Firefox [0; 1] 0 true
              [CurrentWindowHandle; ExecuteScriptWindowOpen; WindowHandles]));
    try reflexivity.
  - apply list_elem_of_here.
  - apply list_elem_of_further, list_elem_of_here.
  - lia.
Defined.

(** ** Requests served in sequence *)

Lemma serve_rotates m q : ∀ requests w p dr,
  tab_pool m = Some q →
  queues w !! q = Some p →
  _GLOBAL_INSTANCE_LOCK w = false →
  drivers w !! driver_of m = Some dr →
  length requests ≤ length p →
  ∃ w' outs,
    serve m requests w = Some (w', outs) ∧
    length outs = length requests ∧
    queues w' !! q = Some (drop (length requests) p ++ take (length requests) p) ∧
    _GLOBAL_INSTANCE_LOCK w' = false ∧
    (∀ i r, outs !! i = Some (Returned r) → p !! i = Some (meta_tab_handle r)).
Proof.
  induction requests as [|[u e] requests IH]; intros w p dr Hq Hpool Hlock Hd Hlen.
  - exists w, []. simpl. rewrite app_nil_r. repeat split; try done.
  - destruct p as [|h rest]; [simpl in Hlen; lia|].
    assert (Hlt : driver_of m < length (drivers w)) by (by eapply lookup_lt_Some).
    assert (Hltq : q < length (queues w)) by (by eapply lookup_lt_Some).
    destruct (process_request_spec m u e w q h rest dr Hq Hpool Hlock Hd)
      as (k & out & Hpr & Hspec).
    cbn [serve]. rewrite Hpr.
    match goal with |- context [serve m requests ?W] => set (w1 := W) end.
    assert (Hpool1 : queues w1 !! q = Some (rest ++ [h]))
      by (subst w1; cbn; by apply list_lookup_insert_eq).
    assert (Hd1 : is_Some (drivers w1 !! driver_of m)).
    { subst w1. cbn. apply lookup_lt_is_Some. by rewrite length_insert. }
    destruct Hd1 as [dr1 Hd1].
    assert (Hlock1 : _GLOBAL_INSTANCE_LOCK w1 = false) by done.
    clearbody w1.
    destruct (IH w1 (rest ++ [h]) dr1 Hq Hpool1 Hlock1 Hd1)
      as (w' & outs & -> & Hlo & Hqueue & Hlock' & Htabs).
    { rewrite length_app. simpl in *. lia. }
    exists w', (out :: outs). simpl in Hlen. repeat split; try done.
    + simpl. by rewrite Hlo.
    + rewrite Hqueue. simpl.
      rewrite drop_app_le, take_app_le by lia. by rewrite <- app_assoc.
    + intros [|i] r Hi; simpl in Hi.
      * simplify_eq. destruct (list_find _ _) as [[? [? ?]]|].
        -- by destruct Hspec.
        -- destruct Hspec as [_ [= ->]]. done.
      * apply Htabs in Hi as Hi'. simpl.
        rewrite lookup_app_l in Hi'; [done|].
        apply lookup_lt_Some in Hi. lia.
Qed.

(** X5. Tabs are handed out first in, first out.  When an instance serves
    [k] requests one after the other, [k] at most the size of its pool [p],
    every call completes whatever the browser does, the [i]-th response
    names the [i]-th tab of [p], and the queue ends up rotated by [k]; after
    exactly [length p] requests the pool is in its original order. *)
Theorem tabs_served_in_queue_order m q requests w p dr :
  tab_pool m = Some q →
  queues w !! q = Some p →
  _GLOBAL_INSTANCE_LOCK w = false →
  drivers w !! driver_of m = Some dr →
  length requests ≤ length p →
  ∃ w' outs,
    serve m requests w = Some (w', outs) ∧
    length outs = length requests ∧
    queues w' !! q = Some (drop (length requests) p ++ take (length requests) p) ∧
    (length requests = length p → queues w' !! q = Some p) ∧
    (∀ i r, outs !! i = Some (Returned r) → p !! i = Some (meta_tab_handle r)).
Proof.
  intros Hq Hpool Hlock Hd Hlen.
  destruct (serve_rotates m q requests w p dr Hq Hpool Hlock Hd Hlen)
    as (w' & outs & Hs & Hlo & Hqueue & _ & Htabs).
  exists w', outs. repeat split; try done.
  intros Heq. rewrite Hqueue, Heq, drop_all, take_ge by lia. done.
Qed.

Lemma tabs_served_in_queue_order_witness :
  let w := fst (__init__ "firefox" 3 launching initial_world) in
  let m := Middleware 0 (Some 0) (Some 3%Z) the_GLOBAL_INSTANCE_LOCK in
  let requests := [("http://host/a", answering "a" "http://host/a");
                   ("http://host/b", Env false true false false "" "");
                   ("http://host/c", answering "c" "http://host/c")] in
  ∃ w' outs,
    serve m requests w = Some (w', outs) ∧
    length outs = length requests ∧
    queues w' !! 0 = Some (drop (length requests) [0; 1; 2]
                           ++ take (length requests) [0; 1; 2]) ∧
    (length requests = length [0; 1; 2] → queues w' !! 0 = Some [0; 1; 2]) ∧
    (∀ i r, outs !! i = Some (Returned r) → [0; 1; 2] !! i = Some (meta_tab_handle r)).
Proof.
  apply (tabs_served_in_queue_order
           (Middleware 0 (Some 0) (Some 3%Z) the_GLOBAL_INSTANCE_LOCK) 0
           [("http://host/a", answering "a" "http://host/a");
            ("http://host/b", Env false true false false "" "");
            ("http://host/c", answering "c" "http://host/c")]
           (fst (__init__ "firefox" 3 launching initial_world)) [0; 1; 2]
           (Driver Firefox [0; 1; 2] 0 true
              [CurrentWindowHandle; ExecuteScriptWindowOpen;
               ExecuteScriptWindowOpen; WindowHandles]));
    try reflexivity; simpl; lia.
Defined.

(** ** Creation with any tab count *)

Lemma open_tabs_commands k raises fresh d :
  (∀ i, i < k → raises i = false) →
  commands (open_tabs k raises fresh d).1.1 =
    commands d ++ replicate k ExecuteScriptWindowOpen.
Proof.
  revert raises fresh d. induction k as [|k IH]; intros raises fresh d Hr; simpl.
  - by rewrite app_nil_r.
  - rewrite (Hr 0) by lia. rewrite IH.
    + simpl. by rewrite <- app_assoc.
    + intros i Hi. apply Hr. lia.
Qed.

(** X6. Whatever [max_tabs] is (zero and negative included), a creating
    [__init__] whose browser answers sends [max(0, max_tabs - 1)]
    [window.open] scripts, the pool holds [max(1, max_tabs)] distinct tabs
    starting with the main tab, and the recorded tab count is [max_tabs] as
    given; so for [max_tabs <= 0] the recorded count and the real number of
    tabs (one) disagree. *)
Theorem pool_size_for_any_tab_count browser n e w :
  _GLOBAL_DRIVER w = None →
  goes_through n e = true →
  ∃ w' pool d,
    __init__ browser n e w =
      (w', Returned (Middleware (length (drivers w)) (Some (length (queues w)))
                                (Some n) the_GLOBAL_INSTANCE_LOCK)) ∧
    queues w' !! length (queues w) = Some pool ∧
    drivers w' !! length (drivers w) = Some d ∧
    _GLOBAL_MAX_TABS w' = Some n ∧
    pool = window_handles d ∧
    NoDup pool ∧
    Z.of_nat (length pool) = Z.max 1 n ∧
    head pool = Some (current_window_handle d) ∧
    commands d = [CurrentWindowHandle]
                 ++ replicate (Z.to_nat (n - 1)) ExecuteScriptWindowOpen
                 ++ [WindowHandles].
Proof.
  intros HG He. apply goes_through_spec in He as (Hl & Hcw & Hs & Hw).
  unfold __init__. rewrite HG, Hl, Hcw.
  pose proof (open_tabs_commands (Z.to_nat (n - 1)) (execute_script_raises e)
                (S (next_handle w))
                (record_cmd CurrentWindowHandle (launch browser (next_handle w))) Hs)
    as Hc.
  destruct (open_tabs_spec (Z.to_nat (n - 1)) (execute_script_raises e)
              (S (next_handle w))
              (record_cmd CurrentWindowHandle (launch browser (next_handle w))) Hs)
    as (d2 & Hopen & Hh & _ & Hcur & _).
  rewrite Hopen in Hc |- *. simpl in Hh, Hcur, Hc. cbn [fst snd negb]. rewrite Hw.
  eexists _, _, (record_cmd WindowHandles d2).
  split; [reflexivity|].
  cbn [queues drivers _GLOBAL_MAX_TABS].
  rewrite !list_lookup_middle by done.
  split; [reflexivity|]. split; [reflexivity|]. split; [reflexivity|].
  rewrite put_all_app. simpl. rewrite !Hh. simpl.
  repeat split.
  - constructor.
    + rewrite elem_of_seq. lia.
    + apply NoDup_seq.
  - rewrite length_seq. lia.
  - by rewrite Hcur.
  - by rewrite Hc.
Qed.

Lemma pool_size_for_any_tab_count_witness :
  ∃ w' pool d,
    __init__ "chrome" (-3) launching initial_world =
      (w', Returned (Middleware (length (drivers initial_world))
                                (Some (length (queues initial_world)))
                                (Some (-3)%Z) the_GLOBAL_INSTANCE_LOCK)) ∧
    queues w' !! length (queues initial_world) = Some pool ∧
    drivers w' !! length (drivers initial_world) = Some d ∧
    _GLOBAL_MAX_TABS w' = Some (-3)%Z ∧
    pool = window_handles d ∧
    NoDup pool ∧
    Z.of_nat (length pool) = Z.max 1 (-3) ∧
    head pool = Some (current_window_handle d) ∧
    commands d = [CurrentWindowHandle]
                 ++ replicate (Z.to_nat (-3 - 1)) ExecuteScriptWindowOpen
                 ++ [WindowHandles].
Proof.
  apply (pool_size_for_any_tab_count "chrome" (-3) launching initial_world);
    reflexivity.
Defined.

(** ** The instance lock *)

Lemma lock_holders_insert ts i t t' :
  ts !! i = Some t →
  lock_holders (<[i := t']> ts) + (if in_with_block (at_ t) then 1 else 0) =
  lock_holders ts + (if in_with_block (at_ t') then 1 else 0).
Proof.
  unfold lock_holders. revert i.
  induction ts as [|a ts IH]; intros i Hi; [done|].
  destruct i as [|i]; simpl in *.
  - simplify_eq.
    destruct (in_with_block (at_ t)), (in_with_block (at_ t')); simpl; lia.
  - specialize (IH i Hi). destruct (in_with_block (at_ a)); simpl; lia.
Qed.


(** A step of a call either takes the free lock on entering the block,
    frees it on leaving, or does neither. *)
Lemma thread_step_lock e w t w' t' :
  thread_step e w t = Some (w', t') →
  (in_with_block (at_ t) = false ∧ in_with_block (at_ t') = true ∧
   _GLOBAL_INSTANCE_LOCK w = false ∧ _GLOBAL_INSTANCE_LOCK w' = true) ∨
  (in_with_block (at_ t) = true ∧ in_with_block (at_ t') = false ∧
   _GLOBAL_INSTANCE_LOCK w' = false) ∨
  (in_with_block (at_ t') = in_with_block (at_ t) ∧
   _GLOBAL_INSTANCE_LOCK w' = _GLOBAL_INSTANCE_LOCK w).
Proof.
  assert (Hcmd : ∀ c r h next m u p w1 t1,
            in_with_block next = true →
            command c r h next w (Thread m u p) = (w1, t1) →
            in_with_block (at_ t1) = true ∧
            _GLOBAL_INSTANCE_LOCK w1 = _GLOBAL_INSTANCE_LOCK w).
  { intros c r h next m u p w1 t1 Hn. unfold command. simpl.
    pose proof (send_frame (driver_of m) c r w) as Hf.
    destruct (send (driver_of m) c r w) as [w2 ok]. simpl in Hf.
    intros [= <- <-]. destruct Hf as (_ & _ & _ & _ & _ & -> & _).
    by destruct ok. }
  destruct t as [m u p]. unfold thread_step. cbn [at_ self request_url].
  destruct p as [|h|h|h|h|h b|h pend|h b cu|h pend|r]; intros Hs.
  - right. right. destruct (tab_pool m) as [q|]; [|by simplify_eq].
    unfold Queue_get in Hs.
    destruct (queues w !! q) as [[|h rest]|]; by simplify_eq.
  - left. destruct (_GLOBAL_INSTANCE_LOCK w) eqn:Hl; by simplify_eq.
  - right. right. injection Hs as Hs. by apply Hcmd in Hs as [-> ->].
  - right. right. injection Hs as Hs. by apply Hcmd in Hs as [-> ->].
  - right. right. injection Hs as Hs. by apply Hcmd in Hs as [-> ->].
  - right. right. injection Hs as Hs. by apply Hcmd in Hs as [-> ->].
  - right. left. simplify_eq. simpl. by destruct pend as [[??]|?].
  - right. right. by simplify_eq.
  - right. right. destruct (tab_pool m); by simplify_eq.
  - done.
Qed.

Lemma init_keeps_lock browser n e w :
  _GLOBAL_INSTANCE_LOCK (fst (__init__ browser n e w)) = _GLOBAL_INSTANCE_LOCK w.
Proof. by destruct (init_extends browser n e w) as (? & _). Qed.

Lemma spider_closed_keeps_lock quit_raises w :
  _GLOBAL_INSTANCE_LOCK (fst (spider_closed quit_raises w)) = _GLOBAL_INSTANCE_LOCK w.
Proof.
  unfold spider_closed. destruct (_GLOBAL_DRIVER w) as [d|]; [|done].
  pose proof (send_frame d Quit quit_raises w) as (_ & _ & _ & _ & _ & Hl & _).
  destruct (send d Quit quit_raises w) as [w1 ok]. simpl in *. by destruct ok.
Qed.

Lemma lock_holders_step l s s' :
  lock_holders (threads s) = (if _GLOBAL_INSTANCE_LOCK (sys_world s) then 1 else 0) →
  exec l s = Some s' →
  lock_holders (threads s') = (if _GLOBAL_INSTANCE_LOCK (sys_world s') then 1 else 0).
Proof.
  intros Hinv He. destruct l as [b n e|qr|i u|tid e]; simpl in He.
  - pose proof (init_keeps_lock b n e (sys_world s)) as Hl.
    destruct (__init__ b n e (sys_world s)) as [w' [m|x]]; simplify_eq; simpl in *;
      by rewrite Hl.
  - simplify_eq. simpl. by rewrite spider_closed_keeps_lock.
  - destruct (instances s !! i); simplify_eq. simpl.
    unfold lock_holders in *. rewrite List.filter_app, length_app. simpl.
    rewrite Hinv. lia.
  - destruct (threads s !! tid) as [t|] eqn:Ht; [|done].
    destruct (thread_step e (sys_world s) t) as [[w' t']|] eqn:Hs; simplify_eq.
    simpl. pose proof (lock_holders_insert _ _ _ t' Ht) as Hins.
    apply thread_step_lock in Hs
      as [(Hb & Hb' & Hl & Hl') | [(Hb & Hb' & Hl') | (Hb' & Hl')]].
    + rewrite Hb, Hb' in Hins. rewrite Hl in Hinv. rewrite Hl'. lia.
    + rewrite Hb, Hb' in Hins. rewrite Hl'.
      destruct (_GLOBAL_INSTANCE_LOCK (sys_world s)); lia.
    + rewrite Hb' in Hins. rewrite Hl', <- Hinv. lia.
Qed.

Lemma lock_holders_reachable s :
  reachable s →
  lock_holders (threads s) = (if _GLOBAL_INSTANCE_LOCK (sys_world s) then 1 else 0).
Proof.
  apply (reachable_invariant
           (λ s, lock_holders (threads s)
                 = (if _GLOBAL_INSTANCE_LOCK (sys_world s) then 1 else 0))).
  - done.
  - intros l s1 s2. apply lock_holders_step.
Qed.



(** ** Waiting for a tab *)

(** X8. In every reachable state, a call that is about to take a tab from
    the pool of an instance is blocked exactly when all the tabs of that
    session are checked out by calls in flight, that is when their number is
    [max(1, max_tabs)]; otherwise its [get] goes through.  There is no other
    way for the [get] to block, and no timeout. *)
Theorem get_blocks_iff_all_tabs_checked_out ls s k m q n tid t e :
  run ls initial_system = Some s →
  instances s !! k = Some m →
  tab_pool m = Some q →
  max_tabs m = Some n →
  threads s !! tid = Some t →
  at_ t = at_get →
  tab_pool (self t) = Some q →
  (exec (Step tid e) s = None ↔
   Z.of_nat (length (checked_out q (threads s))) = Z.max 1 n).
Proof.
  intros Hrun Hm Hq Hn Ht Hat Hqt.
  pose proof (pool_inv_reachable s (run_reachable ls s Hrun)) as Hinv.
  assert (Hwf : wf_instance (sys_world s) m).
  { pose proof (inv_instances s Hinv) as Hall.
    rewrite Forall_lookup in Hall. by eapply Hall. }
  destruct (pool_of_instance s m Hinv (list_elem_of_lookup_2 _ _ _ Hm))
    as (pool & hs & n' & Hq' & Hn' & Hpool & Hhs & Hlen & Hnd & Hperm).
  assert (q = driver_of m) as -> by congruence.
  assert (n' = n) as -> by congruence.
  assert (Htot : length pool + length (checked_out (driver_of m) (threads s))
                 = Z.to_nat (Z.max 1 n)).
  { by rewrite <- length_app, Hperm. }
  simpl. rewrite Ht. unfold thread_step. rewrite Hat, Hqt.
  unfold Queue_get. rewrite Hpool.
  destruct pool as [|h rest]; simpl in Htot.
  - split; [intros _; lia|done].
  - split; [done|]. intros Hco. lia.
Qed.

Lemma get_blocks_iff_all_tabs_checked_out_witness :
  let ls := [Construct "firefox" 1 launching; Call 0 "http://host/a"; Call 0 "http://host/b";
             Step 0 (answering "" "")] in
  ∃ s, run ls initial_system = Some s ∧
       (exec (Step 1 (answering "" "")) s = None ↔
        Z.of_nat (length (checked_out 0 (threads s))) = Z.max 1 1).
Proof.
  eexists. split; [vm_compute; reflexivity|].
  eapply (get_blocks_iff_all_tabs_checked_out
            [Construct "firefox" 1 launching; Call 0 "http://host/a"; Call 0 "http://host/b";
             Step 0 (answering "" "")] _ 0
            (Middleware 0 (Some 0) (Some 1%Z) the_GLOBAL_INSTANCE_LOCK) 0 1 1
            (Thread (Middleware 0 (Some 0) (Some 1%Z) the_GLOBAL_INSTANCE_LOCK)
                    "http://host/b" at_get));
    vm_compute; reflexivity.
Defined.

(** ** A session that was quit *)

Lemma issue_keeps_quit c r dr :
  session_alive dr = false → session_alive (fst (issue c r dr)) = false.
Proof.
  intros Ha. unfold issue, accepts. rewrite Ha. simpl. by destruct c.
Qed.

Lemma send_keeps_quit d0 c r w d dr :
  drivers w !! d = Some dr →
  session_alive dr = false →
  ∃ dr', drivers (fst (send d0 c r w)) !! d = Some dr' ∧ session_alive dr' = false.
Proof.
  intros Hd Ha. unfold send.
  destruct (drivers w !! d0) as [dr0|] eqn:Hd0; simpl; [|eauto].
  destruct (decide (d0 = d)) as [->|Hne].
  - rewrite list_lookup_insert_eq by (by eapply lookup_lt_Some).
    simplify_eq. eexists. split; [done|]. by apply issue_keeps_quit.
  - rewrite list_lookup_insert_ne by done. eauto.
Qed.

Lemma exec_keeps_quit l s s' d dr :
  exec l s = Some s' →
  drivers (sys_world s) !! d = Some dr →
  session_alive dr = false →
  ∃ dr', drivers (sys_world s') !! d = Some dr' ∧ session_alive dr' = false.
Proof.
  intros He Hd Ha. destruct l as [b n e|qr|i u|tid e]; simpl in He.
  - destruct (init_extends b n e (sys_world s)) as (_ & ds & Hds).
    exists dr. split; [|done].
    destruct (__init__ b n e (sys_world s)) as [w' [m|x]]; simplify_eq; simpl in *;
      rewrite Hds; by apply lookup_app_l_Some.
  - simplify_eq. simpl. unfold spider_closed.
    destruct (_GLOBAL_DRIVER (sys_world s)) as [d0|]; [|eauto].
    pose proof (send_keeps_quit d0 Quit qr _ _ _ Hd Ha) as Hs.
    destruct (send d0 Quit qr (sys_world s)) as [w1 ok]. simpl in Hs.
    by destruct ok.
  - destruct (instances s !! i); simplify_eq. eauto.
  - destruct (threads s !! tid) as [t|]; [|done].
    destruct (thread_step e (sys_world s) t) as [[w' t']|] eqn:Hs; simplify_eq.
    simpl. destruct t as [m u p]. unfold thread_step, command in Hs.
    cbn [at_ self request_url] in Hs.
    destruct p as [|h|h|h|h|h b|h pend|h b cu|h pend|r];
      try (injection Hs as Hs;
           match type of Hs with
           | context [send ?d0 ?c ?r ?w0] =>
               pose proof (send_keeps_quit d0 c r w0 _ _ Hd Ha) as Hk;
               destruct (send d0 c r w0) as [w1 ok]; simpl in Hk;
               by simplify_eq
           end).
    + destruct (tab_pool m) as [q|]; [|simplify_eq; eauto].
      unfold Queue_get in Hs.
      destruct (queues (sys_world s) !! q) as [[|h rest]|]; simplify_eq. eauto.
    + destruct (_GLOBAL_INSTANCE_LOCK (sys_world s)); simplify_eq. eauto.
    + simplify_eq. eauto.
    + simplify_eq. eauto.
    + destruct (tab_pool m); simplify_eq; eauto.
    + done.
Qed.

Lemma run_keeps_quit ls : ∀ s s' d dr,
  run ls s = Some s' →
  drivers (sys_world s) !! d = Some dr →
  session_alive dr = false →
  ∃ dr', drivers (sys_world s') !! d = Some dr' ∧ session_alive dr' = false.
Proof.
  induction ls as [|l ls IH]; intros s s' d dr Hrun Hd Ha; simpl in Hrun.
  - simplify_eq. eauto.
  - destruct (exec l s) as [s1|] eqn:He; [|done].
    destruct (exec_keeps_quit l s s1 d dr He Hd Ha) as (dr1 & Hd1 & Ha1).
    by eapply IH.
Qed.

(** X9. A driver that was quit stays quit: no construction, close or
    request step brings it back.  So an instance bound to it never works
    again, also after a new session has been created: whatever happens in
    the process afterwards, a call on that instance that finds a tab in its
    pool sends the switch to the dead driver and raises the driver's
    exception. *)
Theorem stale_instance_never_recovers ls s s' m dr q h rest u e :
  drivers (sys_world s) !! driver_of m = Some dr →
  session_alive dr = false →
  run ls s = Some s' →
  tab_pool m = Some q →
  queues (sys_world s') !! q = Some (h :: rest) →
  _GLOBAL_INSTANCE_LOCK (sys_world s') = false →
  ∃ dr' w'',
    drivers (sys_world s') !! driver_of m = Some dr' ∧
    session_alive dr' = false ∧
    process_request m u e (sys_world s')
      = Some (w'', Raised (WebDriverException (SwitchToWindow h))).
Proof.
  intros Hd Ha Hrun Hq Hpool Hlock.
  destruct (run_keeps_quit ls s s' _ dr Hrun Hd Ha) as (dr' & Hd' & Ha').
  destruct (dispatch_on_quit_session m u e (sys_world s') q h rest dr'
              Hq Hpool Hlock Hd' Ha') as (w'' & Hpr & _).
  by exists dr', w''.
Qed.

Lemma stale_instance_never_recovers_witness :
  let s := System (fst (spider_closed false (fst (__init__ "firefox" 2 launching initial_world))))
                  [Middleware 0 (Some 0) (Some 2%Z) the_GLOBAL_INSTANCE_LOCK] [] in
  let ls := [Construct "firefox" 2 launching; Call 1 "http://host/b";
             Step 0 (answering "" "")] in
  let m := Middleware 0 (Some 0) (Some 2%Z) the_GLOBAL_INSTANCE_LOCK in
  ∃ s', run ls s = Some s' ∧
  ∃ dr' w'',
    drivers (sys_world s') !! driver_of m = Some dr' ∧
    session_alive dr' = false ∧
    process_request m "http://host/a" (answering "" "") (sys_world s')
      = Some (w'', Raised (WebDriverException (SwitchToWindow 0))).
Proof.
  eexists. split; [vm_compute; reflexivity|].
  eapply (stale_instance_never_recovers
            [Construct "firefox" 2 launching; Call 1 "http://host/b";
             Step 0 (answering "" "")]
            (System (fst (spider_closed false (fst (__init__ "firefox" 2 launching initial_world))))
                    [Middleware 0 (Some 0) (Some 2%Z) the_GLOBAL_INSTANCE_LOCK] [])
            _ (Middleware 0 (Some 0) (Some 2%Z) the_GLOBAL_INSTANCE_LOCK)
            (Driver Firefox [0; 1] 0 false
               [CurrentWindowHandle; ExecuteScriptWindowOpen; WindowHandles; Quit])
            0 0 [1]);
    vm_compute; reflexivity.
Defined.

(** ** Instances are never half built *)

Lemma thread_step_no_AttributeError e w t w' t' :
  is_Some (tab_pool (self t)) →
  no_AttributeError (at_ t) →
  thread_step e w t = Some (w', t') →
  no_AttributeError (at_ t').
Proof.
  destruct t as [m u p]. unfold thread_step, command.
  cbn [at_ self request_url]. intros [q Hq] Hn Hs. rewrite Hq in Hs.
  destruct p as [|h|h|h|h|h b|h pend|h b cu|h pend|r];
    repeat match type of Hs with
           | context [match ?x with _ => _ end] => destruct x eqn:?
           end; simplify_eq; simpl in *; done.
Qed.

Lemma no_AttributeError_step l s s' :
  pool_inv s →
  Forall (λ t, no_AttributeError (at_ t)) (threads s) →
  exec l s = Some s' →
  Forall (λ t, no_AttributeError (at_ t)) (threads s').
Proof.
  intros Hinv Hall He. destruct l as [b n e|qr|i u|tid e]; simpl in He.
  - destruct (__init__ b n e (sys_world s)) as [w' [m|x]]; by simplify_eq.
  - by simplify_eq.
  - destruct (instances s !! i); simplify_eq. simpl.
    apply Forall_app. split; [done|]. by constructor.
  - destruct (threads s !! tid) as [t|] eqn:Ht; [|done].
    destruct (thread_step e (sys_world s) t) as [[w' t']|] eqn:Hs; simplify_eq.
    simpl. apply Forall_insert; [done|].
    eapply thread_step_no_AttributeError; [| |exact Hs].
    + pose proof (inv_threads s Hinv) as Hthr. rewrite Forall_lookup in Hthr.
      destruct (Hthr tid t Ht) as [Hwf _].
      apply wf_instance_pool in Hwf as [-> _]. eauto.
    + rewrite Forall_lookup in Hall. by eapply Hall.
Qed.

(** X10. In every reachable state every instance ever constructed is
    complete: its [tab_pool] and [max_tabs] are set (never [None], also for
    instances built on the reuse path), its pool is the queue created with
    its driver, and both objects exist.  Hence no call of [process_request]
    ever fails with an [AttributeError] on [self.tab_pool]. *)
Theorem instances_are_complete ls s :
  run ls initial_system = Some s →
  (∀ k m, instances s !! k = Some m →
     tab_pool m = Some (driver_of m) ∧
     is_Some (max_tabs m) ∧
     is_Some (drivers (sys_world s) !! driver_of m) ∧
     is_Some (queues (sys_world s) !! driver_of m)) ∧
  (∀ tid t, threads s !! tid = Some t → at_ t ≠ finished (Raised AttributeError)).
Proof.
  intros Hrun.
  assert (Hinv : pool_inv s ∧ Forall (λ t, no_AttributeError (at_ t)) (threads s)).
  { apply (reachable_invariant
             (λ s, pool_inv s ∧ Forall (λ t, no_AttributeError (at_ t)) (threads s))).
    - split; [apply pool_inv_initial|constructor].
    - intros l s1 s2 [Hp Hn] He. split.
      + by eapply pool_inv_step.
      + by eapply no_AttributeError_step.
    - by exists ls. }
  destruct Hinv as [Hinv Hno]. split.
  - intros k m Hm.
    assert (Hwf : wf_instance (sys_world s) m).
    { pose proof (inv_instances s Hinv) as Hall.
      rewrite Forall_lookup in Hall. by eapply Hall. }
    destruct (pool_of_instance s m Hinv (list_elem_of_lookup_2 _ _ _ Hm))
      as (pool & hs & n & Hq & Hn & Hpool & Hhs & _).
    split; [done|]. split; [by rewrite Hn|]. split; [|by rewrite Hpool].
    unfold tabs in Hhs. rewrite list_lookup_fmap in Hhs.
    destruct (drivers (sys_world s) !! driver_of m); [eauto|done].
  - intros tid t Ht Hat. rewrite Forall_lookup in Hno.
    specialize (Hno tid t Ht). by rewrite Hat in Hno.
Qed.

Lemma instances_are_complete_witness :
  ∃ s, run two_requests_in_flight initial_system = Some s ∧
  (∀ k m, instances s !! k = Some m →
     tab_pool m = Some (driver_of m) ∧
     is_Some (max_tabs m) ∧
     is_Some (drivers (sys_world s) !! driver_of m) ∧
     is_Some (queues (sys_world s) !! driver_of m)) ∧
  (∀ tid t, threads s !! tid = Some t → at_ t ≠ finished (Raised AttributeError)).
Proof.
  eexists. split; [vm_compute; reflexivity|].
  apply (instances_are_complete two_requests_in_flight).
  vm_compute. reflexivity.
Defined.

(** * [_get_driver_path] *)

Example path_join_examples :
  path_join "/home/ares/.wdm_cache" "geckodriver" = "/home/ares/.wdm_cache/geckodriver"%string ∧
  path_join "/cache/" "chromedriver" = "/cache/chromedriver"%string ∧
  path_join "" "chromedriver" = "chromedriver"%string ∧
  basename "/home/ares/.wdm/drivers/geckodriver" = "geckodriver"%string ∧
  basename "geckodriver" = "geckodriver"%string ∧
  basename "/opt/drivers/" = ""%string.
Proof. vm_compute. done. Qed.

Lemma string_length_app (a b : string) :
  String.length (a ++ b) = String.length a + String.length b.
Proof. induction a as [|c a IH]; simpl; [done|]. by rewrite IH. Qed.

(** Joining a non-empty relative name to a directory never gives back the
    directory. *)
Lemma path_join_longer (a b : string) :
  String.prefix "/" b = false → b ≠ ""%string → path_join a b ≠ a.
Proof.
  intros Hrel Hb Heq. unfold path_join in Heq. rewrite Hrel in Heq.
  assert (0 < String.length b) by (destruct b; [done|simpl; lia]).
  apply (f_equal String.length) in Heq.
  destruct (String.eqb a "" || ends_with_slash a);
    rewrite ?string_length_app in Heq; simpl in Heq;
    rewrite ?string_length_app in Heq; lia.
Qed.

Lemma get_driver_path_unfold env browser hst :
  _get_driver_path env browser hst =
    cached_driver_path env
      (if String.eqb browser "chrome" then "chromedriver" else "geckodriver")
      (if String.eqb browser "chrome" then ChromeDriverManager_install env
       else GeckoDriverManager_install env) hst.
Proof. unfold _get_driver_path. by destruct (String.eqb browser "chrome"). Qed.

Lemma copy2_installs src dst hst h' :
  copy2 src dst hst = Done h' → installs h' = installs hst ∧ dirs h' = dirs hst.
Proof.
  unfold copy2. destruct (files hst !! src); [|done].
  destruct (String.eqb _ _); [done|]. by intros [= <-].
Qed.

Lemma chmod_installs p mode hst h' :
  chmod p mode hst = Done h' → installs h' = installs hst ∧ dirs h' = dirs hst.
Proof.
  unfold chmod. destruct (files hst !! p).
  - by intros [= <-].
  - destruct (bool_decide _); [|done]. by intros [= <-].
Qed.

Lemma from_cache_or_install_installs env name manager hst :
  let cache_dir := expanduser env "~/.wdm_cache" in
  if path_exists (path_join cache_dir name) hst ||
     negb (bool_decide (cache_dir ∈ dirs hst)) &&
     bool_decide (is_Some (files hst !! cache_dir))
  then fst (from_cache_or_install env name manager hst) = hst
  else installs (fst (from_cache_or_install env name manager hst))
       = installs hst ++ [name].
Proof.
  cbv zeta. unfold from_cache_or_install.
  destruct (path_exists _ hst); simpl; [done|].
  unfold makedirs.
  destruct (bool_decide (expanduser env "~/.wdm_cache" ∈ dirs hst)); simpl;
    [|destruct (bool_decide (is_Some _)); simpl; [done|]].
  all: unfold install;
    match goal with
    | |- context [copy2 ?a ?b ?h] =>
        destruct (copy2 a b h) as [h3|x] eqn:Hc; [|done];
        apply copy2_installs in Hc as [Hc _]
    end;
    match goal with
    | |- context [chmod ?a ?b ?h] =>
        destruct (chmod a b h) as [h4|x] eqn:Hm; simpl; [|done];
        apply chmod_installs in Hm as [Hm _]
    end; by rewrite Hm, Hc.
Qed.

(** X11. [_get_driver_path] calls a driver manager only when there is no
    usable driver on the PATH, nothing at the cache path, and the cache
    directory can be made; in every other case (system driver found, cached
    driver present, or [~/.wdm_cache] being a regular file) the host is left
    exactly as it was.  A call makes at most one install. *)
Theorem driver_installed_only_when_missing env browser hst :
  let name := (if String.eqb browser "chrome" then "chromedriver" else "geckodriver")%string in
  let cache_dir := expanduser env "~/.wdm_cache" in
  let found :=
    match which env name with
    | Some p => negb (String.eqb p "")
    | None => false
    end in
  let cached := path_exists (path_join cache_dir name) hst in
  let blocked :=
    negb (bool_decide (cache_dir ∈ dirs hst)) &&
    bool_decide (is_Some (files hst !! cache_dir)) in
  let hst' := fst (_get_driver_path env browser hst) in
  if found || cached || blocked
  then hst' = hst
  else installs hst' = installs hst ++ [name].
Proof.
  rewrite get_driver_path_unfold. cbv zeta.
  set (name := (if String.eqb browser "chrome" then _ else _)%string).
  set (manager := if String.eqb browser "chrome" then _ else _).
  pose proof (from_cache_or_install_installs env name manager hst) as Hc.
  cbv zeta in Hc. unfold cached_driver_path.
  destruct (which env name) as [p|]; [destruct (String.eqb p ""); simpl|simpl].
  - exact Hc.
  - done.
  - exact Hc.
Qed.

(** X12. A call of [_get_driver_path] that succeeds is not repeated work:
    run again on the host it left, with the same PATH and home, it returns
    the same path and changes nothing; in particular a driver is downloaded
    at most once. *)
Theorem driver_path_is_cached env browser hst hst' p :
  _get_driver_path env browser hst = (hst', Done p) →
  _get_driver_path env browser hst' = (hst', Done p).
Proof.
  rewrite !get_driver_path_unfold.
  set (name := (if String.eqb browser "chrome" then _ else _)%string).
  set (manager := if String.eqb browser "chrome" then _ else _).
  unfold cached_driver_path.
  assert (Hcache : from_cache_or_install env name manager hst = (hst', Done p) →
                   from_cache_or_install env name manager hst' = (hst', Done p)).
  { unfold from_cache_or_install.
    destruct (path_exists _ hst) eqn:Hex.
    - intros [= <- <-]. by rewrite Hex.
    - destruct (makedirs _ hst) as [h1|x]; [|done].
      destruct (install name manager h1) as [h2 driver_path].
      destruct (copy2 _ _ h2) as [h3|x]; [|done].
      unfold chmod.
      destruct (files h3 !! _) as [f|] eqn:Hf.
      + intros [= <- <-]. unfold path_exists. simpl.
        rewrite lookup_insert_eq. simpl. done.
      + destruct (bool_decide (_ ∈ dirs h3)) eqn:Hd; [|done].
        intros [= <- <-]. unfold path_exists. rewrite Hd.
        by rewrite orb_true_r. }
  destruct (which env name) as [q|]; [|done].
  destruct (String.eqb q ""); simpl; [done|].
  by intros [= <- <-].
Qed.

Lemma driver_path_is_cached_witness :
  let env := HostEnv (λ _, None) (λ _, "/home/ares/.wdm_cache"%string)
               ("/home/ares/.wdm/chromedriver"%string, File "chrome-binary" 420)
               ("/home/ares/.wdm/geckodriver"%string, File "gecko-binary" 420) in
  let hst' := fst (_get_driver_path env "firefox" (Host ∅ ∅ [])) in
  _get_driver_path env "firefox" hst'
    = (hst', Done "/home/ares/.wdm_cache/geckodriver"%string).
Proof.
  apply (driver_path_is_cached
           (HostEnv (λ _, None) (λ _, "/home/ares/.wdm_cache"%string)
              ("/home/ares/.wdm/chromedriver"%string, File "chrome-binary" 420)
              ("/home/ares/.wdm/geckodriver"%string, File "gecko-binary" 420))
           "firefox" (Host ∅ ∅ [])).
  vm_compute. reflexivity.
Defined.

(** X13. When no driver is on the PATH, nothing exists at the cache path,
    the cache directory exists or can be made, and the manager's binary is
    not the cache path itself, [_get_driver_path] returns the cache path
    [~/.wdm_cache/<driver name>] after one install: the cache directory
    exists, the cache path holds a copy of the manager's binary with mode
    [0o755], the manager's own file is still there, and no other file is
    touched.  A browser other than ["chrome"] gets the [geckodriver]. *)
Theorem driver_downloaded_into_cache env browser hst :
  let name := (if String.eqb browser "chrome" then "chromedriver" else "geckodriver")%string in
  let manager := if String.eqb browser "chrome" then ChromeDriverManager_install env
                 else GeckoDriverManager_install env in
  let cache_dir := expanduser env "~/.wdm_cache" in
  let cached_path := path_join cache_dir name in
  which env name = None ∨ which env name = Some ""%string →
  path_exists cached_path hst = false →
  cache_dir ∈ dirs hst ∨ files hst !! cache_dir = None →
  manager.1 ≠ cached_path →
  _get_driver_path env browser hst =
    (Host (<[cached_path := File (file_content manager.2) 493]>
             (<[manager.1 := manager.2]> (files hst)))
          ({[cache_dir]} ∪ dirs hst)
          (installs hst ++ [name]),
     Done cached_path).
Proof.
  rewrite get_driver_path_unfold. cbv zeta.
  set (name := (if String.eqb browser "chrome" then _ else _)%string).
  set (manager := if String.eqb browser "chrome" then _ else _).
  set (cache_dir := expanduser env "~/.wdm_cache").
  intros Hwhich Hex Hdir Hne.
  assert (Hname : path_join cache_dir name ≠ cache_dir).
  { subst name. apply path_join_longer; by destruct (String.eqb browser "chrome"). }
  unfold path_exists in Hex. apply orb_false_elim in Hex as [Hf Hd].
  apply bool_decide_eq_false_1 in Hf, Hd.
  assert (Hfile : files hst !! path_join cache_dir name = None).
  { destruct (files hst !! path_join cache_dir name) eqn:E; [|done].
    destruct Hf. eauto. }
  assert (Hcache : from_cache_or_install env name manager hst =
            (Host (<[path_join cache_dir name := File (file_content manager.2) 493]>
                     (<[manager.1 := manager.2]> (files hst)))
                  ({[cache_dir]} ∪ dirs hst)
                  (installs hst ++ [name]),
             Done (path_join cache_dir name))).
  { unfold from_cache_or_install. fold cache_dir.
    unfold path_exists.
    rewrite (bool_decide_eq_false_2 _ Hf), (bool_decide_eq_false_2 _ Hd). simpl.
    assert (Hmk : makedirs cache_dir hst
                  = Done (Host (files hst) ({[cache_dir]} ∪ dirs hst) (installs hst))).
    { unfold makedirs. destruct Hdir as [Hin | Hnone].
      - rewrite (bool_decide_eq_true_2 _ Hin).
        rewrite (subseteq_union_1_L {[cache_dir]} (dirs hst))
          by (by apply singleton_subseteq_l).
        by destruct hst.
      - case_bool_decide as Hin.
        + rewrite (subseteq_union_1_L {[cache_dir]} (dirs hst))
            by (by apply singleton_subseteq_l).
          by destruct hst.
        + rewrite bool_decide_eq_false_2; [done|]. rewrite Hnone.
          by intros [? ?]. }
    rewrite Hmk. unfold install, copy2. cbn [files dirs installs fst snd].
    rewrite lookup_insert_eq.
    rewrite bool_decide_eq_false_2.
    2:{ intros [Hin | Hin]%elem_of_union; [|done].
        by apply elem_of_singleton in Hin. }
    rewrite (proj2 (String.eqb_neq _ _) Hne).
    unfold chmod. cbn [files dirs installs]. rewrite lookup_insert_eq.
    by rewrite insert_insert_eq. }
  unfold cached_driver_path. by destruct Hwhich as [-> | ->].
Qed.

Lemma driver_downloaded_into_cache_witness :
  let env := HostEnv (λ _, None) (λ _, "/home/ares/.wdm_cache"%string)
               ("/home/ares/.wdm/chromedriver"%string, File "chrome-binary" 420)
               ("/home/ares/.wdm/geckodriver"%string, File "gecko-binary" 420) in
  _get_driver_path env "Chrome" (Host ∅ ∅ []) =
    (Host (<["/home/ares/.wdm_cache/geckodriver"%string := File "gecko-binary" 493]>
             (<["/home/ares/.wdm/geckodriver"%string := File "gecko-binary" 420]> ∅))
          ({["/home/ares/.wdm_cache"%string]} ∪ ∅)
          ([] ++ ["geckodriver"%string]),
     Done "/home/ares/.wdm_cache/geckodriver"%string).
Proof.
  apply (driver_downloaded_into_cache
           (HostEnv (λ _, None) (λ _, "/home/ares/.wdm_cache"%string)
              ("/home/ares/.wdm/chromedriver"%string, File "chrome-binary" 420)
              ("/home/ares/.wdm/geckodriver"%string, File "gecko-binary" 420))
           "Chrome" (Host ∅ ∅ [])).
  - by left.
  - vm_compute. reflexivity.
  - by right.
  - vm_compute. discriminate.
Defined.

(** * [from_crawler] and the [spider_closed] signal *)

Lemma send_spider_closed_nothing_to_close receivers : ∀ quit_raises w,
  _GLOBAL_DRIVER w = None →
  send_spider_closed receivers quit_raises w = w.
Proof.
  induction receivers as [|m receivers IH]; intros quit_raises w HG; simpl; [done|].
  rewrite (spider_closed_nothing_to_close _ w HG). simpl. by apply IH.
Qed.

Lemma from_crawler_reuses c e w d :
  _GLOBAL_DRIVER w = Some d →
  from_crawler c e w =
    (w,
     Returned
       (Crawler (SELENIUM_MAX_TABS c) (SELENIUM_BROWSER c)
          (spider_closed_receivers c
           ++ [Middleware d (_GLOBAL_TAB_POOL w) (_GLOBAL_MAX_TABS w)
                          the_GLOBAL_INSTANCE_LOCK]),
        Middleware d (_GLOBAL_TAB_POOL w) (_GLOBAL_MAX_TABS w)
                   the_GLOBAL_INSTANCE_LOCK)).
Proof. intros HG. unfold from_crawler. by rewrite (init_reuses _ _ e w d HG). Qed.

Lemma from_crawler_creates c e w :
  _GLOBAL_DRIVER w = None →
  goes_through (default 4%Z (SELENIUM_MAX_TABS c)) e = true →
  ∃ d w1 m,
    window_handles d
      = seq (next_handle w) (S (Z.to_nat (default 4%Z (SELENIUM_MAX_TABS c) - 1))) ∧
    session_alive d = true ∧
    kind d = (if String.eqb (default "firefox"%string (SELENIUM_BROWSER c)) "chrome"
              then Chrome else Firefox) ∧
    m = Middleware (length (drivers w)) (Some (length (queues w)))
                   (Some (default 4%Z (SELENIUM_MAX_TABS c))) the_GLOBAL_INSTANCE_LOCK ∧
    w1 = World (Some (length (drivers w))) (Some (length (queues w)))
               (Some (default 4%Z (SELENIUM_MAX_TABS c))) (_GLOBAL_INSTANCE_LOCK w)
               (drivers w ++ [d]) (queues w ++ [window_handles d])
               (next_handle w + S (Z.to_nat (default 4%Z (SELENIUM_MAX_TABS c) - 1))) ∧
    from_crawler c e w =
      (w1,
       Returned (Crawler (SELENIUM_MAX_TABS c) (SELENIUM_BROWSER c)
                         (spider_closed_receivers c ++ [m]),
                 m)).
Proof.
  intros HG He. unfold from_crawler.
  destruct (init_creates (default "firefox"%string (SELENIUM_BROWSER c))
              (default 4%Z (SELENIUM_MAX_TABS c)) e w HG He)
    as (d & Hh & Ha & Hk & ->).
  by eexists d, _, _.
Qed.

(** X14. Two crawlers started in a process that has no browser yet, the
    browser answering the first construction, share
    one session, and it is configured by the first crawler alone: its
    [SELENIUM_MAX_TABS] (4 when unset) is the recorded tab count, the pool
    holds [max(1, that)] tabs, and the browser is Chrome exactly when its
    [SELENIUM_BROWSER] is ["chrome"] (Firefox when unset or anything else).
    The second [from_crawler] ignores its crawler's settings, asks nothing
    of the browser, changes nothing in the process and returns an equal
    instance; each crawler gets one more [spider_closed] receiver. *)
Theorem crawlers_share_first_configuration c1 e1 c2 e2 w :
  _GLOBAL_DRIVER w = None →
  goes_through (default 4%Z (SELENIUM_MAX_TABS c1)) e1 = true →
  ∃ w1 c1' c2' m d pool,
    from_crawler c1 e1 w = (w1, Returned (c1', m)) ∧
    from_crawler c2 e2 w1 = (w1, Returned (c2', m)) ∧
    spider_closed_receivers c1' = spider_closed_receivers c1 ++ [m] ∧
    spider_closed_receivers c2' = spider_closed_receivers c2 ++ [m] ∧
    length (drivers w1) = S (length (drivers w)) ∧
    max_tabs m = Some (default 4%Z (SELENIUM_MAX_TABS c1)) ∧
    drivers w1 !! driver_of m = Some d ∧
    kind d = (if bool_decide (SELENIUM_BROWSER c1 = Some "chrome"%string)
              then Chrome else Firefox) ∧
    tab_pool m = Some (length (queues w)) ∧
    queues w1 !! length (queues w) = Some pool ∧
    Z.of_nat (length pool) = Z.max 1 (default 4%Z (SELENIUM_MAX_TABS c1)).
Proof.
  intros HG He1.
  destruct (from_crawler_creates c1 e1 w HG He1)
    as (d & w1 & m & Hh & _ & Hk & Hm & Hw1 & H1).
  assert (HG1 : _GLOBAL_DRIVER w1 = Some (length (drivers w))) by (by subst w1).
  pose proof (from_crawler_reuses c2 e2 w1 _ HG1) as H2.
  assert (Hm' : Middleware (length (drivers w)) (_GLOBAL_TAB_POOL w1)
                  (_GLOBAL_MAX_TABS w1) the_GLOBAL_INSTANCE_LOCK = m)
    by (by subst w1 m).
  rewrite Hm' in H2.
  eexists w1, _, _, m, d, (window_handles d).
  split; [exact H1|]. split; [exact H2|]. subst w1 m. cbn.
  rewrite !list_lookup_middle by done. rewrite length_app. cbn.
  repeat split; try done.
  - lia.
  - rewrite Hk. destruct (SELENIUM_BROWSER c1) as [b|]; case_bool_decide as Hb.
    + injection Hb as ->. done.
    + cbn [default from_option id].
      destruct (String.eqb_spec b "chrome") as [->|Hne]; [|done]. by destruct Hb.
    + done.
    + done.
  - rewrite Hh, length_seq. lia.
Qed.

Lemma crawlers_share_first_configuration_witness :
  let c1 := Crawler None (Some "chrome"%string) [] in
  let c2 := Crawler (Some 8%Z) None [] in
  ∃ w1 c1' c2' m d pool,
    from_crawler c1 launching initial_world = (w1, Returned (c1', m)) ∧
    from_crawler c2 failing_script w1 = (w1, Returned (c2', m)) ∧
    spider_closed_receivers c1' = spider_closed_receivers c1 ++ [m] ∧
    spider_closed_receivers c2' = spider_closed_receivers c2 ++ [m] ∧
    length (drivers w1) = S (length (drivers initial_world)) ∧
    max_tabs m = Some (default 4%Z (SELENIUM_MAX_TABS c1)) ∧
    drivers w1 !! driver_of m = Some d ∧
    kind d = (if bool_decide (SELENIUM_BROWSER c1 = Some "chrome"%string)
              then Chrome else Firefox) ∧
    tab_pool m = Some (length (queues initial_world)) ∧
    queues w1 !! length (queues initial_world) = Some pool ∧
    Z.of_nat (length pool) = Z.max 1 (default 4%Z (SELENIUM_MAX_TABS c1)).
Proof.
  apply (crawlers_share_first_configuration
           (Crawler None (Some "chrome"%string) []) launching
           (Crawler (Some 8%Z) None []) failing_script initial_world);
    reflexivity.
Defined.

(** X15. The browser belongs to whoever closes first.  Two crawlers share
    the session of a process (the browser answered the construction that
    created it); when the first crawler sends [spider_closed]
    and [quit] goes through, the driver gets exactly one [quit] however many
    receivers are connected, the globals are cleared, and a request of the
    second crawler, still running, then fails: its call takes a tab, sends
    the switch to the quit driver and raises the driver's exception. *)
Theorem closing_one_crawler_closes_the_browser_of_all
    c1 e1 c2 e2 w quit_raises u e :
  _GLOBAL_DRIVER w = None →
  goes_through (default 4%Z (SELENIUM_MAX_TABS c1)) e1 = true →
  _GLOBAL_INSTANCE_LOCK w = false →
  quit_raises 0 = false →
  ∃ w1 c1' c2' m d w3 w4,
    from_crawler c1 e1 w = (w1, Returned (c1', m)) ∧
    from_crawler c2 e2 w1 = (w1, Returned (c2', m)) ∧
    drivers w1 !! driver_of m = Some d ∧
    session_alive d = true ∧
    send_spider_closed (spider_closed_receivers c1') quit_raises w1 = w3 ∧
    _GLOBAL_DRIVER w3 = None ∧
    drivers w3 !! driver_of m
      = Some (Driver (kind d) (window_handles d) (current_window_handle d) false
                     (commands d ++ [Quit])) ∧
    process_request m u e w3
      = Some (w4, Raised (WebDriverException (SwitchToWindow (next_handle w)))).
Proof.
  intros HG He1 Hlock Hq.
  destruct (from_crawler_creates c1 e1 w HG He1)
    as (d & w1 & m & Hh & Ha & _ & Hm & Hw1 & H1).
  assert (HG1 : _GLOBAL_DRIVER w1 = Some (length (drivers w))) by (by subst w1).
  assert (Hd1 : drivers w1 !! length (drivers w) = Some d)
    by (subst w1; cbn; by apply list_lookup_middle).
  assert (Hq1 : queues w1 !! length (queues w)
                = Some (next_handle w
                        :: seq (S (next_handle w))
                               (Z.to_nat (default 4%Z (SELENIUM_MAX_TABS c1) - 1)))).
  { subst w1. cbn. rewrite list_lookup_middle by done. by rewrite Hh. }
  assert (Hl1 : _GLOBAL_INSTANCE_LOCK w1 = false) by (by subst w1).
  pose proof (from_crawler_reuses c2 e2 w1 _ HG1) as H2.
  assert (Hm' : Middleware (length (drivers w)) (_GLOBAL_TAB_POOL w1)
                  (_GLOBAL_MAX_TABS w1) the_GLOBAL_INSTANCE_LOCK = m)
    by (by subst w1 m).
  rewrite Hm' in H2.
  assert (Hdm : driver_of m = length (drivers w)) by (by subst m).
  assert (Hpm : tab_pool m = Some (length (queues w))) by (by subst m).
  clear Hw1 Hm Hm'.
  pose proof (spider_closed_live w1 _ d HG1 Hd1 Ha) as Hclose.
  set (w3 := clear_globals _) in Hclose.
  assert (Hd3 : drivers w3 !! length (drivers w)
                = Some (Driver (kind d) (window_handles d) (current_window_handle d)
                               false (commands d ++ [Quit]))).
  { subst w3. cbn. rewrite list_lookup_insert_eq by (by eapply lookup_lt_Some).
    unfold accepts. by rewrite Ha. }
  assert (HG3 : _GLOBAL_DRIVER w3 = None) by done.
  assert (Hq3 : queues w3 !! length (queues w)
                = Some (next_handle w
                        :: seq (S (next_handle w))
                               (Z.to_nat (default 4%Z (SELENIUM_MAX_TABS c1) - 1))))
    by (by subst w3).
  assert (Hl3 : _GLOBAL_INSTANCE_LOCK w3 = false) by (by subst w3).
  clearbody w3.
  assert (Hsend : send_spider_closed (spider_closed_receivers c1 ++ [m]) quit_raises w1
                  = w3).
  { destruct (spider_closed_receivers c1) as [|r rs]; simpl;
      rewrite Hq, Hclose; simpl;
      first [done | by apply send_spider_closed_nothing_to_close]. }
  rewrite <- Hdm in Hd3.
  destruct (dispatch_on_quit_session m u e w3 (length (queues w)) (next_handle w) _ _
              Hpm Hq3 Hl3 Hd3 eq_refl) as (w4 & Hpr & _).
  eexists w1, _, _, m, d, w3, w4.
  split; [exact H1|]. split; [exact H2|]. cbn [spider_closed_receivers].
  rewrite Hdm in *.
  split; [exact Hd1|]. split; [exact Ha|]. split; [exact Hsend|].
  split; [exact HG3|]. split; [exact Hd3|]. exact Hpr.
Qed.

Lemma closing_one_crawler_closes_the_browser_of_all_witness :
  let c1 := Crawler (Some 2%Z) None [] in
  let c2 := Crawler None None [] in
  ∃ w1 c1' c2' m d w3 w4,
    from_crawler c1 launching initial_world = (w1, Returned (c1', m)) ∧
    from_crawler c2 launching w1 = (w1, Returned (c2', m)) ∧
    drivers w1 !! driver_of m = Some d ∧
    session_alive d = true ∧
    send_spider_closed (spider_closed_receivers c1') (λ _, false) w1 = w3 ∧
    _GLOBAL_DRIVER w3 = None ∧
    drivers w3 !! driver_of m
      = Some (Driver (kind d) (window_handles d) (current_window_handle d) false
                     (commands d ++ [Quit])) ∧
    process_request m "http://host/a" (answering "" "") w3
      = Some (w4, Raised (WebDriverException (SwitchToWindow (next_handle initial_world)))).
Proof.
  apply (closing_one_crawler_closes_the_browser_of_all
           (Crawler (Some 2%Z) None []) launching
           (Crawler None None []) launching initial_world
           (λ _, false) "http://host/a" (answering "" ""));
    reflexivity.
Defined.

(** X16. [spider_closed] is retried by every receiver until a [quit] goes
    through.  On a live session, when the first [j] calls see [quit] raise
    and call [j] does not, the driver receives [j + 1] quits, then the
    globals are cleared and the remaining receivers do nothing; when every
    [quit] raises, each receiver has sent one and the session is still
    recorded as live. *)
Theorem quit_retried_until_it_goes_through receivers d : ∀ quit_raises w dr j,
  _GLOBAL_DRIVER w = Some d →
  drivers w !! d = Some dr →
  session_alive dr = true →
  (∀ i, i < j → quit_raises i = true) →
  j = length receivers ∨ (j < length receivers ∧ quit_raises j = false) →
  drivers (send_spider_closed receivers quit_raises w) !! d
    = Some (Driver (kind dr) (window_handles dr) (current_window_handle dr)
                   (bool_decide (j = length receivers))
                   (commands dr ++ replicate (S j `min` length receivers) Quit)) ∧
  _GLOBAL_DRIVER (send_spider_closed receivers quit_raises w)
    = (if bool_decide (j = length receivers) then Some d else None).
Proof.
  induction receivers as [|r receivers IH]; intros quit_raises w dr j HG Hd Ha Hfail Hj.
  - assert (j = 0) as -> by (simpl in Hj; lia). simpl.
    rewrite app_nil_r, HG, Hd. split; [|done]. destruct dr. simpl in *. by rewrite Ha.
  - assert (Hlt : d < length (drivers w)) by (by eapply lookup_lt_Some).
    cbn [send_spider_closed]. destruct j as [|j].
    + destruct Hj as [Hj | [_ Hq]]; [done|]. rewrite Hq.
      rewrite (spider_closed_live w d dr HG Hd Ha). cbn [fst].
      rewrite send_spider_closed_nothing_to_close by done. cbn.
      rewrite list_lookup_insert_eq by done. unfold accepts. rewrite Ha. done.
    + rewrite (Hfail 0) by lia.
      rewrite (spider_closed_quit_raises w d dr HG Hd). cbn [fst].
      edestruct (IH (λ i, quit_raises (S i))
                    (set_drivers (<[d := fst (issue Quit true dr)]> (drivers w)) w)
                    (fst (issue Quit true dr)) j) as [Hdr HG'].
      * done.
      * cbn. by apply list_lookup_insert_eq.
      * cbn. unfold accepts. by rewrite andb_false_r.
      * intros i Hi. apply Hfail. lia.
      * simpl in Hj. destruct Hj as [Hj | [Hj Hq]]; [left; lia|right; split; [lia|done]].
      * rewrite Hdr, HG'. cbn. rewrite <- app_assoc. cbn.
        repeat case_bool_decide; try lia; done.
Qed.

Lemma quit_retried_until_it_goes_through_witness :
  let w := fst (__init__ "firefox" 2 launching initial_world) in
  let m := Middleware 0 (Some 0) (Some 2%Z) the_GLOBAL_INSTANCE_LOCK in
  let dr := Driver Firefox [0; 1] 0 true
              [CurrentWindowHandle; ExecuteScriptWindowOpen; WindowHandles] in
  let quit_raises := λ i, bool_decide (i < 1) in
  drivers (send_spider_closed [m; m; m] quit_raises w) !! 0
    = Some (Driver (kind dr) (window_handles dr) (current_window_handle dr)
                   (bool_decide (1 = length [m; m; m]))
                   (commands dr ++ replicate (2 `min` length [m; m; m]) Quit)) ∧
  _GLOBAL_DRIVER (send_spider_closed [m; m; m] quit_raises w)
    = (if bool_decide (1 = length [m; m; m]) then Some 0 else None).
Proof.
  apply (quit_retried_until_it_goes_through
           [Middleware 0 (Some 0) (Some 2%Z) the_GLOBAL_INSTANCE_LOCK;
            Middleware 0 (Some 0) (Some 2%Z) the_GLOBAL_INSTANCE_LOCK;
            Middleware 0 (Some 0) (Some 2%Z) the_GLOBAL_INSTANCE_LOCK] 0
           (λ i, bool_decide (i < 1))
           (fst (__init__ "firefox" 2 launching initial_world))
           (Driver Firefox [0; 1] 0 true
              [CurrentWindowHandle; ExecuteScriptWindowOpen; WindowHandles]) 1);
    try reflexivity.
  - intros i Hi. by apply bool_decide_eq_true_2.
  - right. split; [simpl; lia|reflexivity].
Defined.

(** * No deadlock between the pool and the lock *)

Lemma step_enabled s tid t e w' t' :
  threads s !! tid = Some t →
  thread_step e (sys_world s) t = Some (w', t') →
  exec (Step tid e) s = Some (System w' (instances s) (<[tid := t']> (threads s))).
Proof. intros Ht Hs. simpl. by rewrite Ht, Hs. Qed.

(** A call that holds a tab can always take its next step, unless it waits
    for the lock. *)
Lemma thread_step_holding e w t h :
  held_tab (at_ t) = Some h →
  (∀ h', at_ t = at_lock h' → _GLOBAL_INSTANCE_LOCK w = false) →
  is_Some (thread_step e w t).
Proof.
  destruct t as [m u p]. unfold thread_step. cbn [at_ self request_url].
  destruct p as [|h0|h0|h0|h0|h0 b|h0 pend|h0 b cu|h0 pend|r]; intros Hh Hl;
    try done; try by eexists.
  - by rewrite (Hl h0 eq_refl).
  - by destruct (tab_pool m).
Qed.

Lemma lock_holder_exists ts :
  1 ≤ lock_holders ts →
  ∃ j t, ts !! j = Some t ∧ in_with_block (at_ t) = true.
Proof.
  unfold lock_holders. induction ts as [|a ts IH]; simpl; [lia|].
  destruct (in_with_block (at_ a)) eqn:Ha.
  - intros _. by exists 0, a.
  - intros Hn. destruct (IH Hn) as (j & t & Hj & Ht). by exists (S j), t.
Qed.

Lemma checked_out_holder q ts :
  checked_out q ts ≠ [] →
  ∃ j t h, ts !! j = Some t ∧ held_tab (at_ t) = Some h.
Proof.
  unfold checked_out. induction ts as [|a ts IH]; simpl; [done|].
  destruct (held_tab (at_ a)) as [h|] eqn:Ha.
  - intros _. by exists 0, a, h.
  - rewrite (checked_out_by_free q a Ha). simpl. intros Hn.
    destruct (IH Hn) as (j & t & h & Hj & Ht). by exists (S j), t, h.
Qed.

Lemma in_with_block_holds p :
  in_with_block p = true → (∃ h, held_tab p = Some h) ∧ ∀ h', p ≠ at_lock h'.
Proof. destruct p; simpl; try done; eauto. Qed.

Lemma holding_call_lets_some_call_step s j t h e :
  reachable s →
  threads s !! j = Some t →
  held_tab (at_ t) = Some h →
  ∃ tid s', exec (Step tid e) s = Some s'.
Proof.
  intros Hreach Hj Hh.
  pose proof (lock_holders_reachable s Hreach) as Hlock.
  destruct (_GLOBAL_INSTANCE_LOCK (sys_world s)) eqn:Hl.
  - (* the lock is held: its holder can step *)
    destruct (lock_holder_exists (threads s)) as (j' & t' & Hj' & Hb); [lia|].
    apply in_with_block_holds in Hb as [[h' Hh'] Hnl].
    destruct (thread_step_holding e (sys_world s) t' h' Hh') as [[w1 t1] Hs].
    { intros h0 Heq. by destruct (Hnl h0). }
    exists j'. eexists. by eapply step_enabled.
  - destruct (thread_step_holding e (sys_world s) t h Hh) as [[w1 t1] Hs]; [done|].
    exists j. eexists. by eapply step_enabled.
Qed.

(** X17. The pool and the lock never deadlock.  In every reachable state
    in which some call of [process_request] has not finished, some call can
    take a step: a call waits at [get] only while all tabs of its pool are
    held by other calls, a call waits for the lock only while another call
    is inside the block, and a call inside the block never waits.  (A call
    can still wait for ever if a call holding its tab is never scheduled.) *)
Theorem some_call_can_always_step ls s i t e :
  run ls initial_system = Some s →
  threads s !! i = Some t →
  (∀ r, at_ t ≠ finished r) →
  ∃ tid s', exec (Step tid e) s = Some s'.
Proof.
  intros Hrun Hi Hunf.
  pose proof (run_reachable ls s Hrun) as Hreach.
  pose proof (pool_inv_reachable s Hreach) as Hinv.
  destruct (held_tab (at_ t)) as [h|] eqn:Hh.
  { by eapply holding_call_lets_some_call_step. }
  assert (Hat : at_ t = at_get).
  { destruct (at_ t) eqn:E; try done. by destruct (Hunf result). }
  assert (Hwf : wf_instance (sys_world s) (self t)).
  { pose proof (inv_threads s Hinv) as Hall.
    rewrite Forall_lookup in Hall. by apply (Hall i t Hi). }
  destruct (pool_of_instance s (self t) Hinv (caller_instance s i t Hinv Hi))
    as (pool & hs & n & Hq & _ & Hpool & _ & Hlen & _ & Hperm).
  destruct pool as [|h rest].
  - (* empty pool: some call holds a tab of it *)
    destruct (checked_out_holder (driver_of (self t)) (threads s))
      as (j & t' & h' & Hj & Hh').
    { intros Hnil. rewrite Hnil in Hperm. simpl in Hperm.
      apply Permutation_length in Hperm. simpl in Hperm. lia. }
    by eapply holding_call_lets_some_call_step.
  - destruct t as [m u p]. simpl in *. subst p.
    exists i. eexists. eapply step_enabled; [done|].
    unfold thread_step. cbn [at_ self]. rewrite Hq. unfold Queue_get.
    rewrite Hpool. reflexivity.
Qed.

Lemma some_call_can_always_step_witness :
  ∃ s, run two_requests_in_flight initial_system = Some s ∧
       ∃ tid s', exec (Step tid (answering "" "")) s = Some s'.
Proof.
  eexists. split; [vm_compute; reflexivity|].
  eapply (some_call_can_always_step two_requests_in_flight _ 1 _ _);
    [vm_compute; reflexivity | reflexivity | intros r; discriminate].
Defined.

(** * The tab goes back on every exit path, under any interleaving *)










(** The state of the witness: the second call waits for the lock that the
    first one holds.  Given their steps, with a browser that fails the
    navigation of the first and the switch of the second, both calls end
    with the driver's exception and both tabs are back in the queue. *)
Example contended_calls_return_their_tabs :
  let e0 := Env false true false false "" "" in
  let e1 := Env true false false false "" "" in
  (λ s, (queues (sys_world s), at_ <$> threads s))
    <$> run (two_requests_in_flight ++ replicate 4 (Step 0 e0) ++ replicate 4 (Step 1 e1))
            initial_system
  = Some ([[2; 0; 1]],
          [finished (Raised (WebDriverException (Get "http://host/a")));
           finished (Raised (WebDriverException (SwitchToWindow 1)))]).
Proof. vm_compute. done. Qed.

(** * The browser of a construction that raised *)

Lemma run_preserves (P : system → Prop) :
  (∀ l s s', P s → exec l s = Some s' → P s') →
  ∀ ls s s', P s → run ls s = Some s' → P s'.
Proof.
  intros Hstep ls s s' HP Hrun.
  apply (run_invariant (λ _, true) P) with ls s; [| |done..].
  - intros l s1 s2 _. apply Hstep.
  - by apply forallb_forall.
Qed.

(** The driver an instance returned by [__init__] is on: the recorded one,
    or the one just launched and recorded.  When [__init__] raises, the
    recorded driver is as before. *)
Lemma init_outcomes browser n e w :
  match __init__ browser n e w with
  | (w', Returned m) =>
      (w' = w ∧ _GLOBAL_DRIVER w = Some (driver_of m)) ∨
      (driver_of m = length (drivers w) ∧
       _GLOBAL_DRIVER w' = Some (length (drivers w)))
  | (w', Raised _) => _GLOBAL_DRIVER w' = _GLOBAL_DRIVER w
  end.
Proof.
  destruct (_GLOBAL_DRIVER w) as [d|] eqn:HG.
  { rewrite (init_reuses browser n e w d HG). by left. }
  destruct (init_cases browser n e w HG)
    as [[Hg _] | [(x & ->) | (x & d & pool & j & -> & _)]]; [|done..].
  destruct (init_creates browser n e w HG Hg) as (d & _ & _ & _ & ->).
  by right.
Qed.

Lemma send_other d0 c r w d :
  d0 ≠ d → drivers (fst (send d0 c r w)) !! d = drivers w !! d.
Proof.
  intros Hne. unfold send. destruct (drivers w !! d0) as [dr|]; [|done].
  simpl. by rewrite list_lookup_insert_ne.
Qed.

(** A step of a call leaves the drivers of other sessions as they are. *)
Lemma thread_step_other_driver e w t w' t' d :
  thread_step e w t = Some (w', t') →
  driver_of (self t) ≠ d →
  drivers w' !! d = drivers w !! d.
Proof.
  destruct t as [m u p]. unfold thread_step, command. cbn [at_ self request_url].
  destruct p as [|h0|h0|h0|h0|h0 b|h0 pend|h0 b cu|h0 pend|r0]; intros Hs Hne;
    simplify_eq;
    try (match type of Hs with
         | context [send ?d0 ?c ?r ?w0] =>
             pose proof (send_other d0 c r w0 d Hne) as Hd;
             destruct (send d0 c r w0) as [w1 ok]; simpl in Hd;
             by simplify_eq
         end);
    try done.
  - destruct (tab_pool m) as [q|]; [|by simplify_eq].
    unfold Queue_get in Hs.
    destruct (queues w !! q) as [[|h rest]|]; by simplify_eq.
  - destruct (_GLOBAL_INSTANCE_LOCK w); by simplify_eq.
  - destruct (tab_pool m) as [q|]; by simplify_eq.
Qed.

Lemma out_of_reach_step d dr l s s' :
  out_of_reach d dr s → exec l s = Some s' → out_of_reach d dr s'.
Proof.
  intros (Hd & HG & Hinst & Hthr) He.
  assert (Hlt : d < length (drivers (sys_world s))) by (by eapply lookup_lt_Some).
  unfold out_of_reach.
  destruct l as [b n e|qr|i u|tid e]; simpl in He.
  - destruct (init_extends b n e (sys_world s)) as (_ & ds & Hds).
    pose proof (init_outcomes b n e (sys_world s)) as Hout.
    destruct (__init__ b n e (sys_world s)) as [w' [m|x]]; simplify_eq; simpl in *;
      rewrite Hds, lookup_app_l by done.
    + split; [done|]. destruct Hout as [[-> Hm] | [Hm HG']].
      * split; [done|]. split; [|done].
        apply Forall_app. split; [done|]. constructor; [|done]. congruence.
      * split; [rewrite HG'; intros [=]; lia|]. split; [|done].
        apply Forall_app. split; [done|]. constructor; [|done]. lia.
    + split; [done|]. by rewrite Hout.
  - simplify_eq. simpl. unfold spider_closed.
    destruct (_GLOBAL_DRIVER (sys_world s)) as [g|] eqn:Hg;
      [|simpl; rewrite Hg; by repeat split].
    assert (Hne : g ≠ d) by congruence.
    pose proof (send_other g Quit qr (sys_world s) d Hne) as Hd'.
    pose proof (send_frame g Quit qr (sys_world s)) as (_ & _ & HG' & _).
    destruct (send g Quit qr (sys_world s)) as [w1 ok]. simpl in *.
    destruct ok; simpl; rewrite ?Hd', ?HG', ?Hg; by repeat split.
  - destruct (instances s !! i) as [m|] eqn:Hi; simplify_eq. simpl.
    repeat split; try done.
    apply Forall_app. split; [done|]. constructor; [|done]. simpl.
    rewrite Forall_lookup in Hinst. by eapply Hinst.
  - destruct (threads s !! tid) as [t|] eqn:Ht; [|done].
    destruct (thread_step e (sys_world s) t) as [[w' t']|] eqn:Hs; simplify_eq.
    simpl.
    assert (Hne : driver_of (self t) ≠ d).
    { rewrite Forall_lookup in Hthr. by eapply Hthr. }
    rewrite (thread_step_other_driver _ _ _ _ _ _ Hs Hne).
    apply thread_step_spec in Hs as (Hself & (_ & HG' & _) & _).
    rewrite HG'. repeat split; try done.
    apply Forall_insert; [done|]. by rewrite Hself.
Qed.

(** X19. The browser of a construction that raised is never quit.  Take a
    reachable state and a construction that launches a driver and returns no
    instance (it raised after the launch).  Whatever happens in the process
    afterwards, constructions, requests and [spider_closed] calls in any
    number and order, that driver stays in the store exactly as the
    constructor left it: running, with no further command received, not the
    recorded driver, and on no instance.  [spider_closed] only ever quits
    the recorded driver. *)
Theorem browser_left_behind_is_never_quit ls s b n e s1 ls' s2 :
  run ls initial_system = Some s →
  exec (Construct b n e) s = Some s1 →
  instances s1 = instances s →
  length (drivers (sys_world s1)) = S (length (drivers (sys_world s))) →
  run ls' s1 = Some s2 →
  ∃ dr,
    drivers (sys_world s1) !! length (drivers (sys_world s)) = Some dr ∧
    drivers (sys_world s2) !! length (drivers (sys_world s)) = Some dr ∧
    session_alive dr = true ∧
    (Quit ∉ commands dr) ∧
    _GLOBAL_DRIVER (sys_world s2) ≠ Some (length (drivers (sys_world s))) ∧
    Forall (λ m, driver_of m ≠ length (drivers (sys_world s))) (instances s2).
Proof.
  intros Hrun He Hi Hlen Hrun'.
  pose proof (pool_inv_reachable s (run_reachable ls s Hrun)) as Hinv.
  assert (Hdl : length (drivers (sys_world s)) = length (tabs (sys_world s)))
    by (unfold tabs; by rewrite length_fmap).
  assert (Hstart : ∃ dr, session_alive dr = true ∧ (Quit ∉ commands dr) ∧
                         out_of_reach (length (drivers (sys_world s))) dr s1).
  { simpl in He.
    destruct (_GLOBAL_DRIVER (sys_world s)) as [g|] eqn:HG.
    { rewrite (init_reuses b n e _ g HG) in He. simplify_eq. simpl in *. lia. }
    destruct (init_cases b n e (sys_world s) HG)
      as [[Hg (w' & m & Hx)] | [(x & Hx) | (x & d & pool & j & Hx & Hh & Ha)]];
      rewrite Hx in He; simplify_eq; simpl in *.
    - apply (f_equal length) in Hi. rewrite length_app in Hi. simpl in Hi. lia.
    - lia.
    - exists d. split; [done|]. split.
      + pose proof (init_raised_commands b n e (sys_world s) _ _ _ _ Hx) as Hc.
        intros Hin. apply Hc in Hin. by destruct Hin as [|[|]].
      + unfold out_of_reach. simpl.
        split; [by apply list_lookup_middle|]. split; [by rewrite HG|]. split.
        * eapply Forall_impl; [exact (inv_instances s Hinv)|]. simpl.
          intros m Hwf. apply wf_instance_pool in Hwf as [_ Hlt]. lia.
        * eapply Forall_impl; [exact (inv_threads s Hinv)|]. simpl.
          intros t [Hwf _]. apply wf_instance_pool in Hwf as [_ Hlt]. lia. }
  destruct Hstart as (dr & Ha & Hq & Hout).
  pose proof (run_preserves (out_of_reach (length (drivers (sys_world s))) dr)
                (out_of_reach_step _ _) ls' s1 s2 Hout Hrun')
    as (Hd2 & HG2 & Hinst2 & _).
  destruct Hout as (Hd1 & _).
  exists dr. done.
Qed.

Lemma browser_left_behind_is_never_quit_witness :
  ∃ s1 s2,
    exec (Construct "firefox" 2 failing_script) initial_system = Some s1 ∧
    run [Construct "firefox" 2 launching; Call 0 "http://host/a";
         Step 0 (answering "" ""); Close false; Construct "chrome" 1 launching;
         Close false] s1 = Some s2 ∧
    ∃ dr,
      drivers (sys_world s1) !! length (drivers (sys_world initial_system)) = Some dr ∧
      drivers (sys_world s2) !! length (drivers (sys_world initial_system)) = Some dr ∧
      session_alive dr = true ∧
      (Quit ∉ commands dr) ∧
      _GLOBAL_DRIVER (sys_world s2)
        ≠ Some (length (drivers (sys_world initial_system))) ∧
      Forall (λ m, driver_of m ≠ length (drivers (sys_world initial_system)))
             (instances s2).
Proof.
  eexists _, _.
  split; [vm_compute; reflexivity|]. split; [vm_compute; reflexivity|].
  eapply (browser_left_behind_is_never_quit [] initial_system
            "firefox" 2 failing_script _
            [Construct "firefox" 2 launching; Call 0 "http://host/a";
             Step 0 (answering "" ""); Close false;
             Construct "chrome" 1 launching; Close false] _);
    [reflexivity | vm_compute; reflexivity | reflexivity | reflexivity
    | vm_compute; reflexivity].
Defined.

(** The final state of that schedule: three drivers were launched, the two
    recorded ones were quit in turn, the first is still running. *)
Example browser_left_behind :
  (λ s, session_alive <$> drivers (sys_world s))
    <$> run (Construct "firefox" 2 failing_script ::
             [Construct "firefox" 2 launching; Call 0 "http://host/a";
              Step 0 (answering "" ""); Close false;
              Construct "chrome" 1 launching; Close false]) initial_system
  = Some [true; false; false].
Proof. vm_compute. done. Qed.
